(** * EvalWaiter: function-evaluation synchronisation of the debugger

    A shallow embedding of [src/debugger/evalwaiter.cpp].  The member
    functions of [EvalWaiter] become functions over an explicit [World]:
    the object's fields, the shared states of the promise/future pairs it
    creates, and the part of the debug engine its calls act upon (the debug
    state of the inferior threads, the custom-notification switch).  Every
    call into the engine that has an effect on the debuggee is appended to a
    log, so that statements about the order of these calls can be made.

    The answers of the engine ([HRESULT]s and out-parameters of the
    [ICorDebug*] methods) are fields of the handle records: a theorem that
    quantifies over the handles quantifies over all answers of the engine.

    Threads.  [WaitEvalResult] runs on the caller's thread and holds
    [m_waitEvalResultMutex] from entry to return, so one call is modelled
    alone.  The engine's callback thread and the command thread enter the
    object through [NotifyEvalComplete], [ManagedCallbackCustomNotification]
    and [CancelEvalRunning]; these serialise on [m_evalResultMutex] and are
    modelled as atomic steps.  An [Environment] lists them in the order they
    take effect: the ones up to the return of the first [wait_for], the
    ones between that return and the return of the second [wait_for], and,
    when the second [wait_for] timed out, the ones that still find the
    request armed, before [WaitEvalResult] takes [m_evalResultMutex] and
    resets the slot.  Where [WaitEvalResult] does not touch the object
    between two of its engine calls, the callbacks that arrive there are
    logged at the next wait; only the order of the log depends on that.
    Time itself is not modelled: a [wait_for] is the run of its callbacks
    followed by a look at the future, and the 5000 of a [wait_for] is the
    argument of the call, not a duration.

    Within one call the engine gives the same answer to the same request,
    and the threads that enumeration yields are the same each time. *)

From Stdlib Require Import ZArith List Bool Lia.
From Stdlib Require String.
Import String.StringSyntax.
Import ListNotations.
Open Scope Z_scope.

(** ** HRESULT and the status codes the source names *)

Definition HRESULT := Z.
Definition DWORD := Z.

(** [SUCCEEDED(hr)] is [hr >= 0], [FAILED(hr)] is [hr < 0] on the signed
    32-bit [HRESULT]. *)
Definition SUCCEEDED (hr : HRESULT) : bool := 0 <=? hr.
Definition FAILED (hr : HRESULT) : bool := hr <? 0.
Definition S_OK : HRESULT := 0.

(** What the headers and the build fix and this translation unit only uses:
    the numeric values of the named status codes, the value of
    [evalResultData_t::Status] in a freshly allocated [evalResultData_t],
    and whether [assert] is compiled out ([NDEBUG]).  They are parameters of
    the development; the laws are the severity bit of each code (named [E_]
    or [S_]) and the fact that different names are different codes. *)
Class Headers : Type := {
  E_FAIL : HRESULT;
  E_UNEXPECTED : HRESULT;
  CORDBG_S_FUNC_EVAL_ABORTED : HRESULT;
  CORDBG_E_CANT_CALL_ON_THIS_THREAD : HRESULT;
  COR_E_OPERATIONCANCELED : HRESULT;
  COR_E_TIMEOUT : HRESULT;
  evalResultData_Status_init : HRESULT;
  NDEBUG : bool;
  E_FAIL_failed : FAILED E_FAIL = true;
  E_UNEXPECTED_failed : FAILED E_UNEXPECTED = true;
  ABORTED_succeeded : FAILED CORDBG_S_FUNC_EVAL_ABORTED = false;
  CANT_CALL_failed : FAILED CORDBG_E_CANT_CALL_ON_THIS_THREAD = true;
  OPERATIONCANCELED_failed : FAILED COR_E_OPERATIONCANCELED = true;
  TIMEOUT_failed : FAILED COR_E_TIMEOUT = true;
  ABORTED_not_S_OK : (CORDBG_S_FUNC_EVAL_ABORTED =? S_OK) = false;
  E_FAIL_not_UNEXPECTED : (E_FAIL =? E_UNEXPECTED) = false;
  TIMEOUT_not_UNEXPECTED : (COR_E_TIMEOUT =? E_UNEXPECTED) = false;
  CANT_CALL_not_CANCELED :
    (CORDBG_E_CANT_CALL_ON_THIS_THREAD =? COR_E_OPERATIONCANCELED) = false;
  CANT_CALL_not_TIMEOUT :
    (CORDBG_E_CANT_CALL_ON_THIS_THREAD =? COR_E_TIMEOUT) = false;
  CANCELED_not_TIMEOUT : (COR_E_OPERATIONCANCELED =? COR_E_TIMEOUT) = false
}.

(** The cast [(HRESULT)0x8...L] of an unsigned 32-bit literal. *)
Definition HRESULT_of (u : Z) : HRESULT :=
  if 2 ^ 31 <=? u then u - 2 ^ 32 else u.

(** The values of the public Windows / CoreCLR headers (winerror.h,
    corerror.h), with [Status] initialised to [E_FAIL]; [ndebug] selects the
    build. *)
Definition corerror (ndebug : bool) : Headers.
Proof.
  refine {| E_FAIL := HRESULT_of 0x80004005;
            E_UNEXPECTED := HRESULT_of 0x8000FFFF;
            CORDBG_S_FUNC_EVAL_ABORTED := HRESULT_of 0x00131319;
            CORDBG_E_CANT_CALL_ON_THIS_THREAD := HRESULT_of 0x80131C09;
            COR_E_OPERATIONCANCELED := HRESULT_of 0x8013153B;
            COR_E_TIMEOUT := HRESULT_of 0x80131505;
            evalResultData_Status_init := HRESULT_of 0x80004005;
            NDEBUG := ndebug |}; reflexivity.
Defined.

(** [CORDBG_S_FUNC_EVAL_HAS_NO_RESULT], the status of an evaluation whose
    return type is void (comment in [NotifyEvalComplete]). *)
Definition CORDBG_S_FUNC_EVAL_HAS_NO_RESULT : HRESULT := HRESULT_of 0x00131316.

(** ** Handles of the debug engine *)

(** An [ICorDebugValue] is known by its identity only; a possibly null
    [ICorDebugValue*] is an [option]. *)
Definition ICorDebugValue := nat.
Definition Handle := option ICorDebugValue.

Inductive CorDebugThreadState := THREAD_RUN | THREAD_SUSPEND.

(** [ICorDebugEval] with the [ICorDebugEval2] it may be queried for.
    [GetResult] gives the status and the value written to the out-parameter. *)
Record ICorDebugEval := {
  eval_id : nat;
  Abort : HRESULT;
  QueryInterface_ICorDebugEval2 : HRESULT;
  RudeAbort : HRESULT;
  GetResult : HRESULT * Handle
}.

(** [ICorDebugProcess] with [ICorDebugProcess3].  [EnumerateThreads] is the
    status of the call; the enumerator is written to the out-parameter when
    the call succeeds and left null when it fails, and it yields the
    [threads] of the world.  A handle gives the same answer each time a
    method is called on it. *)
Record ICorDebugProcess := {
  Stop : HRESULT;
  Continue : HRESULT;
  EnumerateThreads : HRESULT;
  QueryInterface_ICorDebugProcess3 : HRESULT;
  Process3_SetEnableCustomNotification : bool -> HRESULT
}.

(** [ICorDebugThread].  [GetID] gives the status and the value of the
    caller's [threadId] variable after the call (every caller initialises
    it to 0); [CreateEval] the status and the handle written on success. *)
Record ICorDebugThread := {
  GetProcess : HRESULT * option ICorDebugProcess;
  GetID : HRESULT * DWORD;
  CreateEval : HRESULT * ICorDebugEval;
  SetDebugState : CorDebugThreadState -> HRESULT
}.

(** ** The data of EvalWaiter *)

Record evalResultData_t := {
  iCorEval : Handle;
  Status : HRESULT
}.

(** The shared state of a [std::promise] / [std::future] pair. *)
Inductive shared_state :=
| NotReady
| HasValue (v : evalResultData_t)
| BrokenPromise.

Inductive future_errc := broken_promise | promise_already_satisfied | no_state.
Inductive future_status := ready | timeout.

(** [promiseValue] is the index of the promise's shared state in the world. *)
Record evalResult_t := {
  threadId : DWORD;
  pEval : ICorDebugEval;
  promiseValue : nat
}.

(** Calls with an effect outside the object, in the order they are made.
    Pure queries ([GetID], [GetProcess], [QueryInterface], thread
    enumeration) and the logging macros are not recorded. *)
Inductive Call :=
| call_SetDebugState (tid : DWORD) (state : CorDebugThreadState)
| call_CreateEval
| call_cbSetupEval (eval : nat)
| call_Continue
| call_Stop
| call_Abort (eval : nat)
| call_RudeAbort (eval : nat)
| call_GetResult (eval : nat)
| call_SetEnableCustomNotification (fEnable : bool)
| call_wait_for (ms : Z).

(** The state the code acts upon.  [m_evalResult], [m_evalCanceled] and
    [m_evalCrossThreadDependency] are the fields of the object;
    [evalTimeOut] is the local of [WaitEvalResult] that its [WaitResult]
    lambda captures by reference; [shared] holds the shared states of the
    promises created so far; [threads] is what thread enumeration yields,
    each thread with its current debug state; [customNotification] is the
    engine's switch for the cross-thread-dependency notification.  Threads
    that start or end while [WaitEvalResult] runs are not represented: the
    enumeration yields the same threads each time, and the debug state of a
    thread changes through an accepted [SetDebugState] only. *)
Record World := {
  m_evalResult : option evalResult_t;
  m_evalCanceled : bool;
  m_evalCrossThreadDependency : bool;
  evalTimeOut : bool;
  shared : list shared_state;
  threads : list (ICorDebugThread * CorDebugThreadState);
  customNotification : bool;
  calls : list Call
}.

Definition set_evalResult (x : option evalResult_t) (w : World) : World :=
  {| m_evalResult := x; m_evalCanceled := m_evalCanceled w;
     m_evalCrossThreadDependency := m_evalCrossThreadDependency w;
     evalTimeOut := evalTimeOut w; shared := shared w; threads := threads w;
     customNotification := customNotification w; calls := calls w |}.

Definition set_evalCanceled (b : bool) (w : World) : World :=
  {| m_evalResult := m_evalResult w; m_evalCanceled := b;
     m_evalCrossThreadDependency := m_evalCrossThreadDependency w;
     evalTimeOut := evalTimeOut w; shared := shared w; threads := threads w;
     customNotification := customNotification w; calls := calls w |}.

Definition set_evalCrossThreadDependency (b : bool) (w : World) : World :=
  {| m_evalResult := m_evalResult w; m_evalCanceled := m_evalCanceled w;
     m_evalCrossThreadDependency := b;
     evalTimeOut := evalTimeOut w; shared := shared w; threads := threads w;
     customNotification := customNotification w; calls := calls w |}.

Definition set_evalTimeOut (b : bool) (w : World) : World :=
  {| m_evalResult := m_evalResult w; m_evalCanceled := m_evalCanceled w;
     m_evalCrossThreadDependency := m_evalCrossThreadDependency w;
     evalTimeOut := b; shared := shared w; threads := threads w;
     customNotification := customNotification w; calls := calls w |}.

Definition set_shared (s : list shared_state) (w : World) : World :=
  {| m_evalResult := m_evalResult w; m_evalCanceled := m_evalCanceled w;
     m_evalCrossThreadDependency := m_evalCrossThreadDependency w;
     evalTimeOut := evalTimeOut w; shared := s; threads := threads w;
     customNotification := customNotification w; calls := calls w |}.

Definition set_threads (t : list (ICorDebugThread * CorDebugThreadState))
    (w : World) : World :=
  {| m_evalResult := m_evalResult w; m_evalCanceled := m_evalCanceled w;
     m_evalCrossThreadDependency := m_evalCrossThreadDependency w;
     evalTimeOut := evalTimeOut w; shared := shared w; threads := t;
     customNotification := customNotification w; calls := calls w |}.

Definition set_customNotification (b : bool) (w : World) : World :=
  {| m_evalResult := m_evalResult w; m_evalCanceled := m_evalCanceled w;
     m_evalCrossThreadDependency := m_evalCrossThreadDependency w;
     evalTimeOut := evalTimeOut w; shared := shared w; threads := threads w;
     customNotification := b; calls := calls w |}.

(** Append calls to the log. *)
Definition record (l : list Call) (w : World) : World :=
  {| m_evalResult := m_evalResult w; m_evalCanceled := m_evalCanceled w;
     m_evalCrossThreadDependency := m_evalCrossThreadDependency w;
     evalTimeOut := evalTimeOut w; shared := shared w; threads := threads w;
     customNotification := customNotification w; calls := calls w ++ l |}.

(** ** Control: return, exception, termination *)

(** A member function returns, throws a [std::future_error], is left by an
    exception of another type, or the process is terminated ([assert], a
    null pointer followed, or an exception nobody catches). *)
Inductive outcome (A : Type) :=
| Returns (a : A)
| Throws (e : future_errc)
| Raises
| Terminates.
Arguments Returns {A} a.
Arguments Throws {A} e.
Arguments Raises {A}.
Arguments Terminates {A}.

Definition M (A : Type) := World -> outcome A * World.

Definition ret {A} (a : A) : M A := fun w => (Returns a, w).

Definition bind {A B} (m : M A) (k : A -> M B) : M B :=
  fun w => match m w with
           | (Returns a, w') => k a w'
           | (Throws e, w') => (Throws e, w')
           | (Raises, w') => (Raises, w')
           | (Terminates, w') => (Terminates, w')
           end.

(** An effect that cannot fail. *)
Definition act (f : World -> World) : M unit := fun w => (Returns tt, f w).

(** [try { body } catch (const std::future_error&) { handler }] *)
Definition try_catch {A} (body : M A) (handler : future_errc -> M A) : M A :=
  fun w => match body w with
           | (Throws e, w') => handler e w'
           | r => r
           end.

Notation "x <- m ;; k" := (bind m (fun x => k))
  (at level 61, m at next level, right associativity).
Notation "m ;; k" := (bind m (fun _ => k))
  (at level 61, right associativity).

(** ** The promise / future pair *)

Fixpoint list_set {A} (n : nat) (x : A) (l : list A) : list A :=
  match l, n with
  | [], _ => []
  | _ :: l', O => x :: l'
  | y :: l', S n' => y :: list_set n' x l'
  end.

(** [promise::set_value]: stores the value and makes the state ready; on a
    state that is already ready it throws. *)
Definition promise_set_value (p : nat) (v : evalResultData_t) : M unit :=
  fun w => match nth_error (shared w) p with
           | Some NotReady =>
               (Returns tt, set_shared (list_set p (HasValue v) (shared w)) w)
           | Some _ => (Throws promise_already_satisfied, w)
           | None => (Throws no_state, w)
           end.

(** The destructor of a promise: a state that is not ready yet is made ready
    with a [broken_promise] error. *)
Definition promise_destroy (p : nat) (w : World) : World :=
  match nth_error (shared w) p with
  | Some NotReady => set_shared (list_set p BrokenPromise (shared w)) w
  | _ => w
  end.

(** [future::wait_for] looked at when it returns. *)
Definition future_poll (f : nat) (w : World) : future_status :=
  match nth_error (shared w) f with
  | Some NotReady => timeout
  | _ => ready
  end.

(** [future::get]; it is called on a ready state only. *)
Definition future_get (f : nat) : M evalResultData_t :=
  fun w => match nth_error (shared w) f with
           | Some (HasValue v) => (Returns v, w)
           | Some BrokenPromise => (Throws broken_promise, w)
           | _ => (Throws no_state, w)
           end.

(** [m_evalResult.reset(x)]: the request held before, if any, is destroyed
    and its promise with it. *)
Definition evalResult_reset (x : option evalResult_t) (w : World) : World :=
  set_evalResult x
    match m_evalResult w with
    | Some r => promise_destroy (promiseValue r) w
    | None => w
    end.

Section EvalWaiter.

Context {headers : Headers}.

(** ** NotifyEvalComplete, IsEvalRunning, CancelEvalRunning *)

(** The [evalResultData_t] that [NotifyEvalComplete] allocates and, when
    [pEval] is not null, fills from [pEval->GetResult]. *)
Definition delivered (pEval : option ICorDebugEval) : evalResultData_t :=
  match pEval with
  | Some eval => {| iCorEval := snd (GetResult eval);
                    Status := fst (GetResult eval) |}
  | None => {| iCorEval := None; Status := evalResultData_Status_init |}
  end.

(** The engine call made for it. *)
Definition GetResult_calls (pEval : option ICorDebugEval) : list Call :=
  match pEval with
  | Some eval => [call_GetResult (eval_id eval)]
  | None => []
  end.

Definition NotifyEvalComplete (pThread : option ICorDebugThread)
    (pEval : option ICorDebugEval) : M unit :=
  match pThread with
  | None => act (evalResult_reset None)
  | Some thread =>
      let threadId' := snd (GetID thread) in
      act (record (GetResult_calls pEval)) ;;
      let ppEvalResult := delivered pEval in
      fun w =>
        match m_evalResult w with
        | None => ret tt w
        | Some r =>
            if negb (threadId r =? threadId') then ret tt w
            else (promise_set_value (promiseValue r) ppEvalResult ;;
                  act (evalResult_reset None)) w
        end
  end.

Definition IsEvalRunning (w : World) : bool :=
  match m_evalResult w with Some _ => true | None => false end.

(** The engine calls of an abort attempt, as all three call sites make them:
    [Abort()] and, after its failure and a successful [QueryInterface] for
    [ICorDebugEval2], [RudeAbort()]. *)
Definition abort_calls (eval : ICorDebugEval) : list Call :=
  call_Abort (eval_id eval) ::
  if SUCCEEDED (Abort eval) then []
  else if SUCCEEDED (QueryInterface_ICorDebugEval2 eval)
       then [call_RudeAbort (eval_id eval)] else [].

Definition CancelEvalRunning (w : World) : World :=
  match m_evalResult w with
  | None => w
  | Some r =>
      let w := record (abort_calls (pEval r)) w in
      if SUCCEEDED (Abort (pEval r))
         || (SUCCEEDED (QueryInterface_ICorDebugEval2 (pEval r))
             && SUCCEEDED (RudeAbort (pEval r)))
      then set_evalCanceled true w
      else w
  end.

(** ** RunEval *)

(** [WaitEvalResultCallback], a [std::function]: called on the evaluation
    handle it returns a status, or the call is left by an exception. *)
Definition WaitEvalResultCallback := ICorDebugEval -> outcome HRESULT.

(** A setup callback that returns the status [cb] computes. *)
Definition returns_status (cb : ICorDebugEval -> HRESULT)
    : WaitEvalResultCallback :=
  fun pEval => Returns (cb pEval).

(** When the callback is left by an exception, so is [RunEval], right after
    the request was stored: the future is destroyed, the promise stays in
    the slot. *)
Definition RunEval (pProcess : ICorDebugProcess) (pThread : ICorDebugThread)
    (pEval : ICorDebugEval) (cbSetupEval : WaitEvalResultCallback)
    : M (HRESULT * nat) :=
  fun w =>
    (* std::promise p; auto f = p.get_future(); *)
    let f := length (shared w) in
    let w := set_shared (shared w ++ [NotReady]) w in
    let threadId' := snd (GetID pThread) in
    (* assert(!m_evalResult); *)
    if negb NDEBUG && IsEvalRunning w then (Terminates, w)
    else
      let w := evalResult_reset
                 (Some {| threadId := threadId'; pEval := pEval;
                          promiseValue := f |}) w in
      let w := record [call_cbSetupEval (eval_id pEval)] w in
      match cbSetupEval pEval with
      | Returns Status' =>
          if FAILED Status'
          then (Returns (Status', f), evalResult_reset None w)
          else
            let w := record [call_Continue] w in
            if FAILED (Continue pProcess)
            then (Returns (Continue pProcess, f), evalResult_reset None w)
            else (Returns (Continue pProcess, f), w)
      | Throws e => (Throws e, w)
      | Raises => (Raises, w)
      | Terminates => (Terminates, w)
      end.

(** ** FindEvalForThread and the custom notification callback *)

Definition FindEvalForThread (pThread : ICorDebugThread) (w : World)
    : option ICorDebugEval :=
  if FAILED (fst (GetID pThread)) then None
  else
    match m_evalResult w with
    | None => None
    | Some r =>
        if threadId r =? snd (GetID pThread) then Some (pEval r) else None
    end.

Definition ManagedCallbackCustomNotification (pThread : ICorDebugThread)
    (w : World) : HRESULT * World :=
  match FindEvalForThread pThread w with
  | None => (S_OK, w)
  | Some pEval =>
      let w := record (abort_calls pEval) w in
      if FAILED (Abort pEval) then
        if FAILED (QueryInterface_ICorDebugEval2 pEval)
        then (QueryInterface_ICorDebugEval2 pEval, w)
        else if FAILED (RudeAbort pEval) then (RudeAbort pEval, w)
        else (S_OK, set_evalCrossThreadDependency true w)
      else (S_OK, set_evalCrossThreadDependency true w)
  end.

(** ** SetEnableCustomNotification *)

Definition SetEnableCustomNotification (pProcess : ICorDebugProcess)
    (fEnable : bool) (w : World) : HRESULT * World :=
  if FAILED (QueryInterface_ICorDebugProcess3 pProcess)
  then (QueryInterface_ICorDebugProcess3 pProcess, w)
  else
    let w := record [call_SetEnableCustomNotification fEnable] w in
    (Process3_SetEnableCustomNotification pProcess fEnable,
     if SUCCEEDED (Process3_SetEnableCustomNotification pProcess fEnable)
     then set_customNotification fEnable w else w).

(** ** What other threads do while WaitEvalResult is blocked *)

(** The engine's callback thread and the command thread enter the object
    through three member functions.  Each runs under [m_evalResultMutex] (the
    notification callback takes it in [FindEvalForThread]); they are taken
    to run one after the other while the caller is blocked in [wait_for]. *)
Inductive Callback :=
| cb_NotifyEvalComplete (pThread : option ICorDebugThread)
    (pEval : option ICorDebugEval)
| cb_CancelEvalRunning
| cb_CustomNotification (pThread : ICorDebugThread).

(** An exception that leaves a callback is caught by nobody. *)
Definition run_callback (cb : Callback) : M unit :=
  match cb with
  | cb_NotifyEvalComplete pThread pEval =>
      fun w => match NotifyEvalComplete pThread pEval w with
               | (Throws _, w') => (Terminates, w')
               | r => r
               end
  | cb_CancelEvalRunning => act CancelEvalRunning
  | cb_CustomNotification pThread =>
      act (fun w => snd (ManagedCallbackCustomNotification pThread w))
  end.

Fixpoint run_callbacks (cbs : list Callback) : M unit :=
  match cbs with
  | [] => ret tt
  | cb :: cbs' => run_callback cb ;; run_callbacks cbs'
  end.

(** The callbacks that arrive during the primary wait; those that arrive
    after it, up to the return of the second wait; and those that arrive
    after a second wait that timed out, while the request is still armed:
    before [WaitEvalResult] locks [m_evalResultMutex] (line 203) to reset
    the slot.  The three windows span the time during which the slot is
    armed and unlocked ([RunEval] holds the mutex from the moment it arms the
    slot until it returns).  A callback that arrives while the slot is empty
    changes nothing of the object; such callbacks are left out. *)
Record Environment := {
  primary_window : list Callback;
  grace_window : list Callback;
  fatal_window : list Callback
}.

(** [f.wait_for(std::chrono::milliseconds(ms))]: the callbacks of the window
    run, then the state of the future decides. *)
Definition future_wait_for (f : nat) (ms : Z) (window : list Callback)
    : M future_status :=
  act (record [call_wait_for ms]) ;;
  run_callbacks window ;;
  fun w => ret (future_poll f w) w.

(** ** WaitEvalResult *)

(** One turn of the loop of [ChangeThreadsState]: the new state of the
    thread, and the call made. *)
Definition SetDebugState_one (evalThreadId : DWORD)
    (state : CorDebugThreadState) (t : ICorDebugThread * CorDebugThreadState)
    : ICorDebugThread * CorDebugThreadState :=
  if SUCCEEDED (fst (GetID (fst t))) && negb (evalThreadId =? snd (GetID (fst t)))
  then (fst t, if FAILED (SetDebugState (fst t) state) then snd t else state)
  else t.

Definition SetDebugState_call (evalThreadId : DWORD)
    (state : CorDebugThreadState) (t : ICorDebugThread * CorDebugThreadState)
    : list Call :=
  if SUCCEEDED (fst (GetID (fst t))) && negb (evalThreadId =? snd (GetID (fst t)))
  then [call_SetDebugState (snd (GetID (fst t))) state]
  else [].

(** The loop of [ChangeThreadsState] over the threads the enumerator
    yields. *)
Definition SetDebugState_all (evalThreadId : DWORD)
    (state : CorDebugThreadState) (w : World) : World :=
  record (flat_map (SetDebugState_call evalThreadId state) (threads w))
    (set_threads (map (SetDebugState_one evalThreadId state) (threads w)) w).

(** The [ChangeThreadsState] lambda.  The status of [EnumerateThreads] is
    not looked at: after a failed call the loop condition calls [Next]
    through the null enumerator, which ends the process. *)
Definition ChangeThreadsState (iCorProcess : ICorDebugProcess)
    (evalThreadId : DWORD) (state : CorDebugThreadState) : M unit :=
  fun w =>
    if FAILED (EnumerateThreads iCorProcess) then (Terminates, w)
    else (Returns tt, SetDebugState_all evalThreadId state w).

(** The [WaitResult] lambda, its two waits first.  The primary wait
    (lines 171-196): when it times out, the process is stopped, all threads
    are set running, the evaluation is aborted and the process continued. *)
Definition WaitResult_primary (iCorProcess : ICorDebugProcess)
    (evalThreadId : DWORD) (iCorEval' : ICorDebugEval) (env : Environment)
    (f : nat) : M unit :=
  timeoutStatus <- future_wait_for f 5000 (primary_window env) ;;
  match timeoutStatus with
  | timeout =>
      act (record [call_Stop]) ;;
      ChangeThreadsState iCorProcess evalThreadId THREAD_RUN ;;
      act (record (abort_calls iCorEval')) ;;
      act (set_evalTimeOut true) ;;
      act (record [call_Continue])
  | ready => ret tt
  end.

(** Then the second wait and the fetch of the outcome (lines 197-217); it
    yields the status returned and the content of the caller's output slot
    ([None] when [ppEvalResult] is null).  After a second wait that timed
    out the slot is reset only at line 204, under the lock taken at line
    203: the callbacks of [fatal_window] act before that.  [Stop] touches
    nothing of the object, so that it makes no difference to the object
    whether they act before or after it; they are logged after it. *)
Definition WaitResult_grace (ppEvalResult : option Handle)
    (env : Environment) (f : nat) : M (HRESULT * option Handle) :=
  timeoutStatus <- future_wait_for f 5000 (grace_window env) ;;
  match timeoutStatus with
  | timeout =>
      act (record [call_Stop]) ;;
      run_callbacks (fatal_window env) ;;
      act (evalResult_reset None) ;;
      ret (E_UNEXPECTED, ppEvalResult)
  | ready =>
      evalResult <- future_get f ;;
      if FAILED (Status evalResult)
      then ret (Status evalResult, ppEvalResult)
      else
        match ppEvalResult with
        | None => ret (S_OK, None)
        | Some _ => ret (Status evalResult, Some (iCorEval evalResult))
        end
  end.

(** The whole lambda (lines 149-223).  A future obtained from [get_future]
    is valid, so the two [valid()] tests have no branch here. *)
Definition WaitResult (iCorProcess : ICorDebugProcess)
    (pThread : ICorDebugThread) (evalThreadId : DWORD)
    (ppEvalResult : option Handle) (cbSetupEval : WaitEvalResultCallback)
    (env : Environment) : M (HRESULT * option Handle) :=
  ChangeThreadsState iCorProcess evalThreadId THREAD_SUSPEND ;;
  act (record [call_CreateEval]) ;;
  if FAILED (fst (CreateEval pThread))
  then ret (fst (CreateEval pThread), ppEvalResult)
  else
    let iCorEval' := snd (CreateEval pThread) in
    try_catch
      (r <- RunEval iCorProcess pThread iCorEval' cbSetupEval ;;
       if FAILED (fst r) then ret (fst r, ppEvalResult)
       else
         WaitResult_primary iCorProcess evalThreadId iCorEval' env (snd r) ;;
         WaitResult_grace ppEvalResult env (snd r))
      (fun _ => ret (E_FAIL, ppEvalResult)).

(** The translation of the status at the end of [WaitEvalResult]. *)
Definition final_status (ret' : HRESULT) (w : World) : HRESULT :=
  if ret' =? CORDBG_S_FUNC_EVAL_ABORTED then
    if m_evalCrossThreadDependency w then CORDBG_E_CANT_CALL_ON_THIS_THREAD
    else if m_evalCanceled w then COR_E_OPERATIONCANCELED else COR_E_TIMEOUT
  else if evalTimeOut w then
    if ret' =? E_UNEXPECTED then E_UNEXPECTED else COR_E_TIMEOUT
  else ret'.

Definition WaitEvalResult (pThread : ICorDebugThread)
    (ppEvalResult : option Handle) (cbSetupEval : WaitEvalResultCallback)
    (env : Environment) : M (HRESULT * option Handle) :=
  if FAILED (fst (GetProcess pThread))
  then ret (fst (GetProcess pThread), ppEvalResult)
  else
    match snd (GetProcess pThread) with
    | None => ret (E_FAIL, ppEvalResult)
    | Some iCorProcess =>
        if FAILED (fst (GetID pThread))
        then ret (fst (GetID pThread), ppEvalResult)
        else
          let evalThreadId := snd (GetID pThread) in
          act (set_evalTimeOut false) ;;
          act (fun w => snd (SetEnableCustomNotification iCorProcess true w)) ;;
          act (set_evalCanceled false) ;;
          act (set_evalCrossThreadDependency false) ;;
          r <- WaitResult iCorProcess pThread evalThreadId ppEvalResult
                 cbSetupEval env ;;
          act (fun w => snd (SetEnableCustomNotification iCorProcess false w)) ;;
          ret' <- (fun w => ret (final_status (fst r) w) w) ;;
          ChangeThreadsState iCorProcess evalThreadId THREAD_RUN ;;
          ret (ret', snd r)
    end.

End EvalWaiter.

(** ** Vocabulary of the statements

    Predicates and worlds the theorems are stated with; each is built from
    the operations above. *)

Section Vocabulary.

Context {headers : Headers}.

(** The calls a callback can make. *)
Definition callback_call (c : Call) : bool :=
  match c with
  | call_Abort _ | call_RudeAbort _ | call_GetResult _ => true
  | _ => false
  end.

(** The relation between the slot and the future [f] that [WaitEvalResult]
    holds: the slot is empty, or it holds the request whose promise is [f]
    and [f] is not ready. *)
Definition in_flight (f : nat) (w : World) : Prop :=
  m_evalResult w = None \/
  exists r, m_evalResult w = Some r /\ promiseValue r = f /\
            nth_error (shared w) f = Some NotReady.

(** What a callback leaves as it is. *)
Record callback_frame (f : nat) (w w' : World) : Prop := {
  cf_in_flight : in_flight f w';
  cf_evalTimeOut : evalTimeOut w' = evalTimeOut w;
  cf_threads : threads w' = threads w;
  cf_customNotification : customNotification w' = customNotification w;
  cf_calls : exists l, calls w' = calls w ++ l /\
                       forallb callback_call l = true;
  cf_stable : forall s, nth_error (shared w) f = Some s -> s <> NotReady ->
                        nth_error (shared w') f = Some s;
  cf_idle : m_evalResult w = None ->
            m_evalResult w' = None /\ shared w' = shared w /\
            m_evalCanceled w' = m_evalCanceled w /\
            m_evalCrossThreadDependency w' = m_evalCrossThreadDependency w
}.

(** A callback is foreign to thread id [tid] when it is not a completion
    for [tid] and not the reset. *)
Definition foreign (tid : DWORD) (cb : Callback) : bool :=
  match cb with
  | cb_NotifyEvalComplete (Some thread) _ => negb (tid =? snd (GetID thread))
  | cb_NotifyEvalComplete None _ => false
  | cb_CancelEvalRunning => true
  | cb_CustomNotification _ => true
  end.

(** The world in which [WaitEvalResult] calls [WaitResult()]: the
    notification has been asked for and the two flags are reset. *)
Definition at_WaitResult (iCorProcess : ICorDebugProcess) (w : World) : World :=
  set_evalCrossThreadDependency false
    (set_evalCanceled false
       (snd (SetEnableCustomNotification iCorProcess true
               (set_evalTimeOut false w)))).

(** The world [WaitEvalResult] returns in, given the one [WaitResult()]
    returned in: the notification is switched off, then the threads are set
    running. *)
Definition cleanup (iCorProcess : ICorDebugProcess) (evalThreadId : DWORD)
    (w : World) : World :=
  SetDebugState_all evalThreadId THREAD_RUN
    (snd (SetEnableCustomNotification iCorProcess false w)).

(** Classes of calls. *)
Definition not_setup (c : Call) : bool :=
  match c with call_cbSetupEval _ => false | _ => true end.

Definition not_Continue (c : Call) : bool :=
  match c with call_Continue => false | _ => true end.

Definition not_wait (c : Call) : bool :=
  match c with call_wait_for _ => false | _ => true end.

(** [w'] has the log of [w] and further calls, all of them satisfying [P]. *)
Definition adds (P : Call -> bool) (w w' : World) : Prop :=
  exists l, calls w' = calls w ++ l /\ forallb P l = true.

(** The world after the actions that follow a primary wait that timed out. *)
Definition after_primary_timeout (evalThreadId : DWORD) (e : ICorDebugEval)
    (w : World) : World :=
  record [call_Continue]
    (set_evalTimeOut true
       (record (abort_calls e)
          (SetDebugState_all evalThreadId THREAD_RUN (record [call_Stop] w)))).

(** The request [RunEval] arms for the handle [CreateEval] gave. *)
Definition armed_request (pThread : ICorDebugThread) (w : World)
    : evalResult_t :=
  {| threadId := snd (GetID pThread); pEval := snd (CreateEval pThread);
     promiseValue := length (shared w) |}.

(** The world [RunEval] leaves, entered in [w] with the slot empty, when
    setup and [Continue] succeeded. *)
Definition armed (pThread : ICorDebugThread) (w : World) : World :=
  record [call_Continue]
    (record [call_cbSetupEval (eval_id (snd (CreateEval pThread)))]
       (set_evalResult (Some (armed_request pThread w))
          (set_shared (shared w ++ [NotReady]) w))).

(** The engine call [SetEnableCustomNotification] makes, if any. *)
Definition notification_calls (pProcess : ICorDebugProcess) (fEnable : bool)
    : list Call :=
  if FAILED (QueryInterface_ICorDebugProcess3 pProcess) then []
  else [call_SetEnableCustomNotification fEnable].

(** The number of calls of the setup callback in a log. *)
Definition count_setup (l : list Call) : nat :=
  length (filter (fun c => negb (not_setup c)) l).

(** What [WaitResult] returns once it has fetched the outcome [d]
    (lines 210-217). *)
Definition fetched (ppEvalResult : option Handle) (d : evalResultData_t)
    : HRESULT * option Handle :=
  if FAILED (Status d) then (Status d, ppEvalResult)
  else match ppEvalResult with
       | None => (S_OK, None)
       | Some _ => (Status d, Some (iCorEval d))
       end.

(** The world in which the primary wait starts, when everything up to
    [Continue] succeeded. *)
Definition at_primary_wait (iCorProcess : ICorDebugProcess)
    (pThread : ICorDebugThread) (w : World) : World :=
  armed pThread
    (record [call_CreateEval]
       (SetDebugState_all (snd (GetID pThread)) THREAD_SUSPEND
          (at_WaitResult iCorProcess w))).

End Vocabulary.

(** ** Sample handles and worlds

    Concrete answers of the engine, used where a statement is evaluated on an
    input. *)

Definition sample_process : ICorDebugProcess :=
  {| Stop := 0; Continue := 0; EnumerateThreads := 0;
     QueryInterface_ICorDebugProcess3 := 0;
     Process3_SetEnableCustomNotification := fun _ => 0 |}.

(** An evaluation whose [GetResult] answers [st] with value handle 42;
    [Abort] answers [ab], [RudeAbort] answers [rude]. *)
Definition sample_eval (st ab rude : HRESULT) : ICorDebugEval :=
  {| eval_id := 1; Abort := ab; QueryInterface_ICorDebugEval2 := 0;
     RudeAbort := rude; GetResult := (st, Some 42%nat) |}.

(** A thread with id [tid]; [CreateEval] answers [ce]. *)
Definition sample_thread (tid : DWORD) (ce : HRESULT) : ICorDebugThread :=
  {| GetProcess := (0, Some sample_process); GetID := (0, tid);
     CreateEval := (ce, sample_eval 0 0 0); SetDebugState := fun _ => 0 |}.

(** No request armed; threads 7 and 9 both running. *)
Definition idle_world : World :=
  {| m_evalResult := None; m_evalCanceled := false;
     m_evalCrossThreadDependency := false; evalTimeOut := false;
     shared := [];
     threads := [(sample_thread 7 0, THREAD_RUN);
                 (sample_thread 9 0, THREAD_RUN)];
     customNotification := false; calls := [] |}.

(** A request armed for thread 7 on an evaluation whose [Abort] answers [ab]
    and whose [RudeAbort] answers [rude]; its promise is not fulfilled. *)
Definition sample_request (ab rude : HRESULT) : evalResult_t :=
  {| threadId := 7; pEval := sample_eval 0 ab rude; promiseValue := 0 |}.

(** That request armed, thread 9 suspended, the notification on. *)
Definition armed_world (ab rude : HRESULT) : World :=
  {| m_evalResult := Some (sample_request ab rude); m_evalCanceled := false;
     m_evalCrossThreadDependency := false; evalTimeOut := false;
     shared := [NotReady];
     threads := [(sample_thread 7 0, THREAD_RUN);
                 (sample_thread 9 0, THREAD_SUSPEND)];
     customNotification := true; calls := [] |}.

(** The two builds: with [NDEBUG] (assertions compiled out) and without. *)
Definition release_build : Headers := corerror true.
Definition debug_build : Headers := corerror false.

(** [CORDBG_S_FUNC_EVAL_ABORTED], by its value. *)
Definition ABORTED : HRESULT := @CORDBG_S_FUNC_EVAL_ABORTED release_build.

(** The completion callback for thread 7 with an evaluation whose
    [GetResult] answers [st]. *)
Definition completion (st : HRESULT) : Callback :=
  cb_NotifyEvalComplete (Some (sample_thread 7 0)) (Some (sample_eval st 0 0)).

(** The completion arrives during the primary wait. *)
Definition env_completed (st : HRESULT) : Environment :=
  {| primary_window := [completion st]; grace_window := [];
     fatal_window := [] |}.

(** The user cancels, then the aborted evaluation completes, all during the
    primary wait. *)
Definition env_canceled : Environment :=
  {| primary_window := [cb_CancelEvalRunning; completion ABORTED];
     grace_window := []; fatal_window := [] |}.

(** The user cancels during the primary wait; the aborted evaluation
    completes only during the second wait. *)
Definition env_canceled_late : Environment :=
  {| primary_window := [cb_CancelEvalRunning];
     grace_window := [completion ABORTED]; fatal_window := [] |}.

(** Nothing arrives. *)
Definition env_silent : Environment :=
  {| primary_window := []; grace_window := []; fatal_window := [] |}.

(** ** SetupCrossThreadDependencyNotificationClass

    The member [m_iCorCrossThreadDependencyNotification] is read by no other
    function than [SetEnableCustomNotification], which hands it to the
    engine; the function that sets it is modelled on that member alone. *)

Definition mdTypeDef := Z.
Definition ICorDebugClass := nat.

(** [IMetaDataImport::FindTypeDefByName(name, enclosing, &td)]: the status
    and the value of the caller's token variable after the call. *)
Record IMetaDataImport := {
  FindTypeDefByName : String.string -> mdTypeDef -> HRESULT * mdTypeDef
}.

(** The [IUnknown] that [GetMetaDataInterface] gives, queried for
    [IMetaDataImport]. *)
Record IUnknown_metadata := {
  QueryInterface_IMetaDataImport : HRESULT * IMetaDataImport
}.

(** [ICorDebugModule].  [GetClassFromToken] gives the status and the class
    pointer found in the out-parameter, which was null before the call. *)
Record ICorDebugModule := {
  GetMetaDataInterface : HRESULT * IUnknown_metadata;
  GetClassFromToken : mdTypeDef -> HRESULT * option ICorDebugClass
}.

Section NotificationClass.

(** [mdTypeDefNil] of corhdr.h. *)
Variable mdTypeDefNil : mdTypeDef.

Local Open Scope string_scope.

Definition strParentTypeDef : String.string := "System.Diagnostics.Debugger".
Definition strTypeDef : String.string := "CrossThreadDependencyNotification".

(** The status, the member after the call, and the class handles released
    by [Free()]. *)
Definition SetupCrossThreadDependencyNotificationClass
    (pModule : ICorDebugModule)
    (m_iCorCrossThreadDependencyNotification : option ICorDebugClass)
    : HRESULT * option ICorDebugClass * list ICorDebugClass :=
  let keep hr := (hr, m_iCorCrossThreadDependencyNotification, []) in
  if FAILED (fst (GetMetaDataInterface pModule))
  then keep (fst (GetMetaDataInterface pModule))
  else
    let pMDUnknown := snd (GetMetaDataInterface pModule) in
    if FAILED (fst (QueryInterface_IMetaDataImport pMDUnknown))
    then keep (fst (QueryInterface_IMetaDataImport pMDUnknown))
    else
      let pMD := snd (QueryInterface_IMetaDataImport pMDUnknown) in
      let parent := FindTypeDefByName pMD strParentTypeDef mdTypeDefNil in
      if FAILED (fst parent) then keep (fst parent)
      else
        let typeDefParent := snd parent in
        let nested := FindTypeDefByName pMD strTypeDef typeDefParent in
        if FAILED (fst nested) then keep (fst nested)
        else
          let typeDef := snd nested in
          (* m_iCorCrossThreadDependencyNotification.Free(); *)
          let released :=
            match m_iCorCrossThreadDependencyNotification with
            | Some c => [c]
            | None => []
            end in
          (fst (GetClassFromToken pModule typeDef),
           snd (GetClassFromToken pModule typeDef), released).

End NotificationClass.

(** ** Vocabulary of the further statements *)

(** What no callback does, whatever the world it runs in: it does not arm
    the slot, does not take a flag back, does not touch a shared state that
    is ready, the threads, the notification switch or [evalTimeOut]. *)
Record callback_never (w w' : World) : Prop := {
  cn_slot : m_evalResult w' = m_evalResult w \/ m_evalResult w' = None;
  cn_canceled : m_evalCanceled w = true -> m_evalCanceled w' = true;
  cn_crossThread : m_evalCrossThreadDependency w = true ->
                   m_evalCrossThreadDependency w' = true;
  cn_ready : forall p s, nth_error (shared w) p = Some s -> s <> NotReady ->
                         nth_error (shared w') p = Some s;
  cn_length : length (shared w') = length (shared w);
  cn_evalTimeOut : evalTimeOut w' = evalTimeOut w;
  cn_threads : threads w' = threads w;
  cn_customNotification : customNotification w' = customNotification w
}.

(** The part of the engine's state that only [ChangeThreadsState] and
    [SetEnableCustomNotification] act upon, between the suspension of the
    threads and the last two steps of [WaitEvalResult]: the switch is as it
    was, and the threads are as they were or have been asked to run. *)
Definition cleanup_frame (evalThreadId : DWORD) (w w' : World) : Prop :=
  customNotification w' = customNotification w /\
  (threads w' = threads w \/
   threads w' = map (SetDebugState_one evalThreadId THREAD_RUN) (threads w)).

(** A computation whose final world is related to its initial one. *)
Definition keeps {A} (P : World -> World -> Prop) (m : M A) : Prop :=
  forall w, P w (snd (m w)).

(** The reset: [NotifyEvalComplete] with a null thread. *)
Definition is_reset (cb : Callback) : bool :=
  match cb with
  | cb_NotifyEvalComplete None _ => true
  | _ => false
  end.

(** The engine calls of [WaitEvalResult] up to and including [CreateEval],
    and those of its last two steps, for the threads [ths] at entry. *)
Definition calls_before_RunEval (iCorProcess : ICorDebugProcess)
    (evalThreadId : DWORD)
    (ths : list (ICorDebugThread * CorDebugThreadState)) : list Call :=
  notification_calls iCorProcess true
  ++ flat_map (SetDebugState_call evalThreadId THREAD_SUSPEND) ths
  ++ [call_CreateEval].

Definition calls_of_cleanup (iCorProcess : ICorDebugProcess)
    (evalThreadId : DWORD)
    (ths : list (ICorDebugThread * CorDebugThreadState)) : list Call :=
  notification_calls iCorProcess false
  ++ flat_map (SetDebugState_call evalThreadId THREAD_RUN) ths.

(** The promise of one evaluation: the shared states are those of [before]
    and one more, which is resolved once the slot is empty and is the
    promise of the request while one is armed. *)
Definition one_promise (before : list shared_state) (w : World) : Prop :=
  exists s, shared w = before ++ [s] /\
            (m_evalResult w = None -> s <> NotReady) /\
            (forall r, m_evalResult w = Some r ->
                       promiseValue r = length before).

(** An invariant is kept from [w] to [w']. *)
Definition preserves (I : World -> Prop) (w w' : World) : Prop := I w -> I w'.

(** The [wait_for] calls of a log: their arguments, in order. *)
Fixpoint waits (l : list Call) : list Z :=
  match l with
  | [] => []
  | call_wait_for ms :: l' => ms :: waits l'
  | _ :: l' => waits l'
  end.

(** An abort attempt on [e] succeeds: [Abort], or after its failure
    [RudeAbort] on the [ICorDebugEval2] obtained. *)
Definition abort_succeeds (e : ICorDebugEval) : bool :=
  SUCCEEDED (Abort e)
  || (SUCCEEDED (QueryInterface_ICorDebugEval2 e) && SUCCEEDED (RudeAbort e)).

(** The custom notification of a thread whose id can be read and is
    [tid]. *)
Definition notifies (tid : DWORD) (cb : Callback) : bool :=
  match cb with
  | cb_CustomNotification t =>
      negb (FAILED (fst (GetID t))) && (tid =? snd (GetID t))
  | _ => false
  end.

(** The world in which [RunEval] calls the setup callback, when
    [WaitEvalResult] was entered in [w] with the slot empty. *)
Definition at_setup_callback (iCorProcess : ICorDebugProcess)
    (pThread : ICorDebugThread) (w : World) : World :=
  let w0 := record [call_CreateEval]
              (SetDebugState_all (snd (GetID pThread)) THREAD_SUSPEND
                 (at_WaitResult iCorProcess w)) in
  record [call_cbSetupEval (eval_id (snd (CreateEval pThread)))]
    (set_evalResult (Some (armed_request pThread w0))
       (set_shared (shared w0 ++ [NotReady]) w0)).

(** The two callbacks that set a flag. *)
Definition is_cancel (cb : Callback) : bool :=
  match cb with cb_CancelEvalRunning => true | _ => false end.


(** The engine calls of a callback that finds no request armed. *)
Definition idle_calls (cb : Callback) : list Call :=
  match cb with
  | cb_NotifyEvalComplete (Some _) pEval => GetResult_calls pEval
  | _ => []
  end.

(** A world with other values of the three flags. *)
Definition with_flags (canceled crossThread timedOut : bool) (w : World)
    : World :=
  set_evalCanceled canceled
    (set_evalCrossThreadDependency crossThread (set_evalTimeOut timedOut w)).

(** A sample module: the debugger type has token 17, the notification type
    nested in it token 18, and the class of token 18 is class 5. *)
Definition sample_metadata : IMetaDataImport :=
  {| FindTypeDefByName := fun name enclosing =>
       if (String.eqb name strParentTypeDef && (enclosing =? 0))%bool
       then (0, 17)
       else if (String.eqb name strTypeDef && (enclosing =? 17))%bool
            then (0, 18)
            else (-1, 0) |}.

Definition sample_module : ICorDebugModule :=
  {| GetMetaDataInterface :=
       (0, {| QueryInterface_IMetaDataImport := (0, sample_metadata) |});
     GetClassFromToken := fun td =>
       if td =? 18 then (0, Some 5%nat) else (-1, None) |}.

(** A module without the notification type. *)
Definition sample_module_without : ICorDebugModule :=
  {| GetMetaDataInterface :=
       (0, {| QueryInterface_IMetaDataImport :=
                (0, {| FindTypeDefByName := fun _ _ => (-1, 0) |}) |});
     GetClassFromToken := fun _ => (-1, None) |}.


(** A process whose [Continue] fails with [hr]. *)
Definition sample_process_stuck (hr : HRESULT) : ICorDebugProcess :=
  {| Stop := 0; Continue := hr; EnumerateThreads := 0;
     QueryInterface_ICorDebugProcess3 := 0;
     Process3_SetEnableCustomNotification := fun _ => 0 |}.

(** A thread with id [tid] of the process [proc]. *)
Definition sample_thread_in (proc : ICorDebugProcess) (tid : DWORD)
    : ICorDebugThread :=
  {| GetProcess := (0, Some proc); GetID := (0, tid);
     CreateEval := (0, sample_eval 0 0 0); SetDebugState := fun _ => 0 |}.



(** A process whose thread enumeration fails. *)
Definition sample_process_gone : ICorDebugProcess :=
  {| Stop := 0; Continue := 0; EnumerateThreads := -1;
     QueryInterface_ICorDebugProcess3 := 0;
     Process3_SetEnableCustomNotification := fun _ => 0 |}.


Definition setup_raises : WaitEvalResultCallback := fun _ => Raises.



(** The user cancels, the notification of thread 7 arrives, then the
    aborted evaluation completes, all during the primary wait. *)
Definition env_canceled_and_notified : Environment :=
  {| primary_window := [cb_CancelEvalRunning;
                        cb_CustomNotification (sample_thread 7 0);
                        completion ABORTED];
     grace_window := []; fatal_window := [] |}.


(** A process that accepts enabling the notification and rejects disabling
    it. *)
Definition sample_process_sticky : ICorDebugProcess :=
  {| Stop := 0; Continue := 0; EnumerateThreads := 0;
     QueryInterface_ICorDebugProcess3 := 0;
     Process3_SetEnableCustomNotification :=
       fun fEnable => if fEnable then 0 else -1 |}.

(** * Properties *)

Section Properties.

Context {headers : Headers}.

Ltac unfold_M := unfold bind, act, ret, try_catch in *.

Lemma SUCCEEDED_not_FAILED (hr : HRESULT) : SUCCEEDED hr = negb (FAILED hr).
Proof. unfold SUCCEEDED, FAILED. apply Z.leb_antisym. Qed.

Lemma record_nil (w : World) : record [] w = w.
Proof. destruct w; unfold record; simpl. now rewrite app_nil_r. Qed.

Lemma evalTimeOut_record l w : evalTimeOut (record l w) = evalTimeOut w.
Proof. reflexivity. Qed.

Lemma calls_record l w : calls (record l w) = calls w ++ l.
Proof. reflexivity. Qed.

(** *** Updating one shared state *)

Lemma nth_error_list_set_eq {A} (l : list A) n x y :
  nth_error l n = Some y -> nth_error (list_set n x l) n = Some x.
Proof.
  revert n; induction l as [|a l IH]; intros [|n] Hn; simpl in *;
    try discriminate; auto.
Qed.

Lemma nth_error_list_set_neq {A} (l : list A) n m x :
  n <> m -> nth_error (list_set n x l) m = nth_error l m.
Proof.
  revert n m; induction l as [|a l IH]; intros [|n] [|m] Hnm; simpl;
    try reflexivity; try congruence.
  apply IH; congruence.
Qed.

Lemma length_list_set {A} (l : list A) n x :
  length (list_set n x l) = length l.
Proof.
  revert n; induction l as [|a l IH]; intros [|n]; simpl; auto.
Qed.

Lemma nth_error_fresh {A} (l : list A) x :
  nth_error (l ++ [x]) (length l) = Some x.
Proof. induction l; simpl; auto. Qed.


(** *** NotifyEvalComplete *)

Lemma evalResult_reset_slot x w : m_evalResult (evalResult_reset x w) = x.
Proof. reflexivity. Qed.

Lemma promise_destroy_pending p w :
  nth_error (shared w) p = Some NotReady ->
  nth_error (shared (promise_destroy p w)) p = Some BrokenPromise.
Proof.
  intros Hp. unfold promise_destroy. rewrite Hp. simpl.
  eapply nth_error_list_set_eq; eauto.
Qed.

Lemma NotifyEvalComplete_null_thread pEval w :
  NotifyEvalComplete None pEval w = (Returns tt, evalResult_reset None w).
Proof. reflexivity. Qed.

Lemma NotifyEvalComplete_foreign thread pEval w :
  (forall r, m_evalResult w = Some r -> threadId r <> snd (GetID thread)) ->
  NotifyEvalComplete (Some thread) pEval w
  = (Returns tt, record (GetResult_calls pEval) w).
Proof.
  intros Hf. unfold NotifyEvalComplete. unfold_M. simpl.
  destruct (m_evalResult w) as [r|] eqn:Hr; auto.
  specialize (Hf r eq_refl).
  destruct (threadId r =? snd (GetID thread)) eqn:E; simpl; auto.
  apply Z.eqb_eq in E. contradiction.
Qed.

Lemma NotifyEvalComplete_matching thread pEval w r :
  m_evalResult w = Some r ->
  threadId r = snd (GetID thread) ->
  nth_error (shared w) (promiseValue r) = Some NotReady ->
  NotifyEvalComplete (Some thread) pEval w
  = (Returns tt,
     set_evalResult None
       (set_shared (list_set (promiseValue r) (HasValue (delivered pEval))
                      (shared w))
          (record (GetResult_calls pEval) w))).
Proof.
  intros Hr Ht Hp. unfold NotifyEvalComplete. unfold_M. simpl.
  rewrite Hr, Ht, Z.eqb_refl. simpl.
  unfold promise_set_value. simpl. rewrite Hp.
  unfold evalResult_reset. simpl. f_equal. f_equal.
  unfold promise_destroy. simpl. rewrite Hr.
  erewrite nth_error_list_set_eq by eauto. reflexivity.
Qed.

(** C6.  The dispatch of [NotifyEvalComplete]: (1) with a null thread the
    slot is cleared and a promise that was still unfulfilled is abandoned
    (broken), not fulfilled; (2) with a thread whose id is not the owner's,
    or with no request armed, nothing but the [GetResult] call happens: the
    slot, the flags and every shared state stay as they are; (3) with the
    owner's id the promise receives the delivered outcome and the slot is
    cleared; (4) a promise is fulfilled by no other call than one of kind
    (3); (5) after the slot has been reset, a completion is dropped. *)
Theorem NotifyEvalComplete_dispatch :
  (forall pEval w,
     exists w', NotifyEvalComplete None pEval w = (Returns tt, w') /\
       m_evalResult w' = None /\
       (forall r, m_evalResult w = Some r ->
          nth_error (shared w) (promiseValue r) = Some NotReady ->
          nth_error (shared w') (promiseValue r) = Some BrokenPromise)) /\
  (forall thread pEval w,
     (forall r, m_evalResult w = Some r -> threadId r <> snd (GetID thread)) ->
     exists w', NotifyEvalComplete (Some thread) pEval w = (Returns tt, w') /\
       w' = record (GetResult_calls pEval) w /\
       m_evalResult w' = m_evalResult w /\ shared w' = shared w /\
       m_evalCanceled w' = m_evalCanceled w /\
       m_evalCrossThreadDependency w' = m_evalCrossThreadDependency w) /\
  (forall thread pEval w r,
     m_evalResult w = Some r ->
     threadId r = snd (GetID thread) ->
     nth_error (shared w) (promiseValue r) = Some NotReady ->
     exists w', NotifyEvalComplete (Some thread) pEval w = (Returns tt, w') /\
       m_evalResult w' = None /\
       nth_error (shared w') (promiseValue r)
       = Some (HasValue (delivered pEval))) /\
  (forall pThread pEval w o w' p v,
     NotifyEvalComplete pThread pEval w = (o, w') ->
     nth_error (shared w) p = Some NotReady ->
     nth_error (shared w') p = Some (HasValue v) ->
     exists thread r, pThread = Some thread /\ m_evalResult w = Some r /\
       threadId r = snd (GetID thread) /\ p = promiseValue r /\
       v = delivered pEval) /\
  (forall thread pEval w,
     NotifyEvalComplete (Some thread) pEval (evalResult_reset None w)
     = (Returns tt, record (GetResult_calls pEval) (evalResult_reset None w))).
Proof.
  split; [|split; [|split; [|split]]].
  - intros pEval w. exists (evalResult_reset None w). repeat split.
    intros r Hr Hp. unfold evalResult_reset. rewrite Hr. simpl.
    now apply promise_destroy_pending.
  - intros thread pEval w Hf. eexists.
    split; [apply NotifyEvalComplete_foreign; exact Hf|]. repeat split.
  - intros thread pEval w r Hr Ht Hp. eexists.
    split; [exact (NotifyEvalComplete_matching thread pEval w r Hr Ht Hp)|].
    split; [reflexivity|]. simpl. eapply nth_error_list_set_eq; eauto.
  - intros pThread pEval w o w' p v H Hp0 Hp1.
    destruct pThread as [thread|].
    + unfold NotifyEvalComplete in H. unfold_M. simpl in H.
      destruct (m_evalResult w) as [r|] eqn:Hr.
      * destruct (threadId r =? snd (GetID thread)) eqn:E; simpl in H.
        -- unfold promise_set_value in H. simpl in H.
           destruct (nth_error (shared w) (promiseValue r)) as [[| |]|] eqn:Hp;
             inversion H; subst; simpl in *; try congruence.
           unfold promise_destroy in Hp1. simpl in Hp1. rewrite Hr in Hp1.
           erewrite nth_error_list_set_eq in Hp1 by eauto. simpl in Hp1.
           destruct (Nat.eq_dec (promiseValue r) p) as [<-|Hne].
           ++ erewrite nth_error_list_set_eq in Hp1 by eauto.
              inversion Hp1; subst. exists thread, r.
              apply Z.eqb_eq in E. auto.
           ++ rewrite nth_error_list_set_neq in Hp1 by auto. congruence.
        -- inversion H; subst; simpl in *. congruence.
      * inversion H; subst; simpl in *. congruence.
    + inversion H; subst. unfold evalResult_reset in Hp1.
      destruct (m_evalResult w) as [r|]; simpl in Hp1; [|congruence].
      unfold promise_destroy in Hp1.
      destruct (nth_error (shared w) (promiseValue r)) as [[| |]|] eqn:Hp;
        simpl in Hp1; try congruence.
      destruct (Nat.eq_dec (promiseValue r) p) as [<-|Hne].
      * erewrite nth_error_list_set_eq in Hp1 by eauto. discriminate.
      * rewrite nth_error_list_set_neq in Hp1 by auto. congruence.
  - intros thread pEval w.
    apply NotifyEvalComplete_foreign. simpl. discriminate.
Qed.

(** C10.  A completion for the owner's thread id that carries a null
    evaluation handle is a completion: the promise is fulfilled and the slot
    cleared; the outcome delivered has the status every fresh
    [evalResultData_t] has and no value handle, and no engine call is made
    to obtain it.  The reset (clear without fulfilling, which breaks the
    promise) is what the same world gets from a null thread. *)
Theorem NotifyEvalComplete_null_eval_is_completion :
  forall thread w r,
    m_evalResult w = Some r ->
    threadId r = snd (GetID thread) ->
    nth_error (shared w) (promiseValue r) = Some NotReady ->
    (exists w',
       NotifyEvalComplete (Some thread) None w = (Returns tt, w') /\
       m_evalResult w' = None /\
       nth_error (shared w') (promiseValue r)
       = Some (HasValue {| iCorEval := None;
                           Status := evalResultData_Status_init |}) /\
       calls w' = calls w) /\
    (forall pEval, exists w'',
       NotifyEvalComplete None pEval w = (Returns tt, w'') /\
       m_evalResult w'' = None /\
       nth_error (shared w'') (promiseValue r) = Some BrokenPromise).
Proof.
  intros thread w r Hr Ht Hp. split.
  - eexists. split; [exact (NotifyEvalComplete_matching thread None w r Hr Ht Hp)|].
    simpl. repeat split.
    + eapply nth_error_list_set_eq; eauto.
    + apply app_nil_r.
  - intros pEval. exists (evalResult_reset None w). repeat split.
    unfold evalResult_reset. rewrite Hr. simpl.
    now apply promise_destroy_pending.
Qed.

(** *** FindEvalForThread and the custom notification *)

Lemma FindEvalForThread_Some pThread w e :
  FindEvalForThread pThread w = Some e <->
  FAILED (fst (GetID pThread)) = false /\
  exists r, m_evalResult w = Some r /\ threadId r = snd (GetID pThread) /\
            e = pEval r.
Proof.
  unfold FindEvalForThread.
  destruct (FAILED (fst (GetID pThread))); [split; [discriminate|intros [? _]; discriminate]|].
  destruct (m_evalResult w) as [r|].
  - destruct (threadId r =? snd (GetID pThread)) eqn:E.
    + apply Z.eqb_eq in E. split.
      * intros H; inversion H; subst. eauto.
      * intros [_ (r' & Hr & _ & ->)]. inversion Hr; subst. reflexivity.
    + apply Z.eqb_neq in E. split; [discriminate|].
      intros [_ (r' & Hr & Ht & _)]. inversion Hr; subst. contradiction.
  - split; [discriminate|]. intros [_ (r' & Hr & _)]. discriminate.
Qed.


(** *** The translation of the aborted status *)


(** *** Callbacks while a request is in flight *)

Lemma GetResult_calls_callback pEval :
  forallb callback_call (GetResult_calls pEval) = true.
Proof. destruct pEval; reflexivity. Qed.

Lemma abort_calls_callback e : forallb callback_call (abort_calls e) = true.
Proof.
  unfold abort_calls.
  destruct (SUCCEEDED (Abort e)), (SUCCEEDED (QueryInterface_ICorDebugEval2 e));
    reflexivity.
Qed.

Lemma callback_frame_refl f w : in_flight f w -> callback_frame f w w.
Proof.
  intros H. split; auto. exists []. now rewrite app_nil_r.
Qed.

Lemma callback_frame_trans f w1 w2 w3 :
  callback_frame f w1 w2 -> callback_frame f w2 w3 -> callback_frame f w1 w3.
Proof.
  intros [I1 T1 H1 N1 (l1 & C1 & L1) S1 D1] [I2 T2 H2 N2 (l2 & C2 & L2) S2 D2].
  split; try congruence.
  - exists (l1 ++ l2). rewrite C2, C1, app_assoc, forallb_app, L1, L2. auto.
  - intros s Hs Hn. apply S2; auto.
  - intros Hi. destruct (D1 Hi) as (A & B & C & D).
    destruct (D2 A) as (A' & B' & C' & D'). repeat split; congruence.
Qed.

Lemma in_flight_record f l w : in_flight f w -> in_flight f (record l w).
Proof. intros H; exact H. Qed.

Ltac frame_tac :=
  split; simpl; auto;
  try solve [ left; auto | right; eauto | intros; congruence
            | exists []; now rewrite app_nil_r
            | eexists; split;
              [ reflexivity
              | auto using GetResult_calls_callback, abort_calls_callback ] ].

Lemma NotifyEvalComplete_frame f pThread pEval w :
  in_flight f w ->
  exists w', NotifyEvalComplete pThread pEval w = (Returns tt, w') /\
             callback_frame f w w'.
Proof.
  intros Hw. destruct pThread as [thread|].
  - destruct Hw as [Hi | (r & Hr & Hf & Hp)].
    + eexists. split.
      * apply NotifyEvalComplete_foreign. rewrite Hi. discriminate.
      * frame_tac.
    + destruct (threadId r =? snd (GetID thread)) eqn:E.
      * apply Z.eqb_eq in E. subst f. eexists. split.
        -- exact (NotifyEvalComplete_matching thread pEval w r Hr E Hp).
        -- frame_tac.
      * apply Z.eqb_neq in E. eexists. split.
        -- apply NotifyEvalComplete_foreign. intros r' Hr'. congruence.
        -- frame_tac.
  - exists (evalResult_reset None w). split; [reflexivity|].
    unfold evalResult_reset.
    destruct Hw as [Hi | (r & Hr & Hf & Hp)].
    + rewrite Hi. frame_tac.
    + rewrite Hr. unfold promise_destroy. subst f. rewrite Hp. frame_tac.
Qed.

Lemma CancelEvalRunning_frame f w :
  in_flight f w -> callback_frame f w (CancelEvalRunning w).
Proof.
  intros Hw. unfold CancelEvalRunning.
  destruct (m_evalResult w) as [r|] eqn:Hr; [|now apply callback_frame_refl].
  destruct (_ || _); frame_tac.
Qed.

Lemma ManagedCallbackCustomNotification_frame f pThread w :
  in_flight f w ->
  callback_frame f w (snd (ManagedCallbackCustomNotification pThread w)).
Proof.
  intros Hw. unfold ManagedCallbackCustomNotification.
  destruct (FindEvalForThread pThread w) as [e|] eqn:He;
    [|now apply callback_frame_refl].
  apply FindEvalForThread_Some in He. destruct He as (_ & r & Hr & _).
  destruct (FAILED (Abort e)), (FAILED (QueryInterface_ICorDebugEval2 e)),
    (FAILED (RudeAbort e)); frame_tac.
Qed.

Lemma run_callback_frame f cb w :
  in_flight f w ->
  exists w', run_callback cb w = (Returns tt, w') /\ callback_frame f w w'.
Proof.
  intros Hw. destruct cb as [pThread pEval| |pThread]; simpl.
  - destruct (NotifyEvalComplete_frame f pThread pEval w Hw) as (w' & E & F).
    rewrite E. eauto.
  - eexists. split; [reflexivity|]. now apply CancelEvalRunning_frame.
  - eexists. split; [reflexivity|].
    now apply ManagedCallbackCustomNotification_frame.
Qed.

Lemma run_callbacks_frame f cbs w :
  in_flight f w ->
  exists w', run_callbacks cbs w = (Returns tt, w') /\ callback_frame f w w'.
Proof.
  revert w. induction cbs as [|cb cbs IH]; intros w Hw; simpl.
  - eexists. split; [reflexivity|]. now apply callback_frame_refl.
  - destruct (run_callback_frame f cb w Hw) as (w1 & E1 & F1).
    destruct (IH w1 (cf_in_flight _ _ _ F1)) as (w2 & E2 & F2).
    exists w2. unfold bind. rewrite E1. split; [exact E2|].
    eapply callback_frame_trans; eauto.
Qed.

Lemma run_callbacks_app cbs1 cbs2 w :
  run_callbacks (cbs1 ++ cbs2) w
  = (run_callbacks cbs1 ;; run_callbacks cbs2) w.
Proof.
  revert w. induction cbs1 as [|cb cbs1 IH]; intros w; simpl.
  - reflexivity.
  - unfold bind in *. destruct (run_callback cb w) as [[[]|e| |] w1]; auto.
Qed.

(** Foreign callbacks leave the request armed and its promise untouched. *)
Lemma run_callback_foreign cb w r :
  m_evalResult w = Some r ->
  foreign (threadId r) cb = true ->
  exists w', run_callback cb w = (Returns tt, w') /\
             m_evalResult w' = Some r /\ shared w' = shared w.
Proof.
  intros Hr Hf. destruct cb as [[thread|] pEval| |pThread];
    unfold run_callback; simpl in Hf.
  - rewrite NotifyEvalComplete_foreign.
    + eexists. split; [reflexivity|]. auto.
    + intros r' Hr' E. rewrite Hr in Hr'. inversion Hr'; subst r'.
      rewrite E, Z.eqb_refl in Hf. discriminate.
  - discriminate.
  - eexists. split; [reflexivity|]. unfold CancelEvalRunning. rewrite Hr.
    destruct (_ || _); auto.
  - eexists. split; [reflexivity|]. simpl.
    unfold ManagedCallbackCustomNotification.
    destruct (FindEvalForThread pThread w) as [e|]; auto.
    destruct (FAILED (Abort e)), (FAILED (QueryInterface_ICorDebugEval2 e)),
      (FAILED (RudeAbort e)); auto.
Qed.

Lemma run_callbacks_foreign cbs w r :
  m_evalResult w = Some r ->
  forallb (foreign (threadId r)) cbs = true ->
  exists w', run_callbacks cbs w = (Returns tt, w') /\
             m_evalResult w' = Some r /\ shared w' = shared w.
Proof.
  revert w. induction cbs as [|cb cbs IH]; intros w Hr Hf; simpl in *.
  - exists w. repeat split. exact Hr.
  - apply andb_prop in Hf. destruct Hf as [Hcb Hcbs].
    destruct (run_callback_foreign cb w r Hr Hcb) as (w1 & E1 & R1 & S1).
    destruct (IH w1 R1 Hcbs) as (w2 & E2 & R2 & S2).
    exists w2. unfold bind. rewrite E1. repeat split; congruence.
Qed.

(** *** Waiting on the future *)

Lemma in_flight_armed f w r :
  m_evalResult w = Some r -> promiseValue r = f ->
  nth_error (shared w) f = Some NotReady -> in_flight f w.
Proof. intros; right; eauto. Qed.

Lemma future_wait_for_frame f ms window w :
  in_flight f w ->
  exists w', future_wait_for f ms window w = (Returns (future_poll f w'), w') /\
             callback_frame f (record [call_wait_for ms] w) w'.
Proof.
  intros Hw. unfold future_wait_for. unfold_M.
  destruct (run_callbacks_frame f window (record [call_wait_for ms] w))
    as (w' & E & F); [exact Hw|].
  rewrite E. eauto.
Qed.

(** A wait during which only foreign callbacks arrive times out, with the
    request still armed. *)
Lemma future_wait_for_foreign ms window w r :
  m_evalResult w = Some r ->
  nth_error (shared w) (promiseValue r) = Some NotReady ->
  forallb (foreign (threadId r)) window = true ->
  exists w', future_wait_for (promiseValue r) ms window w
             = (Returns timeout, w') /\
             m_evalResult w' = Some r /\ shared w' = shared w /\
             callback_frame (promiseValue r) (record [call_wait_for ms] w) w'.
Proof.
  intros Hr Hp Hf.
  destruct (future_wait_for_frame (promiseValue r) ms window w)
    as (w' & E & F); [eapply in_flight_armed; eauto|].
  destruct (run_callbacks_foreign window (record [call_wait_for ms] w) r Hr Hf)
    as (w'' & E' & R' & S').
  assert (w'' = w').
  { unfold future_wait_for in E. unfold_M. rewrite E' in E. congruence. }
  subst w''. exists w'. rewrite E. unfold future_poll.
  rewrite S'. simpl. rewrite Hp. auto.
Qed.

(** A wait during which, after foreign callbacks, the completion for the
    owner's thread id arrives finds the future ready with the outcome
    delivered. *)
Lemma future_wait_for_completed ms cbs thread pEval rest w r :
  m_evalResult w = Some r ->
  nth_error (shared w) (promiseValue r) = Some NotReady ->
  forallb (foreign (threadId r)) cbs = true ->
  snd (GetID thread) = threadId r ->
  exists w',
    future_wait_for (promiseValue r) ms
      (cbs ++ cb_NotifyEvalComplete (Some thread) pEval :: rest) w
    = (Returns ready, w') /\
    m_evalResult w' = None /\
    nth_error (shared w') (promiseValue r)
    = Some (HasValue (delivered pEval)) /\
    callback_frame (promiseValue r) (record [call_wait_for ms] w) w'.
Proof.
  intros Hr Hp Hf Ht. set (f := promiseValue r).
  destruct (future_wait_for_frame f ms
              (cbs ++ cb_NotifyEvalComplete (Some thread) pEval :: rest) w)
    as (w' & E & F); [eapply in_flight_armed; eauto|].
  exists w'.
  assert (m_evalResult w' = None /\
          nth_error (shared w') f = Some (HasValue (delivered pEval)))
    as [Hn Hv].
  { unfold future_wait_for in E. unfold_M.
    rewrite run_callbacks_app in E. unfold bind in E.
    destruct (run_callbacks_foreign cbs (record [call_wait_for ms] w) r Hr Hf)
      as (w1 & E1 & R1 & S1).
    rewrite E1 in E. cbn [run_callbacks run_callback] in E.
    unfold bind at 1 in E.
    assert (Hp1 : nth_error (shared w1) (promiseValue r) = Some NotReady)
      by (rewrite S1; exact Hp).
    rewrite (NotifyEvalComplete_matching thread pEval w1 r R1 (eq_sym Ht) Hp1)
      in E.
    match type of E with
    | context [run_callbacks rest ?w2] =>
        destruct (run_callbacks_frame f rest w2) as (w3 & E3 & F3);
          [left; reflexivity|];
        rewrite E3 in E;
        assert (w3 = w') by congruence; subst w3;
        destruct (cf_idle _ _ _ F3 eq_refl) as (A & B & _);
        split; [exact A|];
        rewrite B; simpl; eapply nth_error_list_set_eq; eauto
    end. }
  rewrite E. unfold future_poll. fold f. rewrite Hv. auto.
Qed.

(** *** RunEval from an empty slot *)

Lemma list_set_last {A} (l : list A) x y :
  list_set (length l) x (l ++ [y]) = l ++ [x].
Proof. induction l; simpl; congruence. Qed.

Lemma RunEval_idle_any pProcess pThread e (cb : WaitEvalResultCallback) w :
  m_evalResult w = None ->
  RunEval pProcess pThread e cb w =
  let f := length (shared w) in
  let r := {| threadId := snd (GetID pThread); pEval := e;
              promiseValue := f |} in
  let wa := record [call_cbSetupEval (eval_id e)]
              (set_evalResult (Some r)
                 (set_shared (shared w ++ [NotReady]) w)) in
  match cb e with
  | Returns st =>
      if FAILED st
      then (Returns (st, f),
            set_evalResult None
              (set_shared (shared w ++ [BrokenPromise]) wa))
      else if FAILED (Continue pProcess)
           then (Returns (Continue pProcess, f),
                 set_evalResult None
                   (set_shared (shared w ++ [BrokenPromise])
                      (record [call_Continue] wa)))
           else (Returns (Continue pProcess, f), record [call_Continue] wa)
  | Throws x => (Throws x, wa)
  | Raises => (Raises, wa)
  | Terminates => (Terminates, wa)
  end.
Proof.
  intros Hi. unfold RunEval, IsEvalRunning. simpl. rewrite Hi.
  rewrite andb_false_r. unfold evalResult_reset. simpl. rewrite Hi. simpl.
  unfold promise_destroy. simpl. rewrite nth_error_fresh. simpl.
  rewrite list_set_last.
  destruct (cb e) as [st|x| |]; reflexivity.
Qed.

Lemma RunEval_idle pProcess pThread e cb w :
  m_evalResult w = None ->
  RunEval pProcess pThread e (returns_status cb) w =
  let f := length (shared w) in
  let r := {| threadId := snd (GetID pThread); pEval := e;
              promiseValue := f |} in
  let wa := record [call_cbSetupEval (eval_id e)]
              (set_evalResult (Some r)
                 (set_shared (shared w ++ [NotReady]) w)) in
  if FAILED (cb e)
  then (Returns (cb e, f),
        set_evalResult None
          (set_shared (shared w ++ [BrokenPromise]) wa))
  else if FAILED (Continue pProcess)
       then (Returns (Continue pProcess, f),
             set_evalResult None
               (set_shared (shared w ++ [BrokenPromise])
                  (record [call_Continue] wa)))
       else (Returns (Continue pProcess, f), record [call_Continue] wa).
Proof. intros Hi. now rewrite (RunEval_idle_any _ _ _ _ _ Hi). Qed.

(** *** ChangeThreadsState *)

Lemma ChangeThreadsState_enumerated iCorProcess tid state w :
  FAILED (EnumerateThreads iCorProcess) = false ->
  ChangeThreadsState iCorProcess tid state w
  = (Returns tt, SetDebugState_all tid state w).
Proof. intros H. unfold ChangeThreadsState. now rewrite H. Qed.

Lemma ChangeThreadsState_null_enumerator iCorProcess tid state w :
  FAILED (EnumerateThreads iCorProcess) = true ->
  ChangeThreadsState iCorProcess tid state w = (Terminates, w).
Proof. intros H. unfold ChangeThreadsState. now rewrite H. Qed.

(** *** The frame of WaitEvalResult around its WaitResult lambda *)

Lemma SetEnableCustomNotification_flags pProcess fEnable w :
  let w' := snd (SetEnableCustomNotification pProcess fEnable w) in
  m_evalResult w' = m_evalResult w /\ shared w' = shared w /\
  m_evalCanceled w' = m_evalCanceled w /\
  m_evalCrossThreadDependency w' = m_evalCrossThreadDependency w /\
  evalTimeOut w' = evalTimeOut w /\ threads w' = threads w.
Proof.
  unfold SetEnableCustomNotification.
  destruct (FAILED _); simpl; [tauto|]. destruct (SUCCEEDED _); simpl; tauto.
Qed.

Lemma WaitEvalResult_unfold pThread ppEvalResult cbSetupEval env w iCorProcess :
  FAILED (fst (GetProcess pThread)) = false ->
  snd (GetProcess pThread) = Some iCorProcess ->
  FAILED (fst (GetID pThread)) = false ->
  FAILED (EnumerateThreads iCorProcess) = false ->
  WaitEvalResult pThread ppEvalResult cbSetupEval env w =
  match WaitResult iCorProcess pThread (snd (GetID pThread)) ppEvalResult
          cbSetupEval env (at_WaitResult iCorProcess w) with
  | (Returns r, w1) =>
      (Returns (final_status (fst r) w1, snd r),
       cleanup iCorProcess (snd (GetID pThread)) w1)
  | (Throws e, w1) => (Throws e, w1)
  | (Raises, w1) => (Raises, w1)
  | (Terminates, w1) => (Terminates, w1)
  end.
Proof.
  intros H1 H2 H3 HE. unfold WaitEvalResult. rewrite H1, H2, H3.
  unfold_M. fold (at_WaitResult iCorProcess w).
  destruct (WaitResult _ _ _ _ _ _ _) as [[r|e| |] w1]; try reflexivity.
  rewrite ChangeThreadsState_enumerated by exact HE.
  unfold cleanup. f_equal. f_equal.
  destruct (SetEnableCustomNotification_flags iCorProcess false w1)
    as (_ & _ & A & B & C & _).
  unfold final_status. now rewrite A, B, C.
Qed.

(** A [WaitResult] that returned has enumerated the threads. *)
Lemma WaitResult_enumerated iCorProcess pThread tid ppEvalResult cb env w x w1 :
  WaitResult iCorProcess pThread tid ppEvalResult cb env w = (Returns x, w1) ->
  FAILED (EnumerateThreads iCorProcess) = false.
Proof.
  unfold WaitResult. unfold bind at 1. unfold ChangeThreadsState.
  destruct (FAILED (EnumerateThreads iCorProcess)); [discriminate|reflexivity].
Qed.

(** C3.  The status [WaitEvalResult] returns is computed from the status
    [raw] its [WaitResult] lambda returned, the two flags and [evalTimeOut]
    as they are at that point: for [raw] the aborted status, the
    cross-thread flag gives [CORDBG_E_CANT_CALL_ON_THIS_THREAD] whatever the
    canceled flag is, else the canceled flag gives
    [COR_E_OPERATIONCANCELED], else the result is [COR_E_TIMEOUT]; for any
    other [raw], a timed-out evaluation reports [COR_E_TIMEOUT] unless [raw]
    is [E_UNEXPECTED], which is kept; otherwise [raw] is returned as it is. *)
Theorem WaitEvalResult_status_translation :
  forall pThread ppEvalResult cbSetupEval env w iCorProcess raw out w1,
    FAILED (fst (GetProcess pThread)) = false ->
    snd (GetProcess pThread) = Some iCorProcess ->
    FAILED (fst (GetID pThread)) = false ->
    WaitResult iCorProcess pThread (snd (GetID pThread)) ppEvalResult
      cbSetupEval env (at_WaitResult iCorProcess w)
    = (Returns (raw, out), w1) ->
    exists status w',
      WaitEvalResult pThread ppEvalResult cbSetupEval env w
      = (Returns (status, out), w') /\
      (raw = CORDBG_S_FUNC_EVAL_ABORTED ->
       (m_evalCrossThreadDependency w1 = true ->
        status = CORDBG_E_CANT_CALL_ON_THIS_THREAD) /\
       (m_evalCrossThreadDependency w1 = false -> m_evalCanceled w1 = true ->
        status = COR_E_OPERATIONCANCELED) /\
       (m_evalCrossThreadDependency w1 = false -> m_evalCanceled w1 = false ->
        status = COR_E_TIMEOUT)) /\
      (raw <> CORDBG_S_FUNC_EVAL_ABORTED ->
       (evalTimeOut w1 = true -> raw <> E_UNEXPECTED ->
        status = COR_E_TIMEOUT) /\
       (evalTimeOut w1 = true -> raw = E_UNEXPECTED ->
        status = E_UNEXPECTED) /\
       (evalTimeOut w1 = false -> status = raw)).
Proof.
  intros pThread pp cb env w proc raw out w1 H1 H2 H3 HW.
  pose proof (WaitResult_enumerated _ _ _ _ _ _ _ _ _ HW) as HE.
  rewrite (WaitEvalResult_unfold _ _ _ _ _ _ H1 H2 H3 HE), HW. simpl.
  do 2 eexists. split; [reflexivity|]. unfold final_status. split.
  - intros ->. rewrite Z.eqb_refl. repeat split.
    + intros ->. reflexivity.
    + intros -> ->. reflexivity.
    + intros -> ->. reflexivity.
  - intros Hne. apply Z.eqb_neq in Hne. rewrite Hne. repeat split.
    + intros -> Hu. apply Z.eqb_neq in Hu. now rewrite Hu.
    + intros -> ->. now rewrite Z.eqb_refl.
    + intros ->. reflexivity.
Qed.

(** *** The two waits, for any callbacks *)

Lemma adds_refl P w : adds P w w.
Proof. exists []. now rewrite app_nil_r. Qed.

Lemma adds_trans P w1 w2 w3 : adds P w1 w2 -> adds P w2 w3 -> adds P w1 w3.
Proof.
  intros (l1 & C1 & L1) (l2 & C2 & L2). exists (l1 ++ l2).
  now rewrite C2, C1, app_assoc, forallb_app, L1, L2.
Qed.

Lemma adds_record P l w : forallb P l = true -> adds P w (record l w).
Proof. intros H. exists l. auto. Qed.

Lemma forallb_weaken (P Q : Call -> bool) l :
  (forall c, P c = true -> Q c = true) ->
  forallb P l = true -> forallb Q l = true.
Proof.
  intros HPQ. induction l as [|c l IH]; simpl; auto.
  intros H. apply andb_prop in H. destruct H as [Hc Hl].
  now rewrite (HPQ c Hc), IH.
Qed.

Lemma callback_call_not_setup c : callback_call c = true -> not_setup c = true.
Proof. destruct c; simpl; congruence. Qed.

Lemma SetDebugState_calls_not_setup tid state ths :
  forallb not_setup (flat_map (SetDebugState_call tid state) ths) = true.
Proof.
  induction ths as [|t ths IH]; simpl; auto.
  rewrite forallb_app, IH, andb_true_r. unfold SetDebugState_call.
  destruct (SUCCEEDED (fst (GetID (fst t))) && _); reflexivity.
Qed.

Lemma abort_calls_not_setup e : forallb not_setup (abort_calls e) = true.
Proof.
  eapply forallb_weaken; [apply callback_call_not_setup|].
  apply abort_calls_callback.
Qed.

Lemma callback_frame_adds f ms w w' :
  callback_frame f (record [call_wait_for ms] w) w' -> adds not_setup w w'.
Proof.
  intros F. destruct (cf_calls _ _ _ F) as (l & C & L).
  exists (call_wait_for ms :: l). simpl in *. rewrite C, <- app_assoc.
  split; [reflexivity|].
  eapply forallb_weaken; [apply callback_call_not_setup|exact L].
Qed.

Lemma in_flight_ext f w w' :
  m_evalResult w' = m_evalResult w -> shared w' = shared w ->
  in_flight f w -> in_flight f w'.
Proof. unfold in_flight. intros -> ->. auto. Qed.

Lemma adds_same P w w' : calls w' = calls w -> adds P w w'.
Proof. intros H. exists []. now rewrite app_nil_r. Qed.

Lemma SetDebugState_all_adds tid state w :
  adds not_setup w (SetDebugState_all tid state w).
Proof.
  eexists. split; [reflexivity|]. apply SetDebugState_calls_not_setup.
Qed.

Lemma after_primary_timeout_adds tid e w :
  adds not_setup w (after_primary_timeout tid e w).
Proof.
  unfold after_primary_timeout.
  eapply adds_trans; [apply (adds_record _ [call_Stop]); reflexivity|].
  eapply adds_trans; [apply SetDebugState_all_adds|].
  eapply adds_trans; [apply adds_record, abort_calls_not_setup|].
  eapply adds_trans; [|apply (adds_record _ [call_Continue]); reflexivity].
  apply adds_same. reflexivity.
Qed.

Lemma primary_timeout_actions iCorProcess tid e w :
  FAILED (EnumerateThreads iCorProcess) = false ->
  (act (record [call_Stop]) ;;
   ChangeThreadsState iCorProcess tid THREAD_RUN ;;
   act (record (abort_calls e)) ;;
   act (set_evalTimeOut true) ;;
   act (record [call_Continue])) w
  = (Returns tt, after_primary_timeout tid e w).
Proof.
  intros HE. unfold bind, act.
  rewrite ChangeThreadsState_enumerated by exact HE. reflexivity.
Qed.

Lemma WaitResult_primary_general iCorProcess tid e env f w :
  FAILED (EnumerateThreads iCorProcess) = false ->
  in_flight f w ->
  exists w', WaitResult_primary iCorProcess tid e env f w = (Returns tt, w') /\
             in_flight f w' /\ adds not_setup w w'.
Proof.
  intros HE Hw. unfold WaitResult_primary. unfold bind at 1.
  destruct (future_wait_for_frame f 5000 (primary_window env) w Hw)
    as (w1 & E & F).
  rewrite E. pose proof (callback_frame_adds _ _ _ _ F) as A.
  destruct (future_poll f w1).
  - exists w1. repeat split; auto. exact (cf_in_flight _ _ _ F).
  - exists (after_primary_timeout tid e w1).
    split; [now apply primary_timeout_actions|]. split.
    + eapply in_flight_ext; [| |exact (cf_in_flight _ _ _ F)]; reflexivity.
    + eapply adds_trans; [exact A|apply after_primary_timeout_adds].
Qed.

Lemma promise_destroy_frame p w :
  let w' := promise_destroy p w in
  calls w' = calls w /\ evalTimeOut w' = evalTimeOut w /\
  threads w' = threads w /\ m_evalCanceled w' = m_evalCanceled w /\
  m_evalCrossThreadDependency w' = m_evalCrossThreadDependency w /\
  customNotification w' = customNotification w.
Proof.
  unfold promise_destroy.
  destruct (nth_error (shared w) p) as [[| |]|]; simpl; tauto.
Qed.

Lemma evalResult_reset_frame x w :
  let w' := evalResult_reset x w in
  calls w' = calls w /\ evalTimeOut w' = evalTimeOut w /\
  threads w' = threads w /\ m_evalCanceled w' = m_evalCanceled w /\
  m_evalCrossThreadDependency w' = m_evalCrossThreadDependency w /\
  customNotification w' = customNotification w.
Proof.
  unfold evalResult_reset. destruct (m_evalResult w) as [r|]; simpl.
  - apply promise_destroy_frame.
  - tauto.
Qed.

Lemma callback_call_not_wait c : callback_call c = true -> not_wait c = true.
Proof. destruct c; simpl; congruence. Qed.

(** The fatal branch of the second wait: the callbacks that still find the
    request, then the reset. *)
Lemma fatal_branch (ppEvalResult : option Handle) env f w :
  in_flight f w ->
  exists w2,
    (act (record [call_Stop]) ;;
     run_callbacks (fatal_window env) ;;
     act (evalResult_reset None) ;;
     ret (E_UNEXPECTED, ppEvalResult)) w
    = (Returns (E_UNEXPECTED, ppEvalResult), evalResult_reset None w2) /\
    callback_frame f (record [call_Stop] w) w2.
Proof.
  intros Hw. unfold bind at 1. unfold act at 1. unfold bind at 1.
  destruct (run_callbacks_frame f (fatal_window env) (record [call_Stop] w))
    as (w2 & E & F); [exact Hw|].
  rewrite E. exists w2. split; [reflexivity|exact F].
Qed.

Lemma WaitResult_grace_general ppEvalResult env f w :
  in_flight f w ->
  exists o w', WaitResult_grace ppEvalResult env f w = (o, w') /\
               (o <> Raises /\ o <> Terminates) /\ m_evalResult w' = None /\
               adds not_setup w w' /\
               evalTimeOut w' = evalTimeOut w /\
               exists l, calls w' = calls w ++ call_wait_for 5000 :: l /\
                         forallb not_wait l = true.
Proof.
  intros Hw. unfold WaitResult_grace. unfold bind at 1.
  destruct (future_wait_for_frame f 5000 (grace_window env) w Hw)
    as (w1 & E & F).
  rewrite E. pose proof (callback_frame_adds _ _ _ _ F) as A.
  pose proof (cf_in_flight _ _ _ F) as I1.
  pose proof (cf_evalTimeOut _ _ _ F) as T1. simpl in T1.
  destruct (cf_calls _ _ _ F) as (l1 & C1 & L1). simpl in C1.
  rewrite <- app_assoc in C1. simpl in C1.
  apply (forallb_weaken _ _ _ callback_call_not_wait) in L1.
  unfold future_poll.
  destruct (nth_error (shared w1) f) as [[|v|]|] eqn:Hp.
  - destruct (fatal_branch ppEvalResult env f w1 I1) as (w2 & E2 & F2).
    rewrite E2. do 2 eexists. split; [reflexivity|].
    split; [split; discriminate|]. split; [reflexivity|].
    destruct (evalResult_reset_frame None w2) as (RC & RT & _).
    destruct (cf_calls _ _ _ F2) as (l2 & C2 & L2).
    rewrite calls_record in C2.
    pose proof (cf_evalTimeOut _ _ _ F2) as T2. rewrite evalTimeOut_record in T2.
    split; [|split].
    + eapply adds_trans; [exact A|]. exists ([call_Stop] ++ l2).
      rewrite RC, C2, <- app_assoc. split; [reflexivity|].
      rewrite forallb_app. simpl.
      eapply forallb_weaken; [apply callback_call_not_setup|exact L2].
    + now rewrite RT, T2.
    + exists (l1 ++ [call_Stop] ++ l2). rewrite RC, C2, C1.
      rewrite <- !app_assoc. simpl. split; [reflexivity|].
      rewrite forallb_app, L1. simpl.
      eapply forallb_weaken; [apply callback_call_not_wait|exact L2].
  - assert (Hn : m_evalResult w1 = None).
    { destruct I1 as [?|(r & _ & _ & ?)]; congruence. }
    unfold bind, future_get. rewrite Hp.
    destruct (FAILED (Status v)); [|destruct ppEvalResult];
      do 2 eexists; (split; [reflexivity|]);
      (split; [split; discriminate|]); repeat split; eauto.
  - assert (Hn : m_evalResult w1 = None).
    { destruct I1 as [?|(r & _ & _ & ?)]; congruence. }
    unfold bind, future_get. rewrite Hp.
    do 2 eexists; (split; [reflexivity|]);
      (split; [split; discriminate|]); repeat split; eauto.
  - assert (Hn : m_evalResult w1 = None).
    { destruct I1 as [?|(r & _ & _ & ?)]; congruence. }
    unfold bind, future_get. rewrite Hp.
    do 2 eexists; (split; [reflexivity|]);
      (split; [split; discriminate|]); repeat split; eauto.
Qed.

(** *** WaitResult from an empty slot, for any callbacks *)

Lemma armed_in_flight pThread w : in_flight (length (shared w)) (armed pThread w).
Proof.
  right. exists (armed_request pThread w). repeat split.
  simpl. apply nth_error_fresh.
Qed.

Lemma WaitResult_head iCorProcess pThread tid ppEvalResult cb env w :
  FAILED (EnumerateThreads iCorProcess) = false ->
  WaitResult iCorProcess pThread tid ppEvalResult cb env w
  = let w0 := record [call_CreateEval]
                (SetDebugState_all tid THREAD_SUSPEND w) in
    if FAILED (fst (CreateEval pThread))
    then (Returns (fst (CreateEval pThread), ppEvalResult), w0)
    else
      try_catch
        (r <- RunEval iCorProcess pThread (snd (CreateEval pThread)) cb ;;
         if FAILED (fst r) then ret (fst r, ppEvalResult)
         else
           WaitResult_primary iCorProcess tid (snd (CreateEval pThread)) env
             (snd r) ;;
           WaitResult_grace ppEvalResult env (snd r))
        (fun _ => ret (E_FAIL, ppEvalResult)) w0.
Proof.
  intros HE. unfold WaitResult. unfold bind at 1.
  rewrite ChangeThreadsState_enumerated by exact HE.
  unfold bind at 1. unfold act at 1. cbv zeta.
  now destruct (FAILED (fst (CreateEval pThread))).
Qed.

Lemma WaitResult_idle iCorProcess pThread tid ppEvalResult cb env w :
  FAILED (EnumerateThreads iCorProcess) = false ->
  m_evalResult w = None ->
  let w0 := record [call_CreateEval] (SetDebugState_all tid THREAD_SUSPEND w) in
  let e := snd (CreateEval pThread) in
  exists raw out w',
    WaitResult iCorProcess pThread tid ppEvalResult (returns_status cb) env w
    = (Returns (raw, out), w') /\
    m_evalResult w' = None /\
    (FAILED (fst (CreateEval pThread)) = true ->
     raw = fst (CreateEval pThread) /\ out = ppEvalResult /\ w' = w0) /\
    (FAILED (fst (CreateEval pThread)) = false ->
     exists l, calls w' = calls w0 ++ call_cbSetupEval (eval_id e) :: l /\
               forallb not_setup l = true /\
               (FAILED (cb e) = true ->
                raw = cb e /\ out = ppEvalResult /\ l = [] /\
                evalTimeOut w' = evalTimeOut w) /\
               (FAILED (cb e) = false -> exists l', l = call_Continue :: l')).
Proof.
  intros HE Hi w0 e. subst e. rewrite (WaitResult_head _ _ _ _ _ _ _ HE).
  cbv zeta. fold w0. set (e := snd (CreateEval pThread)).
  assert (Hi0 : m_evalResult w0 = None) by exact Hi.
  destruct (FAILED (fst (CreateEval pThread))) eqn:HC.
  - do 3 eexists. split; [reflexivity|]. split; [exact Hi0|].
    split; [auto|discriminate].
  - unfold try_catch. unfold bind at 1. rewrite (RunEval_idle _ _ _ _ _ Hi0).
    cbv zeta. fold (armed_request pThread w0).
    destruct (FAILED (cb e)) eqn:HS.
    + cbn [fst snd]. rewrite HS. do 3 eexists. split; [reflexivity|].
      split; [reflexivity|]. split; [discriminate|]. intros _.
      exists []. simpl. repeat split; auto. discriminate.
    + destruct (FAILED (Continue iCorProcess)) eqn:HK.
      * cbn [fst snd]. rewrite HK. do 3 eexists. split; [reflexivity|].
        split; [reflexivity|]. split; [discriminate|]. intros _.
        exists [call_Continue]. simpl. rewrite <- app_assoc.
        repeat split; eauto; discriminate.
      * cbn [fst snd]. rewrite HK. fold (armed pThread w0).
        unfold bind at 1.
        destruct (WaitResult_primary_general iCorProcess tid e env _ _ HE
                    (armed_in_flight pThread w0)) as (w1 & E1 & I1 & A1).
        unfold armed, armed_request in E1, A1. fold e in E1, A1.
        rewrite E1.
        destruct (WaitResult_grace_general ppEvalResult env _ _ I1)
          as (o & w2 & E2 & [HoR Ho] & N2 & A2 & _).
        rewrite E2.
        destruct (adds_trans _ _ _ _ A1 A2) as (l & C & L).
        assert (HL : calls w2
                     = calls w0
                       ++ call_cbSetupEval (eval_id e) :: call_Continue :: l).
        { rewrite C. simpl. now rewrite <- !app_assoc. }
        destruct o as [[raw out]|err| |]; [| |congruence|congruence];
          do 3 eexists; (split; [reflexivity|]); (split; [exact N2|]);
          (split; [discriminate|]); intros _; exists (call_Continue :: l);
          repeat split; eauto; discriminate.
Qed.

(** *** Cleanup *)

Lemma SetEnableCustomNotification_calls pProcess fEnable w :
  calls (snd (SetEnableCustomNotification pProcess fEnable w))
  = calls w ++ notification_calls pProcess fEnable.
Proof.
  unfold SetEnableCustomNotification, notification_calls.
  destruct (FAILED _); simpl; [now rewrite app_nil_r|].
  destruct (SUCCEEDED _); reflexivity.
Qed.

Lemma SetDebugState_call_one tid state state' t :
  SetDebugState_call tid state (SetDebugState_one tid state' t)
  = SetDebugState_call tid state t.
Proof.
  unfold SetDebugState_call, SetDebugState_one.
  destruct (SUCCEEDED (fst (GetID (fst t))) && _) eqn:E; simpl;
    rewrite E; reflexivity.
Qed.

(** A failed thread enumeration ends the process at the first
    [ChangeThreadsState]. *)
Lemma WaitEvalResult_null_enumerator pThread ppEvalResult cbSetupEval env w
    iCorProcess :
  FAILED (fst (GetProcess pThread)) = false ->
  snd (GetProcess pThread) = Some iCorProcess ->
  FAILED (fst (GetID pThread)) = false ->
  FAILED (EnumerateThreads iCorProcess) = true ->
  WaitEvalResult pThread ppEvalResult cbSetupEval env w
  = (Terminates, at_WaitResult iCorProcess w).
Proof.
  intros H1 H2 H3 HE. unfold WaitEvalResult. rewrite H1, H2, H3.
  unfold_M. fold (at_WaitResult iCorProcess w). unfold WaitResult.
  unfold bind at 1. rewrite ChangeThreadsState_null_enumerator by exact HE.
  reflexivity.
Qed.

Lemma at_WaitResult_slot iCorProcess w :
  m_evalResult (at_WaitResult iCorProcess w) = m_evalResult w.
Proof.
  unfold at_WaitResult. simpl.
  now rewrite (proj1 (SetEnableCustomNotification_flags iCorProcess true _)).
Qed.

Lemma WaitEvalResult_returns pThread ppEvalResult cb env w :
  (forall iCorProcess, snd (GetProcess pThread) = Some iCorProcess ->
                       FAILED (EnumerateThreads iCorProcess) = false) ->
  m_evalResult w = None ->
  exists r w', WaitEvalResult pThread ppEvalResult (returns_status cb) env w
               = (Returns r, w') /\ m_evalResult w' = None.
Proof.
  intros HE Hi.
  destruct (FAILED (fst (GetProcess pThread))) eqn:H1;
    [unfold WaitEvalResult; rewrite H1; eexists; eexists; split; [reflexivity|exact Hi]|].
  destruct (snd (GetProcess pThread)) as [proc|] eqn:H2;
    [|unfold WaitEvalResult; rewrite H1, H2; eexists; eexists; split; [reflexivity|exact Hi]].
  destruct (FAILED (fst (GetID pThread))) eqn:H3;
    [unfold WaitEvalResult; rewrite H1, H2, H3; eexists; eexists; split; [reflexivity|exact Hi]|].
  specialize (HE proc eq_refl).
  rewrite (WaitEvalResult_unfold _ _ _ _ _ _ H1 H2 H3 HE).
  destruct (WaitResult_idle proc pThread (snd (GetID pThread)) ppEvalResult
              cb env (at_WaitResult proc w) HE)
    as (raw & out & w1 & E & N & _).
  { now rewrite at_WaitResult_slot. }
  rewrite E. do 2 eexists. split; [reflexivity|].
  unfold cleanup. simpl.
  now rewrite (proj1 (SetEnableCustomNotification_flags proc false _)).
Qed.

(** Entered with the slot empty and given a setup callback that returns,
    [WaitEvalResult] leaves the slot empty, also when it does not return. *)
Lemma WaitEvalResult_idle_slot pThread ppEvalResult cb env w :
  m_evalResult w = None ->
  m_evalResult
    (snd (WaitEvalResult pThread ppEvalResult (returns_status cb) env w))
  = None.
Proof.
  intros Hi.
  destruct (FAILED (fst (GetProcess pThread))) eqn:H1;
    [unfold WaitEvalResult; rewrite H1; exact Hi|].
  destruct (snd (GetProcess pThread)) as [proc|] eqn:H2;
    [|unfold WaitEvalResult; rewrite H1, H2; exact Hi].
  destruct (FAILED (fst (GetID pThread))) eqn:H3;
    [unfold WaitEvalResult; rewrite H1, H2, H3; exact Hi|].
  destruct (FAILED (EnumerateThreads proc)) eqn:HE.
  - rewrite (WaitEvalResult_null_enumerator _ _ _ _ _ _ H1 H2 H3 HE).
    cbn [snd]. now rewrite at_WaitResult_slot.
  - destruct (WaitEvalResult_returns pThread ppEvalResult cb env w)
      as (r & w' & E & N); [|exact Hi|now rewrite E].
    intros proc' Hp. rewrite H2 in Hp. inversion Hp; subst. exact HE.
Qed.

(** *** Promises other than the one destroyed *)



(** *** The setup callback *)

Lemma count_setup_app l1 l2 :
  count_setup (l1 ++ l2) = (count_setup l1 + count_setup l2)%nat.
Proof. unfold count_setup. now rewrite filter_app, length_app. Qed.

Lemma count_setup_none l : forallb not_setup l = true -> count_setup l = 0%nat.
Proof.
  unfold count_setup. induction l as [|c l IH]; simpl; auto.
  intros H. apply andb_prop in H. destruct H as [Hc Hl].
  rewrite Hc. simpl. auto.
Qed.

Lemma notification_calls_quiet pProcess fEnable :
  forallb not_setup (notification_calls pProcess fEnable) = true /\
  forallb not_Continue (notification_calls pProcess fEnable) = true.
Proof. unfold notification_calls. destruct (FAILED _); auto. Qed.

Lemma SetDebugState_calls_not_Continue tid state ths :
  forallb not_Continue (flat_map (SetDebugState_call tid state) ths) = true.
Proof.
  induction ths as [|t ths IH]; simpl; auto.
  rewrite forallb_app, IH, andb_true_r. unfold SetDebugState_call.
  destruct (SUCCEEDED (fst (GetID (fst t))) && _); reflexivity.
Qed.

Lemma final_status_failed hr w :
  FAILED hr = true -> evalTimeOut w = false -> final_status hr w = hr.
Proof.
  intros Hf Ht. unfold final_status. rewrite Ht.
  destruct (hr =? CORDBG_S_FUNC_EVAL_ABORTED) eqn:E; auto.
  apply Z.eqb_eq in E. subst hr. rewrite ABORTED_succeeded in Hf. discriminate.
Qed.

Lemma cleanup_calls iCorProcess tid w :
  calls (cleanup iCorProcess tid w)
  = calls w ++ notification_calls iCorProcess false
    ++ flat_map (SetDebugState_call tid THREAD_RUN) (threads w).
Proof.
  unfold cleanup. simpl. rewrite SetEnableCustomNotification_calls.
  rewrite <- app_assoc. do 3 f_equal.
  apply (SetEnableCustomNotification_flags iCorProcess false w).
Qed.

Lemma calls_SetDebugState_all tid state w :
  calls (SetDebugState_all tid state w)
  = calls w ++ flat_map (SetDebugState_call tid state) (threads w).
Proof. reflexivity. Qed.

Lemma at_WaitResult_facts iCorProcess w :
  m_evalResult (at_WaitResult iCorProcess w) = m_evalResult w /\
  evalTimeOut (at_WaitResult iCorProcess w) = false /\
  m_evalCanceled (at_WaitResult iCorProcess w) = false /\
  m_evalCrossThreadDependency (at_WaitResult iCorProcess w) = false /\
  shared (at_WaitResult iCorProcess w) = shared w /\
  threads (at_WaitResult iCorProcess w) = threads w /\
  calls (at_WaitResult iCorProcess w)
  = calls w ++ notification_calls iCorProcess true.
Proof.
  unfold at_WaitResult. simpl.
  destruct (SetEnableCustomNotification_flags iCorProcess true
              (set_evalTimeOut false w)) as (A & B & _ & _ & C & D).
  rewrite SetEnableCustomNotification_calls. simpl in *. tauto.
Qed.

(** The setup callback in a call whose thread enumeration succeeds. *)
Lemma WaitEvalResult_setup_callback_enumerated :
  forall pThread ppEvalResult cbSetupEval env w,
    m_evalResult w = None ->
    (forall iCorProcess,
       snd (GetProcess pThread) = Some iCorProcess ->
       FAILED (EnumerateThreads iCorProcess) = false) ->
    exists r w' l,
      WaitEvalResult pThread ppEvalResult (returns_status cbSetupEval) env w
      = (Returns r, w') /\
      calls w' = calls w ++ l /\
      (count_setup l <= 1)%nat /\
      (forall iCorProcess,
         FAILED (fst (GetProcess pThread)) = false ->
         snd (GetProcess pThread) = Some iCorProcess ->
         FAILED (fst (GetID pThread)) = false ->
         FAILED (fst (CreateEval pThread)) = false ->
         let e := snd (CreateEval pThread) in
         exists l1 l2,
           l = l1 ++ [call_CreateEval; call_cbSetupEval (eval_id e)] ++ l2 /\
           forallb not_setup l1 = true /\ forallb not_Continue l1 = true /\
           forallb not_setup l2 = true /\
           (FAILED (cbSetupEval e) = true ->
            r = (cbSetupEval e, ppEvalResult) /\
            IsEvalRunning w' = false /\
            forallb not_Continue l2 = true) /\
           (FAILED (cbSetupEval e) = false ->
            exists l3, l2 = call_Continue :: l3)) /\
      (FAILED (fst (GetProcess pThread)) = true \/
       snd (GetProcess pThread) = None \/
       FAILED (fst (GetID pThread)) = true \/
       FAILED (fst (CreateEval pThread)) = true ->
       count_setup l = 0%nat).
Proof.
  intros pThread pp cb env w Hi HE.
  match goal with
  | |- ?G =>
      assert (Early : forall hr,
                WaitEvalResult pThread pp (returns_status cb) env w
                = (Returns (hr, pp), w) ->
                (FAILED (fst (GetProcess pThread)) = true \/
                 snd (GetProcess pThread) = None \/
                 FAILED (fst (GetID pThread)) = true) -> G)
  end.
  { intros hr E Hbad. exists (hr, pp), w, []. split; [exact E|].
    split; [now rewrite app_nil_r|]. split; [auto|]. split; [|auto].
    intros proc G1 G2 G3 _. exfalso.
    destruct Hbad as [B|[B|B]]; congruence. }
  destruct (FAILED (fst (GetProcess pThread))) eqn:H1.
  { eapply Early; [|auto]. unfold WaitEvalResult. now rewrite H1. }
  destruct (snd (GetProcess pThread)) as [proc|] eqn:H2.
  2:{ eapply Early; [|auto]. unfold WaitEvalResult. now rewrite H1, H2. }
  destruct (FAILED (fst (GetID pThread))) eqn:H3.
  { eapply Early; [|auto]. unfold WaitEvalResult. now rewrite H1, H2, H3. }
  clear Early. set (tid := snd (GetID pThread)).
  specialize (HE proc eq_refl).
  destruct (at_WaitResult_facts proc w) as (A1 & A2 & _ & _ & _ & A6 & A7).
  destruct (WaitResult_idle proc pThread tid pp cb env (at_WaitResult proc w)
              HE)
    as (raw & out & w1 & E & N & HCfail & HCok); [congruence|].
  rewrite (WaitEvalResult_unfold _ _ _ _ _ _ H1 H2 H3 HE). fold tid. rewrite E.
  cbn [fst snd].
  set (pre := notification_calls proc true
              ++ flat_map (SetDebugState_call tid THREAD_SUSPEND) (threads w)).
  set (post := notification_calls proc false
               ++ flat_map (SetDebugState_call tid THREAD_RUN) (threads w1)).
  assert (Hpre : forallb not_setup pre = true /\
                 forallb not_Continue pre = true).
  { unfold pre. rewrite !forallb_app.
    destruct (notification_calls_quiet proc true) as [-> ->].
    now rewrite SetDebugState_calls_not_setup,
      SetDebugState_calls_not_Continue. }
  assert (Hpost : forallb not_setup post = true /\
                  forallb not_Continue post = true).
  { unfold post. rewrite !forallb_app.
    destruct (notification_calls_quiet proc false) as [-> ->].
    now rewrite SetDebugState_calls_not_setup,
      SetDebugState_calls_not_Continue. }
  destruct Hpre as [Hpre1 Hpre2]. destruct Hpost as [Hpost1 Hpost2].
  assert (C0 : calls (record [call_CreateEval]
                        (SetDebugState_all tid THREAD_SUSPEND
                           (at_WaitResult proc w)))
               = calls w ++ pre ++ [call_CreateEval]).
  { rewrite calls_record, calls_SetDebugState_all, A7, A6. unfold pre.
    now rewrite <- !app_assoc. }
  destruct (FAILED (fst (CreateEval pThread))) eqn:H4.
  - destruct (HCfail eq_refl) as (-> & -> & ->).
    exists (final_status (fst (CreateEval pThread))
              (record [call_CreateEval]
                 (SetDebugState_all tid THREAD_SUSPEND
                    (at_WaitResult proc w))), pp).
    eexists. exists (pre ++ [call_CreateEval] ++ post).
    split; [reflexivity|].
    assert (Z0 : count_setup (pre ++ [call_CreateEval] ++ post) = 0%nat).
    { apply count_setup_none. rewrite !forallb_app, Hpre1, Hpost1. auto. }
    split; [|split; [lia|split; [discriminate|auto]]].
    rewrite cleanup_calls, C0. fold post. now rewrite <- !app_assoc.
  - destruct (HCok eq_refl) as (l0 & C1 & L0 & HSfail & HSok).
    rewrite C0 in C1.
    set (e := snd (CreateEval pThread)) in *.
    exists (final_status raw w1, out). eexists.
    exists (pre ++ [call_CreateEval; call_cbSetupEval (eval_id e)]
            ++ (l0 ++ post)).
    split; [reflexivity|]. split; [|split; [|split]].
    + rewrite cleanup_calls, C1. fold post.
      rewrite <- !app_assoc. reflexivity.
    + rewrite !count_setup_app.
      rewrite (count_setup_none pre), (count_setup_none l0),
        (count_setup_none post) by assumption.
      simpl. lia.
    + intros proc' _ G2 _ _. exists pre, (l0 ++ post).
      split; [reflexivity|]. split; [assumption|]. split; [assumption|].
      split; [now rewrite forallb_app, L0, Hpost1|]. split.
      * intros HS. destruct (HSfail HS) as (-> & -> & -> & T).
        split; [|split].
        -- f_equal. apply final_status_failed; [exact HS|congruence].
        -- unfold IsEvalRunning, cleanup. simpl.
           rewrite (proj1 (SetEnableCustomNotification_flags proc false w1)).
           now rewrite N.
        -- simpl. exact Hpost2.
      * intros HS. destruct (HSok HS) as (l3 & ->). simpl. eauto.
    + intros [B|[B|[B|B]]]; discriminate.
Qed.

(** C7, as the code has it.  [WaitEvalResult], entered with the slot empty
    and given a setup callback that returns a status, calls the setup
    callback at most once, and not at all when the process, the thread id or
    the evaluation handle could not be obtained.  When thread enumeration
    succeeds it returns, and it calls the callback exactly once when the
    process, the thread id and the evaluation handle were obtained: right
    after [CreateEval], with no [Continue] made before it by this call.
    When the callback answers a failure status, that status is what
    [WaitEvalResult] returns, the output slot is left as it was, the request
    slot is empty ([IsEvalRunning] is false) and no [Continue] is made at
    all; when it succeeds, [Continue] is the next call. *)
Theorem WaitEvalResult_setup_callback :
  forall pThread ppEvalResult cbSetupEval env w,
    m_evalResult w = None ->
    let W :=
      WaitEvalResult pThread ppEvalResult (returns_status cbSetupEval) env w in
    exists l : list Call,
      calls (snd W) = calls w ++ l /\
      (count_setup l <= 1)%nat /\
      (FAILED (fst (GetProcess pThread)) = true \/
       snd (GetProcess pThread) = None \/
       FAILED (fst (GetID pThread)) = true \/
       FAILED (fst (CreateEval pThread)) = true ->
       count_setup l = 0%nat) /\
      ((forall iCorProcess,
          snd (GetProcess pThread) = Some iCorProcess ->
          FAILED (EnumerateThreads iCorProcess) = false) ->
       exists r,
         fst W = Returns r /\
         forall iCorProcess,
           FAILED (fst (GetProcess pThread)) = false ->
           snd (GetProcess pThread) = Some iCorProcess ->
           FAILED (fst (GetID pThread)) = false ->
           FAILED (fst (CreateEval pThread)) = false ->
           let e := snd (CreateEval pThread) in
           exists l1 l2,
             l = l1 ++ [call_CreateEval; call_cbSetupEval (eval_id e)] ++ l2 /\
             forallb not_setup l1 = true /\ forallb not_Continue l1 = true /\
             forallb not_setup l2 = true /\
             (FAILED (cbSetupEval e) = true ->
              r = (cbSetupEval e, ppEvalResult) /\
              IsEvalRunning (snd W) = false /\
              forallb not_Continue l2 = true) /\
             (FAILED (cbSetupEval e) = false ->
              exists l3, l2 = call_Continue :: l3)).
Proof.
  intros pThread pp cb env w Hi W.
  assert (Hdec : (forall proc, snd (GetProcess pThread) = Some proc ->
                               FAILED (EnumerateThreads proc) = false) \/
                 exists proc, snd (GetProcess pThread) = Some proc /\
                              FAILED (EnumerateThreads proc) = true).
  { destruct (snd (GetProcess pThread)) as [proc|]; [|left; discriminate].
    destruct (FAILED (EnumerateThreads proc)) eqn:HE; [right; eauto|].
    left. intros p Hp. inversion Hp; subst. exact HE. }
  destruct Hdec as [HE|(proc & H2 & HE)].
  - destruct (WaitEvalResult_setup_callback_enumerated pThread pp cb env w
                Hi HE) as (r & w' & l & E & C & L & Hex & Hz).
    exists l. unfold W. rewrite E. cbn [fst snd].
    split; [exact C|]. split; [exact L|]. split; [exact Hz|].
    intros _. exists r. split; [reflexivity|exact Hex].
  - assert (Early : forall hr,
              W = (Returns (hr, pp), w) ->
              exists l,
                calls (snd W) = calls w ++ l /\ count_setup l = 0%nat).
    { intros hr E. exists []. rewrite E. cbn [snd].
      now rewrite app_nil_r. }
    assert (Hl : exists l,
              calls (snd W) = calls w ++ l /\ count_setup l = 0%nat).
    { destruct (FAILED (fst (GetProcess pThread))) eqn:H1.
      { eapply Early. unfold W, WaitEvalResult. now rewrite H1. }
      destruct (FAILED (fst (GetID pThread))) eqn:H3.
      { eapply Early. unfold W, WaitEvalResult. now rewrite H1, H2, H3. }
      exists (notification_calls proc true). unfold W.
      rewrite (WaitEvalResult_null_enumerator _ _ _ _ _ _ H1 H2 H3 HE).
      cbn [snd]. split; [apply at_WaitResult_facts|].
      apply count_setup_none, notification_calls_quiet. }
    destruct Hl as (l & C & Z0). exists l.
    split; [exact C|]. split; [lia|]. split; [auto|].
    intros HE'. specialize (HE' proc H2). congruence.
Qed.

(** *** The waits in the two scenarios: completion, and no completion *)

Lemma WaitResult_primary_completed iCorProcess tid e env cbs thread pEval rest
    w r :
  m_evalResult w = Some r ->
  nth_error (shared w) (promiseValue r) = Some NotReady ->
  primary_window env = cbs ++ cb_NotifyEvalComplete (Some thread) pEval :: rest ->
  forallb (foreign (threadId r)) cbs = true ->
  snd (GetID thread) = threadId r ->
  exists w',
    WaitResult_primary iCorProcess tid e env (promiseValue r) w
    = (Returns tt, w') /\
    m_evalResult w' = None /\
    nth_error (shared w') (promiseValue r)
    = Some (HasValue (delivered pEval)) /\
    callback_frame (promiseValue r) (record [call_wait_for 5000] w) w'.
Proof.
  intros Hr Hp Hwin Hf Ht. unfold WaitResult_primary. unfold bind at 1.
  rewrite Hwin.
  destruct (future_wait_for_completed 5000 cbs thread pEval rest w r
              Hr Hp Hf Ht) as (w' & E & N & V & F).
  rewrite E. exists w'. auto.
Qed.

Lemma WaitResult_primary_foreign iCorProcess tid e env w r :
  FAILED (EnumerateThreads iCorProcess) = false ->
  m_evalResult w = Some r ->
  nth_error (shared w) (promiseValue r) = Some NotReady ->
  forallb (foreign (threadId r)) (primary_window env) = true ->
  exists w1,
    WaitResult_primary iCorProcess tid e env (promiseValue r) w
    = (Returns tt, after_primary_timeout tid e w1) /\
    m_evalResult w1 = Some r /\ shared w1 = shared w /\
    callback_frame (promiseValue r) (record [call_wait_for 5000] w) w1.
Proof.
  intros HE Hr Hp Hf. unfold WaitResult_primary. unfold bind at 1.
  destruct (future_wait_for_foreign 5000 (primary_window env) w r Hr Hp Hf)
    as (w1 & E & R & S & F).
  rewrite E. exists w1. split; [now apply primary_timeout_actions|auto].
Qed.

Lemma WaitResult_grace_ready ppEvalResult env f w d :
  m_evalResult w = None ->
  nth_error (shared w) f = Some (HasValue d) ->
  exists w',
    WaitResult_grace ppEvalResult env f w
    = (Returns (fetched ppEvalResult d), w') /\
    m_evalResult w' = None /\
    nth_error (shared w') f = Some (HasValue d) /\
    callback_frame f (record [call_wait_for 5000] w) w'.
Proof.
  intros Hn Hv. unfold WaitResult_grace. unfold bind at 1.
  destruct (future_wait_for_frame f 5000 (grace_window env) w)
    as (w' & E & F); [left; exact Hn|].
  rewrite E.
  destruct (cf_idle _ _ _ F Hn) as (N' & S' & _).
  assert (V' : nth_error (shared w') f = Some (HasValue d))
    by (rewrite S'; exact Hv).
  unfold future_poll. rewrite V'. unfold bind, future_get. rewrite V'.
  exists w'. unfold fetched.
  destruct (FAILED (Status d)); [|destruct ppEvalResult]; auto.
Qed.

Lemma WaitResult_grace_completed ppEvalResult env cbs thread pEval rest w r :
  m_evalResult w = Some r ->
  nth_error (shared w) (promiseValue r) = Some NotReady ->
  grace_window env = cbs ++ cb_NotifyEvalComplete (Some thread) pEval :: rest ->
  forallb (foreign (threadId r)) cbs = true ->
  snd (GetID thread) = threadId r ->
  exists w',
    WaitResult_grace ppEvalResult env (promiseValue r) w
    = (Returns (fetched ppEvalResult (delivered pEval)), w') /\
    m_evalResult w' = None /\
    callback_frame (promiseValue r) (record [call_wait_for 5000] w) w'.
Proof.
  intros Hr Hp Hwin Hf Ht. unfold WaitResult_grace. unfold bind at 1.
  rewrite Hwin.
  destruct (future_wait_for_completed 5000 cbs thread pEval rest w r
              Hr Hp Hf Ht) as (w' & E & N & V & F).
  rewrite E. unfold bind, future_get. rewrite V.
  exists w'. unfold fetched.
  destruct (FAILED (Status (delivered pEval))); [|destruct ppEvalResult]; auto.
Qed.

Lemma WaitResult_grace_foreign ppEvalResult env w r :
  m_evalResult w = Some r ->
  nth_error (shared w) (promiseValue r) = Some NotReady ->
  forallb (foreign (threadId r)) (grace_window env) = true ->
  exists w1 w2,
    WaitResult_grace ppEvalResult env (promiseValue r) w
    = (Returns (E_UNEXPECTED, ppEvalResult), evalResult_reset None w2) /\
    callback_frame (promiseValue r) (record [call_wait_for 5000] w) w1 /\
    callback_frame (promiseValue r) (record [call_Stop] w1) w2.
Proof.
  intros Hr Hp Hf. unfold WaitResult_grace. unfold bind at 1.
  destruct (future_wait_for_foreign 5000 (grace_window env) w r Hr Hp Hf)
    as (w1 & E & R & S & F).
  rewrite E.
  destruct (fatal_branch ppEvalResult env (promiseValue r) w1
              (cf_in_flight _ _ _ F)) as (w2 & E2 & F2).
  rewrite E2. exists w1, w2. auto.
Qed.

(** [WaitResult] up to the point where the request is armed. *)
Lemma WaitResult_armed iCorProcess pThread tid ppEvalResult cb env w :
  FAILED (EnumerateThreads iCorProcess) = false ->
  m_evalResult w = None ->
  FAILED (fst (CreateEval pThread)) = false ->
  FAILED (cb (snd (CreateEval pThread))) = false ->
  FAILED (Continue iCorProcess) = false ->
  let w0 := record [call_CreateEval] (SetDebugState_all tid THREAD_SUSPEND w) in
  WaitResult iCorProcess pThread tid ppEvalResult (returns_status cb) env w
  = try_catch
      (WaitResult_primary iCorProcess tid (snd (CreateEval pThread)) env
         (length (shared w0)) ;;
       WaitResult_grace ppEvalResult env (length (shared w0)))
      (fun _ => ret (E_FAIL, ppEvalResult))
      (armed pThread w0).
Proof.
  intros HE Hi HC HS HK w0. rewrite (WaitResult_head _ _ _ _ _ _ _ HE).
  cbv zeta. fold w0. rewrite HC. unfold try_catch. unfold bind at 1.
  rewrite (RunEval_idle _ _ _ _ w0 Hi). cbv zeta. rewrite HS, HK.
  cbn [fst snd]. rewrite HK. reflexivity.
Qed.

Lemma cleanup_facts iCorProcess tid w :
  m_evalResult (cleanup iCorProcess tid w) = m_evalResult w /\
  shared (cleanup iCorProcess tid w) = shared w /\
  m_evalCanceled (cleanup iCorProcess tid w) = m_evalCanceled w /\
  m_evalCrossThreadDependency (cleanup iCorProcess tid w)
  = m_evalCrossThreadDependency w.
Proof.
  unfold cleanup. simpl.
  destruct (SetEnableCustomNotification_flags iCorProcess false w)
    as (A & B & C & D & _).
  tauto.
Qed.

Lemma at_primary_wait_facts iCorProcess pThread w :
  let wa := at_primary_wait iCorProcess pThread w in
  let r := {| threadId := snd (GetID pThread);
              pEval := snd (CreateEval pThread);
              promiseValue := length (shared w) |} in
  m_evalResult wa = Some r /\
  nth_error (shared wa) (length (shared w)) = Some NotReady /\
  evalTimeOut wa = false /\
  threads wa
  = map (SetDebugState_one (snd (GetID pThread)) THREAD_SUSPEND) (threads w).
Proof.
  destruct (at_WaitResult_facts iCorProcess w) as (_ & T & _ & _ & S & H & _).
  unfold at_primary_wait, armed, armed_request.
  cbn [m_evalResult shared evalTimeOut threads record set_evalResult
       set_shared SetDebugState_all set_threads].
  rewrite S, H, T. repeat split; auto. apply nth_error_fresh.
Qed.

Lemma WaitEvalResult_armed pThread ppEvalResult cb env w iCorProcess :
  m_evalResult w = None ->
  FAILED (fst (GetProcess pThread)) = false ->
  snd (GetProcess pThread) = Some iCorProcess ->
  FAILED (fst (GetID pThread)) = false ->
  FAILED (EnumerateThreads iCorProcess) = false ->
  FAILED (fst (CreateEval pThread)) = false ->
  FAILED (cb (snd (CreateEval pThread))) = false ->
  FAILED (Continue iCorProcess) = false ->
  WaitEvalResult pThread ppEvalResult (returns_status cb) env w =
  match
    try_catch
      (WaitResult_primary iCorProcess (snd (GetID pThread))
         (snd (CreateEval pThread)) env (length (shared w)) ;;
       WaitResult_grace ppEvalResult env (length (shared w)))
      (fun _ => ret (E_FAIL, ppEvalResult))
      (at_primary_wait iCorProcess pThread w)
  with
  | (Returns r, w1) =>
      (Returns (final_status (fst r) w1, snd r),
       cleanup iCorProcess (snd (GetID pThread)) w1)
  | (Throws e, w1) => (Throws e, w1)
  | (Raises, w1) => (Raises, w1)
  | (Terminates, w1) => (Terminates, w1)
  end.
Proof.
  intros Hi H1 H2 H3 HE HC HS HK.
  rewrite (WaitEvalResult_unfold _ _ _ _ _ _ H1 H2 H3 HE).
  destruct (at_WaitResult_facts iCorProcess w) as (N & _ & _ & _ & S & _).
  rewrite WaitResult_armed; auto; [|congruence].
  cbv zeta. unfold at_primary_wait.
  replace (length (shared (record [call_CreateEval]
             (SetDebugState_all (snd (GetID pThread)) THREAD_SUSPEND
                (at_WaitResult iCorProcess w)))))
    with (length (shared w))
    by (cbn [shared record SetDebugState_all set_threads]; now rewrite S).
  reflexivity.
Qed.

(** C1, as the code has it.  For a call entered with the slot empty that
    armed its request (thread enumeration, [CreateEval], a setup callback
    that returns a status and [Continue] all succeeding): when the
    completion for the evaluating thread arrives during the primary wait,
    after callbacks that are neither a completion for that thread nor the
    reset, the promise receives the outcome [NotifyEvalComplete] built and
    [WaitEvalResult] returns from it: a failure status is returned as it is
    and the output slot is not written; otherwise, with no output slot,
    [S_OK] is returned; otherwise the delivered value handle is stored in
    the slot and the status of the outcome is returned, except that the
    aborted status is translated by the two flags. *)
Theorem WaitEvalResult_delivers_outcome :
  forall pThread ppEvalResult cb env w iCorProcess cbs thread pEval rest,
    m_evalResult w = None ->
    FAILED (fst (GetProcess pThread)) = false ->
    snd (GetProcess pThread) = Some iCorProcess ->
    FAILED (fst (GetID pThread)) = false ->
    FAILED (EnumerateThreads iCorProcess) = false ->
    FAILED (fst (CreateEval pThread)) = false ->
    FAILED (cb (snd (CreateEval pThread))) = false ->
    FAILED (Continue iCorProcess) = false ->
    primary_window env
    = cbs ++ cb_NotifyEvalComplete (Some thread) pEval :: rest ->
    forallb (foreign (snd (GetID pThread))) cbs = true ->
    snd (GetID thread) = snd (GetID pThread) ->
    let d := delivered pEval in
    exists status out w',
      WaitEvalResult pThread ppEvalResult (returns_status cb) env w
      = (Returns (status, out), w') /\
      m_evalResult w' = None /\
      nth_error (shared w') (length (shared w)) = Some (HasValue d) /\
      (FAILED (Status d) = true -> status = Status d /\ out = ppEvalResult) /\
      (FAILED (Status d) = false -> ppEvalResult = None ->
       status = S_OK /\ out = None) /\
      (FAILED (Status d) = false -> ppEvalResult <> None ->
       out = Some (iCorEval d) /\
       (Status d <> CORDBG_S_FUNC_EVAL_ABORTED -> status = Status d) /\
       (Status d = CORDBG_S_FUNC_EVAL_ABORTED ->
        status = if m_evalCrossThreadDependency w'
                 then CORDBG_E_CANT_CALL_ON_THIS_THREAD
                 else if m_evalCanceled w' then COR_E_OPERATIONCANCELED
                      else COR_E_TIMEOUT)).
Proof.
  intros pThread pp cb env w proc cbs thread pEval rest
    Hi H1 H2 H3 HE HC HS HK Hwin Hf Ht d.
  rewrite (WaitEvalResult_armed _ _ _ _ _ _ Hi H1 H2 H3 HE HC HS HK).
  destruct (at_primary_wait_facts proc pThread w) as (R & P & T & _).
  set (wa := at_primary_wait proc pThread w) in *.
  set (r := {| threadId := snd (GetID pThread);
               pEval := snd (CreateEval pThread);
               promiseValue := length (shared w) |}) in *.
  destruct (WaitResult_primary_completed proc (snd (GetID pThread))
              (snd (CreateEval pThread)) env cbs thread pEval rest wa r
              R P Hwin Hf Ht) as (w1 & E1 & N1 & V1 & F1).
  destruct (WaitResult_grace_ready pp env (promiseValue r) w1 _ N1 V1)
    as (w2 & E2 & N2 & V2 & F2).
  simpl promiseValue in *.
  unfold try_catch, bind. rewrite E1, E2.
  assert (T2 : evalTimeOut w2 = false).
  { rewrite (cf_evalTimeOut _ _ _ F2), evalTimeOut_record.
    rewrite (cf_evalTimeOut _ _ _ F1), evalTimeOut_record. exact T. }
  destruct (cleanup_facts proc (snd (GetID pThread)) w2) as (A & B & C & D).
  do 3 eexists. split; [reflexivity|]. rewrite A, B, C, D.
  split; [exact N2|]. split; [exact V2|].
  fold d. unfold fetched, final_status. rewrite T2.
  split; [|split].
  - intros HF. rewrite HF. cbn [fst snd]. split; [|reflexivity].
    destruct (Status d =? CORDBG_S_FUNC_EVAL_ABORTED) eqn:E; auto.
    apply Z.eqb_eq in E. rewrite E, ABORTED_succeeded in HF. discriminate.
  - intros HF ->. rewrite HF. cbn [fst snd]. split; [|reflexivity].
    rewrite Z.eqb_sym, ABORTED_not_S_OK. reflexivity.
  - intros HF Hpp. rewrite HF. destruct pp as [h|]; [|congruence].
    cbn [fst snd]. split; [reflexivity|]. split.
    + intros Hne. apply Z.eqb_neq in Hne. now rewrite Hne.
    + intros ->. now rewrite Z.eqb_refl.
Qed.

(** *** No completion during the primary wait *)

Lemma final_status_timed_out raw w :
  evalTimeOut w = true ->
  FAILED (final_status raw w) = true /\
  (final_status raw w = COR_E_TIMEOUT \/
   final_status raw w = E_UNEXPECTED \/
   final_status raw w = CORDBG_E_CANT_CALL_ON_THIS_THREAD \/
   final_status raw w = COR_E_OPERATIONCANCELED).
Proof.
  intros T. unfold final_status. rewrite T.
  destruct (raw =? CORDBG_S_FUNC_EVAL_ABORTED).
  - destruct (m_evalCrossThreadDependency w); [|destruct (m_evalCanceled w)];
      auto using CANT_CALL_failed, OPERATIONCANCELED_failed, TIMEOUT_failed.
  - destruct (raw =? E_UNEXPECTED);
      auto using E_UNEXPECTED_failed, TIMEOUT_failed.
Qed.

Lemma failed_not_ABORTED hr :
  FAILED hr = true -> (hr =? CORDBG_S_FUNC_EVAL_ABORTED) = false.
Proof.
  intros HF. apply Z.eqb_neq. intros ->.
  rewrite ABORTED_succeeded in HF. discriminate.
Qed.

Lemma succeeded_not_UNEXPECTED hr :
  FAILED hr = false -> (hr =? E_UNEXPECTED) = false.
Proof.
  intros HF. apply Z.eqb_neq. intros ->.
  rewrite E_UNEXPECTED_failed in HF. discriminate.
Qed.

Lemma SetDebugState_calls_map tid state state' ths :
  flat_map (SetDebugState_call tid state)
    (map (SetDebugState_one tid state') ths)
  = flat_map (SetDebugState_call tid state) ths.
Proof.
  induction ths as [|t ths IH]; simpl; auto.
  now rewrite SetDebugState_call_one, IH.
Qed.

Lemma SetDebugState_calls_not_wait tid state ths :
  forallb not_wait (flat_map (SetDebugState_call tid state) ths) = true.
Proof.
  induction ths as [|t ths IH]; simpl; auto.
  rewrite forallb_app, IH, andb_true_r. unfold SetDebugState_call.
  destruct (SUCCEEDED (fst (GetID (fst t))) && _); reflexivity.
Qed.

Lemma notification_calls_not_wait pProcess fEnable :
  forallb not_wait (notification_calls pProcess fEnable) = true.
Proof. unfold notification_calls. destruct (FAILED _); auto. Qed.

Lemma at_primary_wait_calls iCorProcess pThread w :
  calls (at_primary_wait iCorProcess pThread w)
  = calls w
    ++ (notification_calls iCorProcess true
        ++ flat_map (SetDebugState_call (snd (GetID pThread)) THREAD_SUSPEND)
             (threads w)
        ++ [call_CreateEval;
            call_cbSetupEval (eval_id (snd (CreateEval pThread)));
            call_Continue]).
Proof.
  destruct (at_WaitResult_facts iCorProcess w) as (_ & _ & _ & _ & _ & H & C).
  unfold at_primary_wait, armed.
  rewrite !calls_record. cbn [calls set_evalResult set_shared].
  rewrite calls_record, calls_SetDebugState_all, C, H.
  rewrite <- !app_assoc. reflexivity.
Qed.

(** *** The flags when the primary wait starts *)

Lemma at_primary_wait_flags iCorProcess pThread w :
  m_evalCanceled (at_primary_wait iCorProcess pThread w) = false /\
  m_evalCrossThreadDependency (at_primary_wait iCorProcess pThread w) = false.
Proof. split; reflexivity. Qed.

(** *** IsEvalRunning *)

(** X1.  [IsEvalRunning] is true exactly while a request is armed: false on an
    empty slot; after [RunEval] on an empty slot, true exactly when setup and
    [Continue] succeeded; on an armed slot true, and still true after
    [CancelEvalRunning], after the custom notification and after a completion
    for another thread id, false after the completion for the owner's id and
    after the reset; false again when [WaitEvalResult], entered with the slot
    empty and given a setup callback that returns a status, has returned. *)
Theorem IsEvalRunning_while_armed :
  (forall pProcess pThread e cb w,
     m_evalResult w = None ->
     IsEvalRunning w = false /\
     IsEvalRunning (snd (RunEval pProcess pThread e (returns_status cb) w))
     = negb (FAILED (cb e)) && negb (FAILED (Continue pProcess))) /\
  (forall thread pEval w r,
     m_evalResult w = Some r ->
     IsEvalRunning w = true /\
     IsEvalRunning (CancelEvalRunning w) = true /\
     IsEvalRunning (snd (ManagedCallbackCustomNotification thread w)) = true /\
     IsEvalRunning (snd (NotifyEvalComplete None pEval w)) = false /\
     (threadId r <> snd (GetID thread) ->
      IsEvalRunning (snd (NotifyEvalComplete (Some thread) pEval w)) = true) /\
     (threadId r = snd (GetID thread) ->
      nth_error (shared w) (promiseValue r) = Some NotReady ->
      IsEvalRunning (snd (NotifyEvalComplete (Some thread) pEval w)) = false)) /\
  (forall pThread ppEvalResult cb env w,
     m_evalResult w = None ->
     IsEvalRunning
       (snd (WaitEvalResult pThread ppEvalResult (returns_status cb) env w))
     = false).
Proof.
  split; [|split].
  - intros proc pThread e cb w Hi. unfold IsEvalRunning at 1. rewrite Hi.
    split; [reflexivity|]. rewrite (RunEval_idle _ _ _ _ _ Hi). cbv zeta.
    destruct (FAILED (cb e)); [reflexivity|].
    destruct (FAILED (Continue proc)); reflexivity.
  - intros thread pEval w r Hr. unfold IsEvalRunning.
    destruct (run_callback_foreign cb_CancelEvalRunning w r Hr eq_refl)
      as (w1 & E1 & R1 & _).
    destruct (run_callback_foreign (cb_CustomNotification thread) w r Hr
                eq_refl) as (w2 & E2 & R2 & _).
    simpl in E1, E2. unfold act in E1, E2.
    inversion E1; subst w1. inversion E2; subst w2.
    rewrite Hr, R1, R2. repeat split.
    + intros Hne. rewrite NotifyEvalComplete_foreign.
      * simpl. now rewrite Hr.
      * intros r' Hr'. congruence.
    + intros Ht Hp.
      now rewrite (NotifyEvalComplete_matching thread pEval w r Hr Ht Hp).
  - intros pThread pp cb env w Hi. unfold IsEvalRunning.
    now rewrite (WaitEvalResult_idle_slot pThread pp cb env w Hi).
Qed.

(** *** What the callbacks never do *)

Lemma callback_never_refl w : callback_never w w.
Proof. split; auto. Qed.

Lemma callback_never_trans w1 w2 w3 :
  callback_never w1 w2 -> callback_never w2 w3 -> callback_never w1 w3.
Proof.
  intros [S1 C1 D1 R1 L1 T1 H1 N1] [S2 C2 D2 R2 L2 T2 H2 N2].
  split; try congruence; auto.
  destruct S2 as [S2|S2]; [rewrite S2; exact S1|right; exact S2].
Qed.

Lemma callback_never_record l w : callback_never w (record l w).
Proof. split; auto. Qed.

Lemma list_set_ready p x (l : list shared_state) q s :
  nth_error l p = Some NotReady ->
  nth_error l q = Some s -> s <> NotReady ->
  nth_error (list_set p x l) q = Some s.
Proof.
  intros Hp Hq Hs. rewrite nth_error_list_set_neq; auto.
  intros E. subst q. congruence.
Qed.

Lemma promise_destroy_never p w : callback_never w (promise_destroy p w).
Proof.
  unfold promise_destroy.
  destruct (nth_error (shared w) p) as [[| |]|] eqn:Hp;
    try apply callback_never_refl.
  split; simpl; auto.
  - intros q s Hq Hs. eapply list_set_ready; eauto.
  - apply length_list_set.
Qed.

Lemma evalResult_reset_never w : callback_never w (evalResult_reset None w).
Proof.
  unfold evalResult_reset. destruct (m_evalResult w) as [r|] eqn:Hr.
  - destruct (promise_destroy_never (promiseValue r) w)
      as [S C D R L T H N].
    split; simpl; auto.
  - split; simpl; auto.
Qed.

Lemma NotifyEvalComplete_never pThread pEval w :
  callback_never w (snd (NotifyEvalComplete pThread pEval w)).
Proof.
  destruct pThread as [thread|]; [|apply evalResult_reset_never].
  unfold NotifyEvalComplete. unfold_M. simpl.
  destruct (m_evalResult w) as [r|] eqn:Hr; [|apply callback_never_record].
  destruct (negb (threadId r =? snd (GetID thread)));
    [apply callback_never_record|].
  unfold promise_set_value. simpl.
  destruct (nth_error (shared w) (promiseValue r)) as [[|v|]|] eqn:Hp;
    try apply callback_never_record.
  simpl.
  eapply callback_never_trans; [|apply evalResult_reset_never].
  split; simpl; auto.
  - intros q s Hq Hs. eapply list_set_ready; eauto.
  - apply length_list_set.
Qed.

Lemma CancelEvalRunning_never w : callback_never w (CancelEvalRunning w).
Proof.
  unfold CancelEvalRunning.
  destruct (m_evalResult w) as [r|]; [|apply callback_never_refl].
  destruct (_ || _); split; simpl; auto.
Qed.

Lemma ManagedCallbackCustomNotification_never pThread w :
  callback_never w (snd (ManagedCallbackCustomNotification pThread w)).
Proof.
  unfold ManagedCallbackCustomNotification.
  destruct (FindEvalForThread pThread w) as [e|];
    [|apply callback_never_refl].
  destruct (FAILED (Abort e)), (FAILED (QueryInterface_ICorDebugEval2 e)),
    (FAILED (RudeAbort e)); split; simpl; auto.
Qed.

Lemma run_callback_never cb w : callback_never w (snd (run_callback cb w)).
Proof.
  destruct cb as [pThread pEval| |pThread]; simpl.
  - pose proof (NotifyEvalComplete_never pThread pEval w) as H.
    destruct (NotifyEvalComplete pThread pEval w) as [[[]|e| |] w']; exact H.
  - apply CancelEvalRunning_never.
  - apply ManagedCallbackCustomNotification_never.
Qed.

Lemma run_callbacks_never cbs w : callback_never w (snd (run_callbacks cbs w)).
Proof.
  revert w. induction cbs as [|cb cbs IH]; intros w; simpl.
  - apply callback_never_refl.
  - pose proof (run_callback_never cb w) as H. unfold bind.
    destruct (run_callback cb w) as [[[]|e| |] w1]; simpl in *; auto.
    eapply callback_never_trans; [exact H|apply IH].
Qed.

(** X3.  What no sequence of callbacks does, whatever the state it finds
    (armed or not, promise pending or not, even when a callback ends in an
    uncaught exception): it never arms the slot (the slot is as before or
    empty), never takes back [m_evalCanceled] or
    [m_evalCrossThreadDependency] once set, never changes a shared state
    that is ready (a delivered outcome or a broken promise stays), never
    creates or removes a shared state, and never touches the debug state of
    a thread, the notification switch or [evalTimeOut]. *)
Theorem callbacks_never :
  forall cbs w,
    let w' := snd (run_callbacks cbs w) in
    (m_evalResult w' = m_evalResult w \/ m_evalResult w' = None) /\
    (m_evalCanceled w = true -> m_evalCanceled w' = true) /\
    (m_evalCrossThreadDependency w = true ->
     m_evalCrossThreadDependency w' = true) /\
    (forall p s, nth_error (shared w) p = Some s -> s <> NotReady ->
                 nth_error (shared w') p = Some s) /\
    length (shared w') = length (shared w) /\
    evalTimeOut w' = evalTimeOut w /\
    threads w' = threads w /\
    customNotification w' = customNotification w.
Proof.
  intros cbs w w'. destruct (run_callbacks_never cbs w) as [S C D R L T H N].
  repeat split; auto.
Qed.

(** *** Callbacks that find no request *)

Lemma record_record l1 l2 w : record l2 (record l1 w) = record (l1 ++ l2) w.
Proof. unfold record; simpl. now rewrite app_assoc. Qed.

Lemma run_callback_idle cb w :
  m_evalResult w = None ->
  @run_callback headers cb w = (Returns tt, record (idle_calls cb) w).
Proof.
  intros Hi. destruct cb as [[thread|] pEval| |pThread];
    unfold run_callback, idle_calls.
  - rewrite NotifyEvalComplete_foreign; [reflexivity|].
    rewrite Hi. discriminate.
  - rewrite NotifyEvalComplete_null_thread, record_nil.
    unfold evalResult_reset. rewrite Hi.
    destruct w; simpl in *; subst; reflexivity.
  - unfold act, CancelEvalRunning. now rewrite Hi, record_nil.
  - unfold act, ManagedCallbackCustomNotification, FindEvalForThread.
    rewrite Hi, record_nil. now destruct (FAILED _).
Qed.

(** X4.  Callbacks that arrive while no request is armed (a late
    completion, a cancel with nothing to cancel, a notification, the reset)
    return normally and leave the object as it is: the slot stays empty, no
    flag is set, no promise is touched; the only engine calls are the
    [GetResult] calls of the completions that carry an evaluation. *)
Theorem callbacks_on_idle :
  forall cbs w,
    m_evalResult w = None ->
    run_callbacks cbs w = (Returns tt, record (flat_map idle_calls cbs) w).
Proof.
  induction cbs as [|cb cbs IH]; intros w Hi; simpl.
  - now rewrite record_nil.
  - unfold bind. rewrite (run_callback_idle cb w Hi).
    rewrite IH by exact Hi. now rewrite record_record.
Qed.

(** *** The flags at entry *)

Lemma at_WaitResult_with_flags iCorProcess a b c w :
  at_WaitResult iCorProcess (with_flags a b c w) = at_WaitResult iCorProcess w.
Proof.
  unfold at_WaitResult, with_flags, SetEnableCustomNotification.
  destruct (FAILED _); [reflexivity|]. simpl.
  destruct (SUCCEEDED _); reflexivity.
Qed.

(** X5.  [WaitEvalResult] starts from a clean slate: the values that
    [m_evalCanceled] and [m_evalCrossThreadDependency] have at entry (a
    cancellation or a cross-thread abort left from an earlier evaluation),
    and the value of [evalTimeOut], which is a local initialised to false,
    have no influence on what it returns; once the process and the thread id
    are obtained, they have no influence on the final state either. *)
Theorem WaitEvalResult_ignores_flags_at_entry :
  forall pThread ppEvalResult cbSetupEval env w canceled crossThread timedOut,
    let w0 := with_flags canceled crossThread timedOut w in
    fst (WaitEvalResult pThread ppEvalResult cbSetupEval env w0)
    = fst (WaitEvalResult pThread ppEvalResult cbSetupEval env w) /\
    (forall iCorProcess,
       FAILED (fst (GetProcess pThread)) = false ->
       snd (GetProcess pThread) = Some iCorProcess ->
       FAILED (fst (GetID pThread)) = false ->
       WaitEvalResult pThread ppEvalResult cbSetupEval env w0
       = WaitEvalResult pThread ppEvalResult cbSetupEval env w).
Proof.
  intros pThread pp cb env w a b c w0.
  assert (Hall : forall proc,
             FAILED (fst (GetProcess pThread)) = false ->
             snd (GetProcess pThread) = Some proc ->
             FAILED (fst (GetID pThread)) = false ->
             WaitEvalResult pThread pp cb env w0
             = WaitEvalResult pThread pp cb env w).
  { intros proc H1 H2 H3.
    destruct (FAILED (EnumerateThreads proc)) eqn:HE.
    - rewrite !(WaitEvalResult_null_enumerator _ _ _ _ _ _ H1 H2 H3 HE).
      unfold w0. now rewrite at_WaitResult_with_flags.
    - rewrite !(WaitEvalResult_unfold _ _ _ _ _ _ H1 H2 H3 HE).
      unfold w0. now rewrite at_WaitResult_with_flags. }
  split; [|exact Hall].
  destruct (FAILED (fst (GetProcess pThread))) eqn:H1;
    [unfold WaitEvalResult; rewrite H1; reflexivity|].
  destruct (snd (GetProcess pThread)) as [proc|] eqn:H2;
    [|unfold WaitEvalResult; rewrite H1, H2; reflexivity].
  destruct (FAILED (fst (GetID pThread))) eqn:H3;
    [unfold WaitEvalResult; rewrite H1, H2, H3; reflexivity|].
  now rewrite (Hall proc).
Qed.

(** *** The loop of ChangeThreadsState *)

Lemma SetDebugState_one_twice tid state t :
  SetDebugState_one tid state (SetDebugState_one tid state t)
  = SetDebugState_one tid state t.
Proof.
  unfold SetDebugState_one.
  destruct (SUCCEEDED (fst (GetID (fst t))) && _) eqn:E; simpl; rewrite E;
    [|reflexivity].
  destruct (FAILED (SetDebugState (fst t) state)) eqn:F; simpl; rewrite ?F;
    reflexivity.
Qed.

(** *** The switch and the threads across a whole call *)

Section CleanupFrame.

Variable tid : DWORD.

Let R := cleanup_frame tid.

Lemma cleanup_frame_refl w : R w w.
Proof. split; auto. Qed.

Lemma cleanup_frame_trans w1 w2 w3 : R w1 w2 -> R w2 w3 -> R w1 w3.
Proof.
  intros [A [B|B]] [C [D|D]]; split; try congruence.
  - left. congruence.
  - right. congruence.
  - right. congruence.
  - right. rewrite D, B, map_map. apply map_ext. intros t.
    apply SetDebugState_one_twice.
Qed.

Lemma cleanup_frame_same w w' :
  customNotification w' = customNotification w -> threads w' = threads w ->
  R w w'.
Proof. intros A B. split; auto. Qed.

Lemma keeps_ret {A} (a : A) : keeps R (ret a).
Proof. intros w. apply cleanup_frame_refl. Qed.

Lemma keeps_act f : (forall w, R w (f w)) -> keeps R (act f).
Proof. intros H w. apply H. Qed.

Lemma keeps_bind {A B} (m : M A) (k : A -> M B) :
  keeps R m -> (forall a, keeps R (k a)) -> keeps R (bind m k).
Proof.
  intros Hm Hk w. unfold bind. specialize (Hm w).
  destruct (m w) as [[a|e| |] w1]; simpl in *; auto.
  eapply cleanup_frame_trans; [exact Hm|apply Hk].
Qed.

Lemma keeps_try_catch {A} (body : M A) handler :
  keeps R body -> (forall e, keeps R (handler e)) ->
  keeps R (try_catch body handler).
Proof.
  intros Hb Hh w. unfold try_catch. specialize (Hb w).
  destruct (body w) as [[a|e| |] w1]; simpl in *; auto.
  eapply cleanup_frame_trans; [exact Hb|apply Hh].
Qed.

Lemma cleanup_frame_record l w : R w (record l w).
Proof. apply cleanup_frame_same; reflexivity. Qed.

Lemma cleanup_frame_reset x w : R w (evalResult_reset x w).
Proof.
  destruct (evalResult_reset_frame x w) as (_ & _ & T & _ & _ & N).
  now apply cleanup_frame_same.
Qed.

Lemma ChangeThreadsState_keeps iCorProcess :
  keeps R (ChangeThreadsState iCorProcess tid THREAD_RUN).
Proof.
  intros w. unfold ChangeThreadsState.
  destruct (FAILED (EnumerateThreads iCorProcess)); cbn [snd].
  - apply cleanup_frame_refl.
  - split; [reflexivity|right; reflexivity].
Qed.

Lemma run_callbacks_keeps cbs : keeps R (run_callbacks cbs).
Proof.
  intros w. destruct (run_callbacks_never cbs w) as [_ _ _ _ _ _ T N].
  now apply cleanup_frame_same.
Qed.

Lemma future_wait_for_keeps f ms window :
  keeps R (future_wait_for f ms window).
Proof.
  unfold future_wait_for.
  apply keeps_bind; [apply keeps_act, cleanup_frame_record|]. intros _.
  apply keeps_bind; [apply run_callbacks_keeps|]. intros _ w.
  apply cleanup_frame_refl.
Qed.

Lemma RunEval_keeps pProcess pThread e cb :
  keeps R (RunEval pProcess pThread e cb).
Proof.
  intros w. unfold RunEval. cbv zeta.
  assert (H0 : R w (set_shared (shared w ++ [NotReady]) w))
    by (apply cleanup_frame_same; reflexivity).
  destruct (negb NDEBUG && _); [exact H0|].
  match goal with
  | |- context [record [call_cbSetupEval _] (evalResult_reset ?x ?w0)] =>
      assert (H1 : R w (record [call_cbSetupEval (eval_id e)]
                          (evalResult_reset x w0)))
        by (eapply cleanup_frame_trans; [exact H0|];
            eapply cleanup_frame_trans;
              [apply cleanup_frame_reset|apply cleanup_frame_record])
  end.
  destruct (cb e) as [st|x| |]; try exact H1.
  destruct (FAILED st); simpl snd.
  - eapply cleanup_frame_trans; [exact H1|apply cleanup_frame_reset].
  - destruct (FAILED (Continue pProcess)); simpl snd.
    + eapply cleanup_frame_trans; [exact H1|].
      eapply cleanup_frame_trans;
        [apply cleanup_frame_record|apply cleanup_frame_reset].
    + eapply cleanup_frame_trans; [exact H1|apply cleanup_frame_record].
Qed.

Lemma WaitResult_primary_keeps iCorProcess e env f :
  keeps R (WaitResult_primary iCorProcess tid e env f).
Proof.
  unfold WaitResult_primary.
  apply keeps_bind; [apply future_wait_for_keeps|]. intros [|].
  - apply keeps_ret.
  - apply keeps_bind; [apply keeps_act, cleanup_frame_record|]. intros _.
    apply keeps_bind; [apply ChangeThreadsState_keeps|]. intros _.
    apply keeps_bind; [apply keeps_act, cleanup_frame_record|]. intros _.
    apply keeps_bind;
      [apply keeps_act; intros w; apply cleanup_frame_same; reflexivity|].
    intros _. apply keeps_act, cleanup_frame_record.
Qed.

Lemma WaitResult_grace_keeps ppEvalResult env f :
  keeps R (WaitResult_grace ppEvalResult env f).
Proof.
  unfold WaitResult_grace.
  apply keeps_bind; [apply future_wait_for_keeps|]. intros [|].
  - apply keeps_bind.
    + intros w. unfold future_get.
      destruct (nth_error (shared w) f) as [[| |]|]; apply cleanup_frame_refl.
    + intros d. destruct (FAILED (Status d)); [apply keeps_ret|].
      destruct ppEvalResult; apply keeps_ret.
  - apply keeps_bind; [apply keeps_act, cleanup_frame_record|]. intros _.
    apply keeps_bind; [apply run_callbacks_keeps|]. intros _.
    apply keeps_bind; [apply keeps_act, cleanup_frame_reset|]. intros _.
    apply keeps_ret.
Qed.

(** [WaitResult] after the suspension of the threads. *)
Lemma WaitResult_tail_keeps iCorProcess pThread ppEvalResult cb env :
  keeps R
    (act (record [call_CreateEval]) ;;
     if FAILED (fst (CreateEval pThread))
     then ret (fst (CreateEval pThread), ppEvalResult)
     else
       try_catch
         (r <- RunEval iCorProcess pThread (snd (CreateEval pThread)) cb ;;
          if FAILED (fst r) then ret (fst r, ppEvalResult)
          else
            WaitResult_primary iCorProcess tid (snd (CreateEval pThread)) env
              (snd r) ;;
            WaitResult_grace ppEvalResult env (snd r))
         (fun _ => ret (E_FAIL, ppEvalResult))).
Proof.
  apply keeps_bind; [apply keeps_act, cleanup_frame_record|]. intros _.
  destruct (FAILED (fst (CreateEval pThread))); [apply keeps_ret|].
  apply keeps_try_catch; [|intros _; apply keeps_ret].
  apply keeps_bind; [apply RunEval_keeps|]. intros r.
  destruct (FAILED (fst r)); [apply keeps_ret|].
  apply keeps_bind; [apply WaitResult_primary_keeps|]. intros _.
  apply WaitResult_grace_keeps.
Qed.

End CleanupFrame.

Lemma SetEnableCustomNotification_switch pProcess fEnable w :
  customNotification (snd (SetEnableCustomNotification pProcess fEnable w))
  = if FAILED (QueryInterface_ICorDebugProcess3 pProcess)
    then customNotification w
    else if SUCCEEDED (Process3_SetEnableCustomNotification pProcess fEnable)
         then fEnable else customNotification w.
Proof.
  unfold SetEnableCustomNotification.
  destruct (FAILED _); [reflexivity|]. simpl.
  now destruct (SUCCEEDED _).
Qed.

(** The switch and the threads when [WaitResult] has returned. *)
Lemma WaitResult_engine iCorProcess pThread tid ppEvalResult cb env w x w1 :
  WaitResult iCorProcess pThread tid ppEvalResult cb env w = (Returns x, w1) ->
  customNotification w1 = customNotification w /\
  map (SetDebugState_one tid THREAD_RUN) (threads w1)
  = map (SetDebugState_one tid THREAD_RUN)
      (map (SetDebugState_one tid THREAD_SUSPEND) (threads w)).
Proof.
  intros HW. pose proof (WaitResult_enumerated _ _ _ _ _ _ _ _ _ HW) as HE.
  unfold WaitResult in HW. unfold bind at 1 in HW.
  rewrite ChangeThreadsState_enumerated in HW by exact HE.
  pose proof (WaitResult_tail_keeps tid iCorProcess pThread ppEvalResult cb env
                (SetDebugState_all tid THREAD_SUSPEND w)) as [KN KT].
  rewrite HW in KN, KT. cbn [snd] in KN, KT.
  split; [exact KN|].
  cbn [threads SetDebugState_all record set_threads] in KT.
  destruct KT as [-> | ->]; [reflexivity|].
  rewrite map_map. apply map_ext. intros t. apply SetDebugState_one_twice.
Qed.

(** The switch and the threads when [WaitEvalResult] has returned after it
    obtained the process and the thread id. *)
Lemma WaitEvalResult_engine pThread ppEvalResult cb env w iCorProcess r w' :
  FAILED (fst (GetProcess pThread)) = false ->
  snd (GetProcess pThread) = Some iCorProcess ->
  FAILED (fst (GetID pThread)) = false ->
  WaitEvalResult pThread ppEvalResult cb env w = (Returns r, w') ->
  customNotification w'
  = (if FAILED (QueryInterface_ICorDebugProcess3 iCorProcess)
     then customNotification w
     else if SUCCEEDED (Process3_SetEnableCustomNotification iCorProcess false)
          then false
          else if SUCCEEDED
                    (Process3_SetEnableCustomNotification iCorProcess true)
               then true else customNotification w) /\
  threads w'
  = map (SetDebugState_one (snd (GetID pThread)) THREAD_RUN)
      (map (SetDebugState_one (snd (GetID pThread)) THREAD_SUSPEND)
         (threads w)).
Proof.
  intros H1 H2 H3 HW.
  destruct (FAILED (EnumerateThreads iCorProcess)) eqn:HE;
    [rewrite (WaitEvalResult_null_enumerator _ _ _ _ _ _ H1 H2 H3 HE) in HW;
     discriminate|].
  rewrite (WaitEvalResult_unfold _ _ _ _ _ _ H1 H2 H3 HE) in HW.
  destruct (WaitResult _ _ _ _ _ _ _) as [[r1|e| |] w1] eqn:EW;
    inversion HW.
  destruct (WaitResult_engine _ _ _ _ _ _ _ _ _ EW) as [KN KT].
  destruct (at_WaitResult_facts iCorProcess w)
    as (_ & _ & _ & _ & _ & T0 & _).
  unfold cleanup. split.
  - cbn [customNotification SetDebugState_all record set_threads].
    rewrite SetEnableCustomNotification_switch, KN.
    unfold at_WaitResult.
    cbn [customNotification set_evalCrossThreadDependency set_evalCanceled].
    rewrite SetEnableCustomNotification_switch.
    cbn [customNotification set_evalTimeOut].
    destruct (FAILED (QueryInterface_ICorDebugProcess3 iCorProcess));
      [reflexivity|].
    destruct (SUCCEEDED (Process3_SetEnableCustomNotification iCorProcess false));
      reflexivity.
  - cbn [threads SetDebugState_all record set_threads].
    destruct (SetEnableCustomNotification_flags iCorProcess false w1)
      as (_ & _ & _ & _ & _ & T1).
    rewrite T1, KT, T0. reflexivity.
Qed.

(** X7.  The engine's notification switch across a [WaitEvalResult] call
    that obtained the process and the thread id and returns, whatever
    happens in between: the switch changes through the two
    [SetEnableCustomNotification] calls only.  If [ICorDebugProcess3] cannot
    be obtained it is as at entry; if the engine accepts the final disable it
    is off; if the engine rejects the disable after accepting the enable it
    stays on; if it rejects both it is as at entry. *)
Theorem WaitEvalResult_notification_switch :
  forall pThread ppEvalResult cbSetupEval env w iCorProcess r w',
    FAILED (fst (GetProcess pThread)) = false ->
    snd (GetProcess pThread) = Some iCorProcess ->
    FAILED (fst (GetID pThread)) = false ->
    WaitEvalResult pThread ppEvalResult cbSetupEval env w = (Returns r, w') ->
    customNotification w'
    = (if FAILED (QueryInterface_ICorDebugProcess3 iCorProcess)
       then customNotification w
       else if SUCCEEDED (Process3_SetEnableCustomNotification iCorProcess false)
            then false
            else if SUCCEEDED
                      (Process3_SetEnableCustomNotification iCorProcess true)
                 then true else customNotification w).
Proof.
  intros pThread pp cb env w proc r w' H1 H2 H3 HW.
  exact (proj1 (WaitEvalResult_engine _ _ _ _ _ _ _ _ H1 H2 H3 HW)).
Qed.

(** *** The reset while WaitEvalResult waits *)

(** A wait during which, after foreign callbacks, the reset arrives finds
    the future ready with a broken promise. *)
Lemma future_wait_for_reset ms cbs pEval' rest w r :
  m_evalResult w = Some r ->
  nth_error (shared w) (promiseValue r) = Some NotReady ->
  forallb (foreign (threadId r)) cbs = true ->
  exists w',
    future_wait_for (promiseValue r) ms
      (cbs ++ cb_NotifyEvalComplete None pEval' :: rest) w
    = (Returns ready, w') /\
    m_evalResult w' = None /\
    nth_error (shared w') (promiseValue r) = Some BrokenPromise /\
    callback_frame (promiseValue r) (record [call_wait_for ms] w) w'.
Proof.
  intros Hr Hp Hf. set (f := promiseValue r).
  destruct (future_wait_for_frame f ms
              (cbs ++ cb_NotifyEvalComplete None pEval' :: rest) w)
    as (w' & E & F); [eapply in_flight_armed; eauto|].
  exists w'.
  assert (m_evalResult w' = None /\
          nth_error (shared w') f = Some BrokenPromise) as [Hn Hv].
  { unfold future_wait_for in E. unfold_M.
    rewrite run_callbacks_app in E. unfold bind in E.
    destruct (run_callbacks_foreign cbs (record [call_wait_for ms] w) r Hr Hf)
      as (w1 & E1 & R1 & S1).
    rewrite E1 in E. cbn [run_callbacks run_callback] in E.
    unfold bind at 1 in E.
    assert (Hp1 : nth_error (shared w1) (promiseValue r) = Some NotReady)
      by (rewrite S1; exact Hp).
    rewrite NotifyEvalComplete_null_thread in E.
    destruct (run_callbacks_frame f rest (evalResult_reset None w1))
      as (w3 & E3 & F3); [left; reflexivity|].
    rewrite E3 in E.
    assert (w3 = w') by congruence. subst w3.
    destruct (cf_idle _ _ _ F3 eq_refl) as (A & B & _).
    split; [exact A|]. rewrite B. unfold evalResult_reset. rewrite R1.
    simpl. now apply promise_destroy_pending. }
  rewrite E. unfold future_poll. rewrite Hv. auto.
Qed.


Lemma WaitResult_grace_reset ppEvalResult env cbs pEval' rest w r :
  m_evalResult w = Some r ->
  nth_error (shared w) (promiseValue r) = Some NotReady ->
  grace_window env = cbs ++ cb_NotifyEvalComplete None pEval' :: rest ->
  forallb (foreign (threadId r)) cbs = true ->
  exists w',
    WaitResult_grace ppEvalResult env (promiseValue r) w
    = (Throws broken_promise, w') /\
    m_evalResult w' = None /\
    nth_error (shared w') (promiseValue r) = Some BrokenPromise /\
    callback_frame (promiseValue r) (record [call_wait_for 5000] w) w'.
Proof.
  intros Hr Hp Hwin Hf. unfold WaitResult_grace. unfold bind at 1.
  rewrite Hwin.
  destruct (future_wait_for_reset 5000 cbs pEval' rest w r Hr Hp Hf)
    as (w' & E & N & V & F).
  rewrite E. unfold bind, future_get. rewrite V. exists w'. auto.
Qed.

Lemma E_FAIL_status w :
  final_status E_FAIL w = if evalTimeOut w then COR_E_TIMEOUT else E_FAIL.
Proof.
  unfold final_status.
  rewrite (failed_not_ABORTED _ E_FAIL_failed).
  now rewrite E_FAIL_not_UNEXPECTED.
Qed.



(** *** Failures before the wait *)

Lemma WaitResult_not_armed iCorProcess pThread tid ppEvalResult cb env w :
  FAILED (EnumerateThreads iCorProcess) = false ->
  m_evalResult w = None ->
  FAILED (fst (CreateEval pThread)) = false ->
  let e := snd (CreateEval pThread) in
  let w0 := record [call_CreateEval] (SetDebugState_all tid THREAD_SUSPEND w) in
  forall hr l,
    (FAILED (cb e) = true /\ hr = cb e /\ l = [call_cbSetupEval (eval_id e)]) \/
    (FAILED (cb e) = false /\ FAILED (Continue iCorProcess) = true /\
     hr = Continue iCorProcess /\
     l = [call_cbSetupEval (eval_id e); call_Continue]) ->
    exists w',
      WaitResult iCorProcess pThread tid ppEvalResult (returns_status cb) env w
      = (Returns (hr, ppEvalResult), w') /\
      m_evalResult w' = None /\
      shared w' = shared w ++ [BrokenPromise] /\
      calls w' = calls w0 ++ l /\
      threads w' = threads w0 /\
      evalTimeOut w' = evalTimeOut w.
Proof.
  intros HE Hi HC e w0 hr l Hcase. rewrite (WaitResult_head _ _ _ _ _ _ _ HE).
  cbv zeta. fold w0. rewrite HC. unfold try_catch. unfold bind at 1.
  assert (Hi0 : m_evalResult w0 = None) by exact Hi.
  rewrite (RunEval_idle _ _ _ _ w0 Hi0). cbv zeta. fold e.
  destruct Hcase as [(HS & -> & ->)|(HS & HK & -> & ->)].
  - rewrite HS. cbn [fst snd]. rewrite HS.
    eexists. split; [reflexivity|]. repeat split.
  - rewrite HS, HK. cbn [fst snd]. rewrite HK.
    eexists. split; [reflexivity|]. repeat split.
    cbn [calls set_evalResult set_shared]. rewrite !calls_record.
    cbn [calls set_evalResult set_shared]. now rewrite <- app_assoc.
Qed.

(** X9.  Every failure before the wait is returned as it is, with the
    output slot untouched and without any wait (for a setup callback that
    returns a status, and with thread enumeration succeeding where the
    threads are reached).  A failing [GetProcess], a null process
    ([E_FAIL]) or a failing [GetID] returns before anything is touched: no
    engine call, no flag reset, no thread suspended.  A failing
    [CreateEval] returns its status after the threads were suspended and
    set running again; no promise is created.  A failing setup callback or
    a failing [Continue] returns its status; the promise created for the
    request is broken, the slot is empty, and [Continue] is called only
    when the setup succeeded. *)
Theorem WaitEvalResult_fails_before_waiting :
  forall pThread ppEvalResult cb env w,
    let W := WaitEvalResult pThread ppEvalResult (returns_status cb) env w in
    let tid := snd (GetID pThread) in
    let e := snd (CreateEval pThread) in
    (FAILED (fst (GetProcess pThread)) = true ->
     W = (Returns (fst (GetProcess pThread), ppEvalResult), w)) /\
    (FAILED (fst (GetProcess pThread)) = false ->
     snd (GetProcess pThread) = None ->
     W = (Returns (E_FAIL, ppEvalResult), w)) /\
    (forall iCorProcess,
       FAILED (fst (GetProcess pThread)) = false ->
       snd (GetProcess pThread) = Some iCorProcess ->
       let before := calls_before_RunEval iCorProcess tid (threads w) in
       let after := calls_of_cleanup iCorProcess tid (threads w) in
       (FAILED (fst (GetID pThread)) = true ->
        W = (Returns (fst (GetID pThread), ppEvalResult), w)) /\
       (FAILED (fst (GetID pThread)) = false ->
        FAILED (EnumerateThreads iCorProcess) = false ->
        FAILED (fst (CreateEval pThread)) = true ->
        exists w',
          W = (Returns (fst (CreateEval pThread), ppEvalResult), w') /\
          calls w' = calls w ++ before ++ after /\
          shared w' = shared w /\ m_evalResult w' = m_evalResult w) /\
       (FAILED (fst (GetID pThread)) = false ->
        FAILED (EnumerateThreads iCorProcess) = false ->
        FAILED (fst (CreateEval pThread)) = false ->
        m_evalResult w = None ->
        FAILED (cb e) = true ->
        exists w',
          W = (Returns (cb e, ppEvalResult), w') /\
          calls w' = calls w ++ before ++ [call_cbSetupEval (eval_id e)]
                     ++ after /\
          shared w' = shared w ++ [BrokenPromise] /\ m_evalResult w' = None) /\
       (FAILED (fst (GetID pThread)) = false ->
        FAILED (EnumerateThreads iCorProcess) = false ->
        FAILED (fst (CreateEval pThread)) = false ->
        m_evalResult w = None ->
        FAILED (cb e) = false ->
        FAILED (Continue iCorProcess) = true ->
        exists w',
          W = (Returns (Continue iCorProcess, ppEvalResult), w') /\
          calls w' = calls w ++ before
                     ++ [call_cbSetupEval (eval_id e); call_Continue]
                     ++ after /\
          shared w' = shared w ++ [BrokenPromise] /\ m_evalResult w' = None)).
Proof.
  intros pThread pp cb env w W tid e. subst W.
  split; [|split].
  - intros H1. unfold WaitEvalResult. now rewrite H1.
  - intros H1 H2. unfold WaitEvalResult. now rewrite H1, H2.
  - intros proc H1 H2 before after.
    split; [intros H3; unfold WaitEvalResult; now rewrite H1, H2, H3|].
    destruct (at_WaitResult_facts proc w) as (N0 & T0 & _ & _ & S0 & TH0 & C0).
    assert (Hnot : forall hr l,
              m_evalResult w = None ->
              FAILED (fst (GetID pThread)) = false ->
              FAILED (EnumerateThreads proc) = false ->
              FAILED (fst (CreateEval pThread)) = false ->
              (FAILED (cb e) = true /\ hr = cb e /\
               l = [call_cbSetupEval (eval_id e)]) \/
              (FAILED (cb e) = false /\ FAILED (Continue proc) = true /\
               hr = Continue proc /\
               l = [call_cbSetupEval (eval_id e); call_Continue]) ->
              exists w',
                WaitEvalResult pThread pp (returns_status cb) env w
                = (Returns (hr, pp), w') /\
                calls w' = calls w ++ before ++ l ++ after /\
                shared w' = shared w ++ [BrokenPromise] /\
                m_evalResult w' = None).
    { intros hr l Hi H3 HE HC Hcase.
      rewrite (WaitEvalResult_unfold _ _ _ _ _ _ H1 H2 H3 HE).
      destruct (WaitResult_not_armed proc pThread tid pp cb env
                  (at_WaitResult proc w) HE) with (hr := hr) (l := l)
        as (w1 & E & N1 & S1 & C1 & TH1 & T1); auto; [congruence|].
      fold tid. rewrite E. cbn [fst snd].
      destruct (cleanup_facts proc tid w1) as (A & B & _).
      assert (HF : FAILED hr = true)
        by (destruct Hcase as [(? & -> & _)|(_ & ? & -> & _)]; assumption).
      rewrite final_status_failed; [|exact HF|congruence].
      eexists. split; [reflexivity|]. rewrite A, B, S1, S0.
      split; [|split; [reflexivity|exact N1]].
      rewrite cleanup_calls, C1, TH1, calls_record, calls_SetDebugState_all.
      cbn [threads record SetDebugState_all set_threads].
      rewrite C0, TH0, SetDebugState_calls_map.
      unfold before, after, calls_before_RunEval, calls_of_cleanup.
      rewrite <- !app_assoc. reflexivity. }
    split; [|split].
    + intros H3 HE HC.
      rewrite (WaitEvalResult_unfold _ _ _ _ _ _ H1 H2 H3 HE).
      rewrite (WaitResult_head _ _ _ _ _ _ _ HE). cbv zeta.
      rewrite HC. cbn [fst snd]. fold tid.
      set (w1 := record [call_CreateEval]
                   (SetDebugState_all tid THREAD_SUSPEND
                      (at_WaitResult proc w))).
      destruct (cleanup_facts proc tid w1) as (A & B & _).
      rewrite final_status_failed; [|exact HC|exact T0].
      eexists. split; [reflexivity|]. rewrite A, B.
      split; [|split; [exact S0|exact N0]].
      rewrite cleanup_calls. unfold w1.
      rewrite calls_record, calls_SetDebugState_all.
      cbn [threads record SetDebugState_all set_threads].
      rewrite C0, TH0, SetDebugState_calls_map.
      unfold before, after, calls_before_RunEval, calls_of_cleanup.
      rewrite <- !app_assoc. reflexivity.
    + intros H3 HE HC Hi HS. apply Hnot; auto.
    + intros H3 HE HC Hi HS HK. apply Hnot; auto.
Qed.

(** *** FindEvalForThread *)

Lemma FindEvalForThread_idle t w :
  m_evalResult w = None -> FindEvalForThread t w = None.
Proof.
  intros Hi. unfold FindEvalForThread. rewrite Hi. now destruct (FAILED _).
Qed.

(** X10.  [FindEvalForThread] against [RunEval] and the callbacks.  With no
    request armed it finds nothing.  After [RunEval] armed a request for
    [pThread], it gives the evaluation handed to [RunEval] exactly to the
    threads whose id can be read and equals the id [RunEval] read for
    [pThread], and null to every other thread; it keeps doing so through
    callbacks that are neither the completion for that id nor the reset;
    after [RunEval] failed (setup or [Continue]) and after the completion
    for that id it finds nothing. *)
Theorem FindEvalForThread_after_RunEval :
  forall pProcess pThread e cb w t,
    m_evalResult w = None ->
    let w' := snd (RunEval pProcess pThread e (returns_status cb) w) in
    FindEvalForThread t w = None /\
    (FAILED (cb e) = true \/ FAILED (Continue pProcess) = true ->
     FindEvalForThread t w' = None) /\
    (FAILED (cb e) = false -> FAILED (Continue pProcess) = false ->
     let found := if FAILED (fst (GetID t)) then None
                  else if snd (GetID pThread) =? snd (GetID t) then Some e
                       else None in
     FindEvalForThread t w' = found /\
     (forall cbs,
        forallb (foreign (snd (GetID pThread))) cbs = true ->
        FindEvalForThread t (snd (run_callbacks cbs w')) = found) /\
     (forall thread pEval',
        snd (GetID thread) = snd (GetID pThread) ->
        FindEvalForThread t
          (snd (run_callback (cb_NotifyEvalComplete (Some thread) pEval') w'))
        = None)).
Proof.
  intros proc pThread e cb w t Hi w'. subst w'.
  rewrite (RunEval_idle _ _ _ _ _ Hi). cbv zeta.
  split; [|split].
  - now apply FindEvalForThread_idle.
  - intros Hfail. apply FindEvalForThread_idle.
    destruct (FAILED (cb e)) eqn:HS; [reflexivity|].
    destruct Hfail as [Hf|Hf]; [discriminate|]. now rewrite Hf.
  - intros HS HK. rewrite HS, HK. cbn [snd].
    set (found := if FAILED (fst (GetID t)) then None
                  else if snd (GetID pThread) =? snd (GetID t) then Some e
                       else None).
    set (r := {| threadId := snd (GetID pThread); pEval := e;
                 promiseValue := length (shared w) |}).
    set (wa := record [call_Continue] _).
    assert (R : m_evalResult wa = Some r) by reflexivity.
    assert (P : nth_error (shared wa) (promiseValue r) = Some NotReady)
      by (simpl; apply nth_error_fresh).
    assert (Hfound : forall w1, m_evalResult w1 = Some r ->
                                FindEvalForThread t w1 = found).
    { intros w1 R1. unfold FindEvalForThread. rewrite R1. reflexivity. }
    split; [|split].
    + now apply Hfound.
    + intros cbs Hf.
      destruct (run_callbacks_foreign cbs wa r R Hf) as (w1 & E1 & R1 & _).
      rewrite E1. now apply Hfound.
    + intros thread pEval' Ht. unfold run_callback.
      rewrite (NotifyEvalComplete_matching thread pEval' wa r R (eq_sym Ht) P).
      now apply FindEvalForThread_idle.
Qed.

(** *** SetupCrossThreadDependencyNotificationClass *)

(** X11.  [SetupCrossThreadDependencyNotificationClass]: the notification
    type is looked up as the type named CrossThreadDependencyNotification
    nested in the type the first lookup found for
    System.Diagnostics.Debugger.  When one of the four steps before
    [Free()] fails (metadata interface, [QueryInterface], either lookup),
    its status is returned, the class stored before is kept and nothing is
    released.  When they all succeed, the class stored before is released
    and the member is what [GetClassFromToken] left for the nested token,
    also when [GetClassFromToken] fails: the old class is lost then.  Setup
    is repeatable: a second call with the same module returns the same
    status and leaves the same class stored as the first. *)
Theorem SetupCrossThreadDependencyNotificationClass_lookup :
  forall mdTypeDefNil pModule stored,
    let Setup := SetupCrossThreadDependencyNotificationClass mdTypeDefNil in
    let pMD := snd (QueryInterface_IMetaDataImport
                      (snd (GetMetaDataInterface pModule))) in
    let parent := FindTypeDefByName pMD strParentTypeDef mdTypeDefNil in
    let nested := FindTypeDefByName pMD strTypeDef (snd parent) in
    let lookups_fail :=
      FAILED (fst (GetMetaDataInterface pModule))
      || FAILED (fst (QueryInterface_IMetaDataImport
                        (snd (GetMetaDataInterface pModule))))
      || FAILED (fst parent) || FAILED (fst nested) in
    (lookups_fail = true ->
     FAILED (fst (fst (Setup pModule stored))) = true /\
     snd (fst (Setup pModule stored)) = stored /\
     snd (Setup pModule stored) = []) /\
    (lookups_fail = false ->
     Setup pModule stored
     = (fst (GetClassFromToken pModule (snd nested)),
        snd (GetClassFromToken pModule (snd nested)),
        match stored with Some c => [c] | None => [] end)) /\
    fst (Setup pModule (snd (fst (Setup pModule stored))))
    = fst (Setup pModule stored).
Proof.
  intros nil pModule stored Setup pMD parent nested lookups_fail.
  subst Setup lookups_fail nested parent pMD.
  unfold SetupCrossThreadDependencyNotificationClass. cbv zeta.
  destruct (FAILED (fst (GetMetaDataInterface pModule))) eqn:H1;
    cbn [orb fst snd];
    [split; [auto|split; [discriminate|reflexivity]]|].
  destruct (FAILED (fst (QueryInterface_IMetaDataImport _))) eqn:H2;
    cbn [orb fst snd];
    [split; [auto|split; [discriminate|reflexivity]]|].
  destruct (FAILED (fst (FindTypeDefByName _ strParentTypeDef nil))) eqn:H3;
    cbn [orb fst snd];
    [split; [auto|split; [discriminate|reflexivity]]|].
  destruct (FAILED (fst (FindTypeDefByName _ strTypeDef _))) eqn:H4;
    cbn [orb fst snd];
    [split; [auto|split; [discriminate|reflexivity]]|].
  split; [discriminate|split; reflexivity].
Qed.

(** *** Invariants through the monad *)

Section Invariant.

Variable J : World -> Prop.

Lemma preserves_bind {A B} (m : M A) (k : A -> M B) :
  keeps (preserves J) m -> (forall a, keeps (preserves J) (k a)) ->
  keeps (preserves J) (bind m k).
Proof.
  intros Hm Hk w. unfold bind. specialize (Hm w).
  destruct (m w) as [[a|e| |] w1]; simpl in *; auto.
  intros Hw. apply Hk, Hm, Hw.
Qed.

Lemma preserves_try_catch {A} (body : M A) handler :
  keeps (preserves J) body -> (forall e, keeps (preserves J) (handler e)) ->
  keeps (preserves J) (try_catch body handler).
Proof.
  intros Hb Hh w. unfold try_catch. specialize (Hb w).
  destruct (body w) as [[a|e| |] w1]; simpl in *; auto.
  intros Hw. apply Hh, Hb, Hw.
Qed.

Lemma preserves_ret {A} (a : A) : keeps (preserves J) (ret a).
Proof. intros w Hw. exact Hw. Qed.

Lemma preserves_act f :
  (forall w, J w -> J (f w)) -> keeps (preserves J) (act f).
Proof. intros H w Hw. apply H, Hw. Qed.

End Invariant.

(** *** One promise for one evaluation *)

Section OnePromise.

Variable before : list shared_state.

Let I := one_promise before.

Lemma one_promise_same w w' :
  m_evalResult w' = m_evalResult w -> shared w' = shared w ->
  preserves I w w'.
Proof. unfold preserves, I, one_promise. intros -> ->. auto. Qed.

Lemma one_promise_reset w : preserves I w (evalResult_reset None w).
Proof.
  intros (s & S & N & R). unfold evalResult_reset.
  destruct (m_evalResult w) as [r|] eqn:Hr.
  - unfold promise_destroy. rewrite (R r eq_refl), S, nth_error_fresh.
    destruct s as [|v|].
    + exists BrokenPromise. simpl. rewrite list_set_last.
      split; [reflexivity|].
      split; [intros _; discriminate|intros r' Hr'; discriminate].
    + exists (HasValue v). simpl. rewrite S.
      split; [reflexivity|].
      split; [intros _; discriminate|intros r' Hr'; discriminate].
    + exists BrokenPromise. simpl. rewrite S.
      split; [reflexivity|].
      split; [intros _; discriminate|intros r' Hr'; discriminate].
  - exists s. simpl. split; [exact S|].
    split; [intros _; now apply N|intros r' Hr'; discriminate].
Qed.

Lemma one_promise_NotifyEvalComplete pThread pEval w :
  preserves I w (snd (NotifyEvalComplete pThread pEval w)).
Proof.
  destruct pThread as [thread|]; [|apply one_promise_reset].
  unfold NotifyEvalComplete. unfold_M. cbn [snd].
  destruct (m_evalResult (record (GetResult_calls pEval) w)) as [r|] eqn:Hr;
    [|apply one_promise_same; reflexivity].
  destruct (negb (threadId r =? snd (GetID thread)));
    [apply one_promise_same; reflexivity|].
  intros (s & S & N & R). unfold promise_set_value.
  cbn [shared record].
  rewrite (R r Hr), S, nth_error_fresh.
  assert (Hsame : I (record (GetResult_calls pEval) w)).
  { exists s. split; [exact S|]. split; [exact N|exact R]. }
  destruct s as [|v|]; cbn [snd]; try exact Hsame.
  apply one_promise_reset.
  exists (HasValue (delivered pEval)). cbn [shared set_shared].
  rewrite list_set_last.
  split; [reflexivity|]. split; [intros _; discriminate|exact R].
Qed.

Lemma CancelEvalRunning_slot w :
  m_evalResult (CancelEvalRunning w) = m_evalResult w /\
  shared (CancelEvalRunning w) = shared w.
Proof.
  unfold CancelEvalRunning. destruct (m_evalResult w) as [r|] eqn:Hr; auto.
  destruct (_ || _); auto.
Qed.

Lemma ManagedCallbackCustomNotification_slot pThread w :
  let w' := snd (ManagedCallbackCustomNotification pThread w) in
  m_evalResult w' = m_evalResult w /\ shared w' = shared w.
Proof.
  unfold ManagedCallbackCustomNotification.
  destruct (FindEvalForThread pThread w) as [e|]; auto.
  destruct (FAILED (Abort e)), (FAILED (QueryInterface_ICorDebugEval2 e)),
    (FAILED (RudeAbort e)); auto.
Qed.

Lemma one_promise_run_callback cb w :
  preserves I w (snd (run_callback cb w)).
Proof.
  destruct cb as [pThread pEval| |pThread]; simpl.
  - pose proof (one_promise_NotifyEvalComplete pThread pEval w) as H.
    destruct (NotifyEvalComplete pThread pEval w) as [[[]|e| |] w']; exact H.
  - apply one_promise_same; apply CancelEvalRunning_slot.
  - apply one_promise_same; apply ManagedCallbackCustomNotification_slot.
Qed.

Lemma one_promise_act f :
  (forall w, m_evalResult (f w) = m_evalResult w /\ shared (f w) = shared w) ->
  keeps (preserves I) (act f).
Proof. intros H w. apply one_promise_same; apply H. Qed.

Lemma one_promise_run_callbacks cbs : keeps (preserves I) (run_callbacks cbs).
Proof.
  induction cbs as [|cb cbs IH]; simpl; [apply preserves_ret|].
  apply preserves_bind; [|intros _; exact IH].
  intros w. apply one_promise_run_callback.
Qed.

Lemma one_promise_future_wait_for f ms window :
  keeps (preserves I) (future_wait_for f ms window).
Proof.
  unfold future_wait_for.
  apply preserves_bind; [apply one_promise_act; split; reflexivity|]. intros _.
  apply preserves_bind; [apply one_promise_run_callbacks|]. intros _ w Hw.
  exact Hw.
Qed.

Lemma one_promise_ChangeThreadsState iCorProcess tid state :
  keeps (preserves I) (ChangeThreadsState iCorProcess tid state).
Proof.
  intros w. unfold ChangeThreadsState.
  destruct (FAILED (EnumerateThreads iCorProcess)); cbn [snd].
  - intros Hw. exact Hw.
  - apply one_promise_same; reflexivity.
Qed.

Lemma one_promise_WaitResult_primary iCorProcess tid e env f :
  keeps (preserves I) (WaitResult_primary iCorProcess tid e env f).
Proof.
  unfold WaitResult_primary.
  apply preserves_bind; [apply one_promise_future_wait_for|]. intros [|].
  - apply preserves_ret.
  - apply preserves_bind; [apply one_promise_act; split; reflexivity|].
    intros _.
    apply preserves_bind; [apply one_promise_ChangeThreadsState|]. intros _.
    repeat (apply preserves_bind; [|intros _]);
      apply one_promise_act; split; reflexivity.
Qed.

Lemma one_promise_WaitResult_grace ppEvalResult env f :
  keeps (preserves I) (WaitResult_grace ppEvalResult env f).
Proof.
  unfold WaitResult_grace.
  apply preserves_bind; [apply one_promise_future_wait_for|]. intros [|].
  - apply preserves_bind.
    + intros w Hw. unfold future_get.
      destruct (nth_error (shared w) f) as [[| |]|]; exact Hw.
    + intros d. destruct (FAILED (Status d)); [apply preserves_ret|].
      destruct ppEvalResult; apply preserves_ret.
  - apply preserves_bind; [apply one_promise_act; split; reflexivity|].
    intros _.
    apply preserves_bind; [apply one_promise_run_callbacks|]. intros _.
    apply preserves_bind; [intros w; apply one_promise_reset|]. intros _.
    apply preserves_ret.
Qed.

End OnePromise.

(** The promise of a call whose setup callback returns a status. *)
Lemma WaitEvalResult_one_promise_resolved :
  forall pThread ppEvalResult cb env w iCorProcess,
    m_evalResult w = None ->
    FAILED (fst (GetProcess pThread)) = false ->
    snd (GetProcess pThread) = Some iCorProcess ->
    FAILED (fst (GetID pThread)) = false ->
    FAILED (EnumerateThreads iCorProcess) = false ->
    exists r w',
      WaitEvalResult pThread ppEvalResult (returns_status cb) env w
      = (Returns r, w') /\
      (FAILED (fst (CreateEval pThread)) = true -> shared w' = shared w) /\
      (FAILED (fst (CreateEval pThread)) = false ->
       exists s, shared w' = shared w ++ [s] /\ s <> NotReady).
Proof.
  intros pThread pp cb env w proc Hi H1 H2 H3 HE.
  rewrite (WaitEvalResult_unfold _ _ _ _ _ _ H1 H2 H3 HE).
  destruct (at_WaitResult_facts proc w) as (N0 & _ & _ & _ & S0 & _).
  set (wq := at_WaitResult proc w) in *.
  set (tid := snd (GetID pThread)).
  assert (Hq : m_evalResult wq = None) by congruence.
  destruct (WaitResult_idle proc pThread tid pp cb env wq HE Hq)
    as (raw & out & w1 & E & N1 & Hfail & _).
  rewrite E.
  destruct (cleanup_facts proc tid w1) as (A & B & _).
  do 2 eexists. split; [reflexivity|]. rewrite B. split.
  - intros HC. destruct (Hfail HC) as (_ & _ & ->). exact S0.
  - intros HC.
    assert (HI : one_promise (shared w) w1).
    { destruct (FAILED (cb (snd (CreateEval pThread)))) eqn:HS;
        [|destruct (FAILED (Continue proc)) eqn:HK].
      - destruct (WaitResult_not_armed proc pThread tid pp cb env wq HE Hq HC
                    _ _ (or_introl (conj HS (conj eq_refl eq_refl))))
          as (w2 & E2 & N2 & S2 & _).
        assert (w2 = w1) by congruence. subst w2.
        exists BrokenPromise. rewrite S2, S0.
        split; [reflexivity|]. split; [intros _; discriminate|].
        intros r Hr. congruence.
      - destruct (WaitResult_not_armed proc pThread tid pp cb env wq HE Hq HC
                    _ _ (or_intror
                           (conj HS (conj HK (conj eq_refl eq_refl)))))
          as (w2 & E2 & N2 & S2 & _).
        assert (w2 = w1) by congruence. subst w2.
        exists BrokenPromise. rewrite S2, S0.
        split; [reflexivity|]. split; [intros _; discriminate|].
        intros r Hr. congruence.
      - rewrite (WaitResult_armed _ _ _ _ _ _ _ HE Hq HC HS HK) in E.
        cbv zeta in E.
        match type of E with
        | try_catch ?body ?handler ?wa = _ =>
            pose proof (preserves_try_catch (one_promise (shared w))
                          body handler) as K;
            specialize (K (preserves_bind (one_promise (shared w)) _ _
                             (one_promise_WaitResult_primary (shared w)
                                _ _ _ _ _)
                             (fun _ => one_promise_WaitResult_grace
                                         (shared w) _ _ _))
                          (fun _ => preserves_ret (one_promise (shared w)) _)
                          wa);
            rewrite E in K; apply K
        end.
        exists NotReady. cbn [shared armed record set_evalResult set_shared
                              SetDebugState_all set_threads].
        rewrite S0. split; [reflexivity|].
        split; [intros Hn; discriminate|].
        intros r Hr. inversion Hr. cbn [promiseValue armed_request].
        cbn [shared record SetDebugState_all set_threads]. now rewrite S0. }
    destruct HI as (s & S & N & _). exists s. split; [exact S|].
    now apply N.
Qed.

(** *** Who sets the flags *)





Section FlagInvariant.

Variable J : World -> Prop.
Variable quiet : Callback -> bool.

Hypothesis J_flags :
  forall w w',
    m_evalCanceled w' = m_evalCanceled w ->
    m_evalCrossThreadDependency w' = m_evalCrossThreadDependency w ->
    J w -> J w'.

Hypothesis J_quiet :
  forall cb w, quiet cb = true -> J w -> J (snd (run_callback cb w)).








End FlagInvariant.



(** *** The wait_for calls of WaitEvalResult *)

Lemma waits_app l1 l2 : waits (l1 ++ l2) = waits l1 ++ waits l2.
Proof.
  induction l1 as [|c l1 IH]; simpl; [reflexivity|].
  destruct c; rewrite ?IH; reflexivity.
Qed.

Lemma waits_none l : forallb not_wait l = true -> waits l = [].
Proof.
  induction l as [|c l IH]; simpl; [reflexivity|].
  intros H. apply andb_prop in H. destruct H as [Hc Hl].
  destruct c; simpl in Hc; try discriminate; auto.
Qed.

Lemma abort_calls_not_wait e : forallb not_wait (abort_calls e) = true.
Proof.
  eapply forallb_weaken; [apply callback_call_not_wait|].
  apply abort_calls_callback.
Qed.

Lemma WaitResult_primary_waits iCorProcess tid e env f w :
  FAILED (EnumerateThreads iCorProcess) = false ->
  in_flight f w ->
  exists w' l,
    WaitResult_primary iCorProcess tid e env f w = (Returns tt, w') /\
    in_flight f w' /\
    calls w' = calls w ++ call_wait_for 5000 :: l /\
    forallb not_wait l = true.
Proof.
  intros HE Hw. unfold WaitResult_primary. unfold bind at 1.
  destruct (future_wait_for_frame f 5000 (primary_window env) w Hw)
    as (w1 & E & F).
  rewrite E. pose proof (cf_in_flight _ _ _ F) as I1.
  destruct (cf_calls _ _ _ F) as (l1 & C1 & L1).
  rewrite calls_record, <- app_assoc in C1. simpl in C1.
  apply (forallb_weaken _ _ _ callback_call_not_wait) in L1.
  destruct (future_poll f w1).
  - exists w1, l1. auto.
  - exists (after_primary_timeout tid e w1),
      (l1 ++ [call_Stop]
       ++ flat_map (SetDebugState_call tid THREAD_RUN) (threads w1)
       ++ abort_calls e ++ [call_Continue]).
    split; [now apply primary_timeout_actions|]. split; [|split].
    + eapply in_flight_ext; [| |exact I1]; reflexivity.
    + unfold after_primary_timeout. rewrite !calls_record.
      cbn [calls set_evalTimeOut].
      rewrite calls_record, calls_SetDebugState_all, calls_record, C1.
      cbn [threads record]. rewrite <- !app_assoc. reflexivity.
    + rewrite !forallb_app, L1, SetDebugState_calls_not_wait,
        abort_calls_not_wait. reflexivity.
Qed.

(** X14.  The [wait_for] calls of one [WaitEvalResult].  Entered with the
    slot empty and given a setup callback that returns a status, once it
    has the process and the thread id and the thread enumeration succeeds,
    [WaitEvalResult] returns, and it has called [wait_for] exactly twice,
    each time with 5000, when the request was armed ([CreateEval], setup
    and [Continue] succeeded): the second call is made even when the first
    found the outcome, and there is no third.  When one of the three failed
    it has made no [wait_for] call at all. *)
Theorem WaitEvalResult_waits :
  forall pThread ppEvalResult cb env w iCorProcess,
    m_evalResult w = None ->
    FAILED (fst (GetProcess pThread)) = false ->
    snd (GetProcess pThread) = Some iCorProcess ->
    FAILED (fst (GetID pThread)) = false ->
    FAILED (EnumerateThreads iCorProcess) = false ->
    exists r w' l,
      WaitEvalResult pThread ppEvalResult (returns_status cb) env w
      = (Returns r, w') /\
      calls w' = calls w ++ l /\
      waits l
      = if FAILED (fst (CreateEval pThread))
           || FAILED (cb (snd (CreateEval pThread)))
           || FAILED (Continue iCorProcess)
        then [] else [5000; 5000].
Proof.
  intros pThread pp cb env w proc Hi H1 H2 H3 HE.
  set (tid := snd (GetID pThread)). set (e := snd (CreateEval pThread)).
  destruct (at_WaitResult_facts proc w) as (N0 & _ & _ & _ & S0 & TH0 & C0).
  assert (Hq : m_evalResult (at_WaitResult proc w) = None) by congruence.
  pose proof (notification_calls_not_wait proc true) as Hn1.
  pose proof (notification_calls_not_wait proc false) as Hn0.
  assert (Hfail : forall hr l w1,
            WaitResult proc pThread tid pp (returns_status cb) env
              (at_WaitResult proc w)
            = (Returns (hr, pp), w1) ->
            calls w1 = calls (record [call_CreateEval]
                                (SetDebugState_all tid THREAD_SUSPEND
                                   (at_WaitResult proc w))) ++ l ->
            forallb not_wait l = true ->
            exists r w' l',
              WaitEvalResult pThread pp (returns_status cb) env w
              = (Returns r, w') /\
              calls w' = calls w ++ l' /\ waits l' = []).
  { intros hr l w1 E C L.
    rewrite (WaitEvalResult_unfold _ _ _ _ _ _ H1 H2 H3 HE). fold tid.
    rewrite E. do 3 eexists. split; [reflexivity|].
    rewrite cleanup_calls, C, calls_record, calls_SetDebugState_all, C0.
    rewrite <- !app_assoc. split; [reflexivity|].
    apply waits_none.
    rewrite !forallb_app, Hn1, Hn0, L, !SetDebugState_calls_not_wait.
    reflexivity. }
  destruct (FAILED (fst (CreateEval pThread))) eqn:HC.
  - cbn [orb].
    destruct (WaitResult_idle proc pThread tid pp cb env _ HE Hq)
      as (raw & out & w1 & E & _ & Hf & _).
    destruct (Hf HC) as (-> & -> & ->).
    apply (Hfail _ [] _ E); [now rewrite app_nil_r|reflexivity].
  - cbn [orb]. fold e. destruct (FAILED (cb e)) eqn:HS.
    + cbn [orb].
      destruct (WaitResult_not_armed proc pThread tid pp cb env _ HE Hq HC
                  _ _ (or_introl (conj HS (conj eq_refl eq_refl))))
        as (w1 & E & _ & _ & C & _).
      apply (Hfail _ _ _ E C). reflexivity.
    + cbn [orb]. destruct (FAILED (Continue proc)) eqn:HK.
      * destruct (WaitResult_not_armed proc pThread tid pp cb env _ HE Hq HC
                    _ _ (or_intror
                           (conj HS (conj HK (conj eq_refl eq_refl)))))
          as (w1 & E & _ & _ & C & _).
        apply (Hfail _ _ _ E C). reflexivity.
      * rewrite (WaitEvalResult_armed _ _ _ _ _ _ Hi H1 H2 H3 HE HC HS HK).
        fold tid e.
        pose proof (at_primary_wait_calls proc pThread w) as CA.
        destruct (at_primary_wait_facts proc pThread w) as (R & P & _ & _).
        set (wa := at_primary_wait proc pThread w) in *.
        assert (Ia : in_flight (length (shared w)) wa)
          by (eapply in_flight_armed; eauto; reflexivity).
        destruct (WaitResult_primary_waits proc tid e env _ _ HE Ia)
          as (w1 & l1 & E1 & I1 & C1 & L1).
        destruct (WaitResult_grace_general pp env _ _ I1)
          as (o & w2 & E2 & [HoR Ho] & _ & _ & _ & (l2 & C2 & L2)).
        assert (Hraw : exists raw,
                  try_catch
                    (WaitResult_primary proc tid e env (length (shared w)) ;;
                     WaitResult_grace pp env (length (shared w)))
                    (fun _ => ret (E_FAIL, pp)) wa
                  = (Returns raw, w2)).
        { unfold try_catch, bind. rewrite E1, E2.
          destruct o as [raw|err| |]; [| |congruence|congruence];
            eexists; reflexivity. }
        destruct Hraw as (raw & EW). rewrite EW.
        do 3 eexists. split; [reflexivity|].
        rewrite cleanup_calls, C2, C1, CA. fold tid e.
        rewrite <- !app_assoc. split; [reflexivity|].
        rewrite !waits_app. cbn [waits].
        rewrite (waits_none _ Hn1), (waits_none _ Hn0),
          (waits_none _ L1), (waits_none _ L2),
          !(waits_none _ (SetDebugState_calls_not_wait _ _ _)).
        reflexivity.
Qed.

(** *** No completion during the primary wait: the three ends *)

(** C2, as the code has it.  For a call entered with the slot empty that
    armed its request (thread enumeration, [CreateEval], a setup callback
    that returns a status and [Continue] succeeding): when neither a
    completion for the evaluating thread nor the reset arrives during the
    primary [wait_for(5000)], the process is stopped, every thread is set
    running, [Abort] (and after its failure [RudeAbort]) is called, the
    process is continued and [wait_for(5000)] is called a second time; there
    is no third call.  [WaitEvalResult] returns, and the status it returns is
    a failure: [COR_E_TIMEOUT], [E_UNEXPECTED],
    [CORDBG_E_CANT_CALL_ON_THIS_THREAD] or [COR_E_OPERATIONCANCELED].  With
    neither a completion nor the reset in the second wait, the slot is
    cleared and the status is [E_UNEXPECTED], whatever arrives after that
    wait.  With the reset in the second wait the status is [COR_E_TIMEOUT].
    With a completion in the second wait, before any reset, the status is
    [COR_E_TIMEOUT], except that an outcome with status [E_UNEXPECTED] keeps
    it and that an outcome with the aborted status, fetched into an output
    slot, is translated by the two flags. *)
Theorem WaitEvalResult_primary_timeout :
  forall pThread ppEvalResult cb env w iCorProcess,
    m_evalResult w = None ->
    FAILED (fst (GetProcess pThread)) = false ->
    snd (GetProcess pThread) = Some iCorProcess ->
    FAILED (fst (GetID pThread)) = false ->
    FAILED (EnumerateThreads iCorProcess) = false ->
    FAILED (fst (CreateEval pThread)) = false ->
    FAILED (cb (snd (CreateEval pThread))) = false ->
    FAILED (Continue iCorProcess) = false ->
    forallb (foreign (snd (GetID pThread))) (primary_window env) = true ->
    let tid := snd (GetID pThread) in
    let e := snd (CreateEval pThread) in
    exists status out w',
      WaitEvalResult pThread ppEvalResult (returns_status cb) env w
      = (Returns (status, out), w') /\
      FAILED status = true /\
      (status = COR_E_TIMEOUT \/ status = E_UNEXPECTED \/
       status = CORDBG_E_CANT_CALL_ON_THIS_THREAD \/
       status = COR_E_OPERATIONCANCELED) /\
      m_evalResult w' = None /\
      (exists l0 l1 l2,
         calls w'
         = calls w ++ l0 ++ [call_wait_for 5000] ++ l1
           ++ [call_Stop]
           ++ flat_map (SetDebugState_call tid THREAD_RUN) (threads w)
           ++ abort_calls e
           ++ [call_Continue; call_wait_for 5000] ++ l2 /\
         forallb not_wait l0 = true /\ forallb callback_call l1 = true /\
         forallb not_wait l2 = true) /\
      (forallb (foreign tid) (grace_window env) = true ->
       status = E_UNEXPECTED /\ out = ppEvalResult) /\
      (forall cbs pEval' rest,
         grace_window env = cbs ++ cb_NotifyEvalComplete None pEval' :: rest ->
         forallb (foreign tid) cbs = true ->
         status = COR_E_TIMEOUT /\ out = ppEvalResult) /\
      (forall cbs thread pEval rest,
         grace_window env
         = cbs ++ cb_NotifyEvalComplete (Some thread) pEval :: rest ->
         forallb (foreign tid) cbs = true ->
         snd (GetID thread) = tid ->
         let d := delivered pEval in
         (Status d = E_UNEXPECTED -> status = E_UNEXPECTED) /\
         (Status d = CORDBG_S_FUNC_EVAL_ABORTED -> ppEvalResult <> None ->
          status = if m_evalCrossThreadDependency w'
                   then CORDBG_E_CANT_CALL_ON_THIS_THREAD
                   else if m_evalCanceled w' then COR_E_OPERATIONCANCELED
                        else COR_E_TIMEOUT) /\
         (Status d <> E_UNEXPECTED ->
          Status d <> CORDBG_S_FUNC_EVAL_ABORTED \/ ppEvalResult = None ->
          status = COR_E_TIMEOUT)).
Proof.
  intros pThread pp cb env w proc Hi H1 H2 H3 HE HC HS HK Hf tid e.
  rewrite (WaitEvalResult_armed _ _ _ _ _ _ Hi H1 H2 H3 HE HC HS HK).
  fold tid e.
  destruct (at_primary_wait_facts proc pThread w) as (R & P & T & TH).
  pose proof (at_primary_wait_calls proc pThread w) as CA.
  set (wa := at_primary_wait proc pThread w) in *.
  set (r := {| threadId := snd (GetID pThread);
               pEval := snd (CreateEval pThread);
               promiseValue := length (shared w) |}) in *.
  destruct (WaitResult_primary_foreign proc tid e env wa r HE R P Hf)
    as (w1 & E1 & R1 & S1 & F1).
  simpl promiseValue in *.
  set (wt := after_primary_timeout tid e w1) in *.
  assert (Rt : m_evalResult wt = Some r) by exact R1.
  assert (Pt : nth_error (shared wt) (length (shared w)) = Some NotReady).
  { unfold wt, after_primary_timeout.
    cbn [shared record set_evalTimeOut SetDebugState_all set_threads].
    now rewrite S1. }
  assert (Tt : evalTimeOut wt = true) by reflexivity.
  destruct (WaitResult_grace_general pp env (length (shared w)) wt)
    as (o & w2 & E2 & [HoR Ho] & N2 & _ & T2 & (l2 & C2 & L2));
    [eapply in_flight_armed; eauto|].
  rewrite Tt in T2.
  destruct (cleanup_facts proc tid w2) as (A & B & C & D).
  assert (Hraw : exists raw out,
            try_catch
              (WaitResult_primary proc tid e env (length (shared w)) ;;
               WaitResult_grace pp env (length (shared w)))
              (fun _ => ret (E_FAIL, pp)) wa
            = (Returns (raw, out), w2) /\
            (forall x, o = Returns x -> x = (raw, out)) /\
            (forall x, o = Throws x -> (raw, out) = (E_FAIL, pp))).
  { unfold try_catch, bind. rewrite E1. fold wt. rewrite E2.
    destruct o as [[raw out]|err| |]; [| |congruence|congruence].
    - exists raw, out. split; [reflexivity|]. split; [|discriminate].
      intros x Hx. congruence.
    - exists E_FAIL, pp. split; [reflexivity|]. split; [discriminate|].
      reflexivity. }
  destruct Hraw as (raw & out & EW & Huniq & Hthrown). rewrite EW.
  cbn [fst snd].
  destruct (final_status_timed_out raw w2 T2) as (FS & Codes).
  exists (final_status raw w2), out, (cleanup proc tid w2).
  split; [reflexivity|]. split; [exact FS|]. split; [exact Codes|].
  split; [congruence|]. rewrite C, D. split; [|split; [|split]].
  - destruct (cf_calls _ _ _ F1) as (l1 & C1 & L1).
    rewrite calls_record, CA in C1.
    exists (notification_calls proc true
            ++ flat_map (SetDebugState_call tid THREAD_SUSPEND) (threads w)
            ++ [call_CreateEval; call_cbSetupEval (eval_id e); call_Continue]),
      l1,
      (l2 ++ notification_calls proc false
       ++ flat_map (SetDebugState_call tid THREAD_RUN) (threads w2)).
    split; [|split; [|split]].
    + rewrite cleanup_calls, C2. unfold wt, after_primary_timeout.
      rewrite !calls_record. cbn [calls set_evalTimeOut].
      rewrite calls_record, calls_SetDebugState_all, calls_record, C1.
      cbn [threads record]. rewrite (cf_threads _ _ _ F1).
      cbn [threads record]. rewrite TH, SetDebugState_calls_map.
      fold tid e. rewrite <- !app_assoc. reflexivity.
    + rewrite !forallb_app, notification_calls_not_wait,
        SetDebugState_calls_not_wait. reflexivity.
    + exact L1.
    + rewrite !forallb_app, L2, notification_calls_not_wait,
        SetDebugState_calls_not_wait. reflexivity.
  - intros Hg.
    destruct (WaitResult_grace_foreign pp env wt r Rt Pt Hg)
      as (w3 & w4 & E3 & _).
    simpl promiseValue in E3. rewrite E3 in E2.
    assert (Ho' : o = Returns (E_UNEXPECTED, pp)) by congruence.
    specialize (Huniq _ Ho'). inversion Huniq; subst raw out.
    split; [|reflexivity]. unfold final_status. rewrite T2.
    now rewrite (failed_not_ABORTED _ E_UNEXPECTED_failed), Z.eqb_refl.
  - intros cbs pEval' rest Hwin Hcbs.
    destruct (WaitResult_grace_reset pp env cbs pEval' rest wt r
                Rt Pt Hwin Hcbs) as (w3 & E3 & _).
    simpl promiseValue in E3. rewrite E3 in E2.
    assert (Ho' : o = Throws broken_promise) by congruence.
    specialize (Hthrown _ Ho'). inversion Hthrown; subst raw out.
    split; [|reflexivity]. now rewrite E_FAIL_status, T2.
  - intros cbs thread pEval rest Hwin Hcbs Ht. set (d := delivered pEval).
    destruct (WaitResult_grace_completed pp env cbs thread pEval rest wt r
                Rt Pt Hwin Hcbs Ht) as (w3 & E3 & _).
    simpl promiseValue in E3. rewrite E3 in E2.
    assert (Ho' : o = Returns (fetched pp (delivered pEval))) by congruence.
    specialize (Huniq _ Ho'). fold d in Huniq.
    assert (Hr : raw = fst (fetched pp d)) by (rewrite Huniq; reflexivity).
    unfold final_status. rewrite T2, Hr. unfold fetched. split; [|split].
    + intros HU.
      assert (HF : FAILED (Status d) = true)
        by (rewrite HU; apply E_UNEXPECTED_failed).
      rewrite HF. cbn [fst]. rewrite (failed_not_ABORTED _ HF), HU.
      now rewrite Z.eqb_refl.
    + intros HA Hpp.
      assert (HF : FAILED (Status d) = false)
        by (rewrite HA; apply ABORTED_succeeded).
      rewrite HF. destruct pp as [h|]; [|congruence]. cbn [fst].
      now rewrite HA, Z.eqb_refl.
    + intros HU HA. apply Z.eqb_neq in HU.
      destruct (FAILED (Status d)) eqn:HF.
      * cbn [fst]. now rewrite (failed_not_ABORTED _ HF), HU.
      * destruct pp as [h|]; cbn [fst].
        -- destruct HA as [HA|HA]; [|discriminate].
           apply Z.eqb_neq in HA. now rewrite HA, HU.
        -- rewrite Z.eqb_sym, ABORTED_not_S_OK.
           now rewrite (succeeded_not_UNEXPECTED S_OK eq_refl).
Qed.

(** *** The flags after the callbacks of a wait *)

(** A callback that is neither the completion for the armed request nor the
    reset sets a flag exactly when it is the cancel, or the notification of
    the evaluating thread, and its abort succeeds. *)
Lemma run_callback_foreign_flags cb w r :
  m_evalResult w = Some r ->
  foreign (threadId r) cb = true ->
  m_evalCanceled (snd (run_callback cb w))
  = m_evalCanceled w || (is_cancel cb && abort_succeeds (pEval r)) /\
  m_evalCrossThreadDependency (snd (run_callback cb w))
  = m_evalCrossThreadDependency w
    || (notifies (threadId r) cb && abort_succeeds (pEval r)).
Proof.
  intros Hr Hf. destruct cb as [[thread|] pEval| |pThread];
    unfold run_callback; simpl in Hf.
  - rewrite NotifyEvalComplete_foreign.
    + cbn. now rewrite !orb_false_r.
    + intros r' Hr' E. rewrite Hr in Hr'. inversion Hr'; subst r'.
      rewrite E, Z.eqb_refl in Hf. discriminate.
  - discriminate.
  - unfold act. cbn [snd is_cancel notifies andb].
    unfold CancelEvalRunning. rewrite Hr.
    fold (abort_succeeds (pEval r)).
    destruct (abort_succeeds (pEval r)); cbn;
      now rewrite ?orb_true_r, ?orb_false_r.
  - unfold act. cbn [snd is_cancel notifies andb].
    unfold ManagedCallbackCustomNotification, FindEvalForThread.
    rewrite Hr. unfold abort_succeeds. rewrite !SUCCEEDED_not_FAILED.
    destruct (FAILED (fst (GetID pThread))); cbn;
      [now rewrite !orb_false_r|].
    destruct (threadId r =? snd (GetID pThread)); cbn;
      [|now rewrite !orb_false_r].
    destruct (FAILED (Abort (pEval r))),
      (FAILED (QueryInterface_ICorDebugEval2 (pEval r))),
      (FAILED (RudeAbort (pEval r))); cbn;
      now rewrite ?orb_true_r, ?orb_false_r.
Qed.

Lemma run_callbacks_foreign_flags cbs w r :
  m_evalResult w = Some r ->
  forallb (foreign (threadId r)) cbs = true ->
  m_evalCanceled (snd (run_callbacks cbs w))
  = m_evalCanceled w || (existsb is_cancel cbs && abort_succeeds (pEval r)) /\
  m_evalCrossThreadDependency (snd (run_callbacks cbs w))
  = m_evalCrossThreadDependency w
    || (existsb (notifies (threadId r)) cbs && abort_succeeds (pEval r)).
Proof.
  revert w. induction cbs as [|cb cbs IH]; intros w Hr Hf.
  - cbn. now rewrite !orb_false_r.
  - cbn [forallb] in Hf. apply andb_prop in Hf. destruct Hf as [Hcb Hcbs].
    destruct (run_callback_foreign cb w r Hr Hcb) as (w1 & E1 & R1 & S1).
    destruct (run_callback_foreign_flags cb w r Hr Hcb) as [C1 D1].
    rewrite E1 in C1, D1. cbn [snd] in C1, D1.
    destruct (IH w1 R1 Hcbs) as [C2 D2].
    cbn [run_callbacks existsb]. unfold bind. rewrite E1.
    rewrite C2, D2, C1, D1, !andb_orb_distrib_l, !orb_assoc. auto.
Qed.

(** The flags when the wait returns in which, after such callbacks, the
    completion for the armed request arrived. *)
Lemma future_wait_for_completed_flags ms cbs thread done rest w r w' :
  m_evalResult w = Some r ->
  nth_error (shared w) (promiseValue r) = Some NotReady ->
  forallb (foreign (threadId r)) cbs = true ->
  snd (GetID thread) = threadId r ->
  future_wait_for (promiseValue r) ms
    (cbs ++ cb_NotifyEvalComplete (Some thread) done :: rest) w
  = (Returns ready, w') ->
  m_evalCanceled w'
  = m_evalCanceled w || (existsb is_cancel cbs && abort_succeeds (pEval r)) /\
  m_evalCrossThreadDependency w'
  = m_evalCrossThreadDependency w
    || (existsb (notifies (threadId r)) cbs && abort_succeeds (pEval r)).
Proof.
  intros Hr Hp Hf Ht E. unfold future_wait_for in E. unfold_M.
  rewrite run_callbacks_app in E. unfold bind in E.
  destruct (run_callbacks_foreign cbs (record [call_wait_for ms] w) r Hr Hf)
    as (w1 & E1 & R1 & S1).
  destruct (run_callbacks_foreign_flags cbs (record [call_wait_for ms] w) r
              Hr Hf) as [C1 D1].
  rewrite E1 in C1, D1. cbn [snd m_evalCanceled m_evalCrossThreadDependency
                             record] in C1, D1.
  rewrite E1 in E. cbn [run_callbacks run_callback] in E.
  unfold bind at 1 in E.
  assert (Hp1 : nth_error (shared w1) (promiseValue r) = Some NotReady)
    by (rewrite S1; exact Hp).
  rewrite (NotifyEvalComplete_matching thread done w1 r R1 (eq_sym Ht) Hp1)
    in E.
  match type of E with
  | context [run_callbacks rest ?w2] =>
      destruct (run_callbacks_frame (promiseValue r) rest w2)
        as (w3 & E3 & F3); [left; reflexivity|];
      rewrite E3 in E;
      assert (w3 = w') by congruence; subst w3;
      destruct (cf_idle _ _ _ F3 eq_refl) as (_ & _ & C3 & D3)
  end.
  rewrite C3, D3. cbn [m_evalCanceled m_evalCrossThreadDependency
                       set_evalResult set_shared record].
  auto.
Qed.

(** The flags when a wait times out during which only such callbacks
    arrived. *)
Lemma future_wait_for_foreign_flags ms window w r w' :
  m_evalResult w = Some r ->
  forallb (foreign (threadId r)) window = true ->
  future_wait_for (promiseValue r) ms window w = (Returns timeout, w') ->
  m_evalCanceled w'
  = m_evalCanceled w
    || (existsb is_cancel window && abort_succeeds (pEval r)) /\
  m_evalCrossThreadDependency w'
  = m_evalCrossThreadDependency w
    || (existsb (notifies (threadId r)) window && abort_succeeds (pEval r)).
Proof.
  intros Hr Hf E. unfold future_wait_for in E. unfold_M.
  destruct (run_callbacks_foreign window (record [call_wait_for ms] w) r Hr Hf)
    as (w1 & E1 & R1 & S1).
  destruct (run_callbacks_foreign_flags window (record [call_wait_for ms] w) r
              Hr Hf) as [C1 D1].
  rewrite E1 in C1, D1, E. cbn [snd m_evalCanceled m_evalCrossThreadDependency
                             record] in C1, D1.
  assert (w1 = w') by congruence. subst w1. auto.
Qed.

(** The call whose request is armed and completed during the primary wait:
    what it returns, and the flags the translation reads. *)
Lemma WaitEvalResult_completed_flags pThread ppEvalResult cb env w iCorProcess
    cbs thread done rest :
  m_evalResult w = None ->
  FAILED (fst (GetProcess pThread)) = false ->
  snd (GetProcess pThread) = Some iCorProcess ->
  FAILED (fst (GetID pThread)) = false ->
  FAILED (EnumerateThreads iCorProcess) = false ->
  FAILED (fst (CreateEval pThread)) = false ->
  FAILED (cb (snd (CreateEval pThread))) = false ->
  FAILED (Continue iCorProcess) = false ->
  primary_window env
  = cbs ++ cb_NotifyEvalComplete (Some thread) done :: rest ->
  forallb (foreign (snd (GetID pThread))) cbs = true ->
  snd (GetID thread) = snd (GetID pThread) ->
  let tid := snd (GetID pThread) in
  let e := snd (CreateEval pThread) in
  let raw := fetched ppEvalResult (delivered done) in
  exists w2,
    WaitEvalResult pThread ppEvalResult (returns_status cb) env w
    = (Returns (final_status (fst raw) w2, snd raw),
       cleanup iCorProcess tid w2) /\
    m_evalResult w2 = None /\
    evalTimeOut w2 = false /\
    m_evalCanceled w2 = existsb is_cancel cbs && abort_succeeds e /\
    m_evalCrossThreadDependency w2
    = existsb (notifies tid) cbs && abort_succeeds e.
Proof.
  intros Hi H1 H2 H3 HE HC HS HK Hwin Hf Ht tid e raw.
  rewrite (WaitEvalResult_armed _ _ _ _ _ _ Hi H1 H2 H3 HE HC HS HK).
  destruct (at_primary_wait_facts iCorProcess pThread w) as (R & P & T & _).
  destruct (at_primary_wait_flags iCorProcess pThread w) as (X & Y).
  set (wa := at_primary_wait iCorProcess pThread w) in *.
  set (r := {| threadId := snd (GetID pThread);
               pEval := snd (CreateEval pThread);
               promiseValue := length (shared w) |}) in *.
  destruct (future_wait_for_completed 5000 cbs thread done rest wa r
              R P Hf Ht) as (w1 & E1 & N1 & V1 & F1).
  destruct (future_wait_for_completed_flags 5000 cbs thread done rest wa r w1
              R P Hf Ht E1) as [C1 D1].
  rewrite X in C1. rewrite Y in D1. cbn [orb pEval threadId] in C1, D1.
  destruct (WaitResult_grace_ready ppEvalResult env (promiseValue r) w1 _
              N1 V1) as (w2 & E2 & N2 & V2 & F2).
  destruct (cf_idle _ _ _ F2 N1) as (_ & _ & C2 & D2).
  cbn [m_evalCanceled m_evalCrossThreadDependency record] in C2, D2.
  simpl promiseValue in *.
  unfold try_catch, bind at 1. unfold WaitResult_primary, bind at 1.
  rewrite Hwin, E1. unfold ret at 1. rewrite E2.
  exists w2. split; [reflexivity|]. split; [exact N2|].
  split; [|split; [rewrite C2, C1|rewrite D2, D1]; reflexivity].
  rewrite (cf_evalTimeOut _ _ _ F2), evalTimeOut_record.
  rewrite (cf_evalTimeOut _ _ _ F1), evalTimeOut_record. exact T.
Qed.

(** The call whose request is armed and completed only during the second
    wait: what it returns, and the flags the translation reads. *)
Lemma WaitEvalResult_completed_late_flags pThread ppEvalResult cb env w
    iCorProcess cbs thread done rest :
  m_evalResult w = None ->
  FAILED (fst (GetProcess pThread)) = false ->
  snd (GetProcess pThread) = Some iCorProcess ->
  FAILED (fst (GetID pThread)) = false ->
  FAILED (EnumerateThreads iCorProcess) = false ->
  FAILED (fst (CreateEval pThread)) = false ->
  FAILED (cb (snd (CreateEval pThread))) = false ->
  FAILED (Continue iCorProcess) = false ->
  forallb (foreign (snd (GetID pThread))) (primary_window env) = true ->
  grace_window env
  = cbs ++ cb_NotifyEvalComplete (Some thread) done :: rest ->
  forallb (foreign (snd (GetID pThread))) cbs = true ->
  snd (GetID thread) = snd (GetID pThread) ->
  let tid := snd (GetID pThread) in
  let e := snd (CreateEval pThread) in
  let raw := fetched ppEvalResult (delivered done) in
  let arrived := primary_window env ++ cbs in
  exists w2,
    WaitEvalResult pThread ppEvalResult (returns_status cb) env w
    = (Returns (final_status (fst raw) w2, snd raw),
       cleanup iCorProcess tid w2) /\
    m_evalResult w2 = None /\
    evalTimeOut w2 = true /\
    m_evalCanceled w2 = existsb is_cancel arrived && abort_succeeds e /\
    m_evalCrossThreadDependency w2
    = existsb (notifies tid) arrived && abort_succeeds e.
Proof.
  intros Hi H1 H2 H3 HE HC HS HK Hf Hwin Hg Ht tid e raw arrived.
  rewrite (WaitEvalResult_armed _ _ _ _ _ _ Hi H1 H2 H3 HE HC HS HK).
  destruct (at_primary_wait_facts iCorProcess pThread w) as (R & P & T & _).
  destruct (at_primary_wait_flags iCorProcess pThread w) as (X & Y).
  set (wa := at_primary_wait iCorProcess pThread w) in *.
  set (r := {| threadId := snd (GetID pThread);
               pEval := snd (CreateEval pThread);
               promiseValue := length (shared w) |}) in *.
  destruct (future_wait_for_foreign 5000 (primary_window env) wa r R P Hf)
    as (w1 & E1 & R1 & S1 & F1).
  destruct (future_wait_for_foreign_flags 5000 (primary_window env) wa r w1
              R Hf E1) as [C1 D1].
  rewrite X in C1. rewrite Y in D1. cbn [orb pEval threadId] in C1, D1.
  set (wt := after_primary_timeout tid e w1).
  assert (Rt : m_evalResult wt = Some r) by exact R1.
  assert (Pt : nth_error (shared wt) (promiseValue r) = Some NotReady).
  { unfold wt, after_primary_timeout.
    cbn [shared record set_evalTimeOut SetDebugState_all set_threads].
    rewrite S1. exact P. }
  destruct (future_wait_for_completed 5000 cbs thread done rest wt r
              Rt Pt Hg Ht) as (w2 & E2 & N2 & V2 & F2).
  destruct (future_wait_for_completed_flags 5000 cbs thread done rest wt r w2
              Rt Pt Hg Ht E2) as [C2 D2].
  change (m_evalCanceled wt) with (m_evalCanceled w1) in C2.
  change (m_evalCrossThreadDependency wt)
    with (m_evalCrossThreadDependency w1) in D2.
  cbn [pEval threadId] in C2, D2.
  simpl promiseValue in *.
  unfold try_catch, bind at 1. unfold WaitResult_primary, bind at 1.
  rewrite E1. fold tid e.
  rewrite (primary_timeout_actions iCorProcess tid e w1 HE). fold wt.
  unfold WaitResult_grace, bind at 1. rewrite Hwin, E2.
  unfold bind, future_get. rewrite V2.
  exists w2. split.
  - unfold raw, fetched.
    destruct (FAILED (Status (delivered done))); [|destruct ppEvalResult];
      reflexivity.
  - split; [exact N2|]. split; [|split].
    + rewrite (cf_evalTimeOut _ _ _ F2), evalTimeOut_record. reflexivity.
    + unfold arrived. rewrite C2, C1, existsb_app, andb_orb_distrib_l.
      reflexivity.
    + unfold arrived. rewrite D2, D1, existsb_app, andb_orb_distrib_l.
      reflexivity.
Qed.

(** *** A cancellation by the user, end to end *)

(** X2.  A cancellation by the user, end to end.  For a call entered with
    the slot empty that armed its request (thread enumeration, [CreateEval],
    a setup callback that returns a status and [Continue] succeeding) and
    whose evaluation completes for the evaluating thread with the aborted
    status, after callbacks that are neither a completion for that thread
    nor the reset: at return [m_evalCanceled] is true exactly when
    [CancelEvalRunning] was among them and an abort on the evaluation
    succeeds, and [m_evalCrossThreadDependency] is true exactly when the
    custom notification of the evaluating thread was among them and an abort
    succeeds.  With an output slot the delivered handle is stored and the
    status is [CORDBG_E_CANT_CALL_ON_THIS_THREAD] when the second flag is
    set, else [COR_E_OPERATIONCANCELED] when the first is set, else
    [COR_E_TIMEOUT]: whether the completion arrives during the primary wait
    or, the primary wait having seen only such callbacks, during the second.
    With no output slot the flags do not reach the status: it is [S_OK] when
    the completion arrives during the primary wait and [COR_E_TIMEOUT] when
    it arrives during the second. *)
Theorem WaitEvalResult_user_cancel :
  forall pThread ppEvalResult cb env w iCorProcess cbs thread done rest,
    m_evalResult w = None ->
    FAILED (fst (GetProcess pThread)) = false ->
    snd (GetProcess pThread) = Some iCorProcess ->
    FAILED (fst (GetID pThread)) = false ->
    FAILED (EnumerateThreads iCorProcess) = false ->
    FAILED (fst (CreateEval pThread)) = false ->
    FAILED (cb (snd (CreateEval pThread))) = false ->
    FAILED (Continue iCorProcess) = false ->
    forallb (foreign (snd (GetID pThread))) cbs = true ->
    snd (GetID thread) = snd (GetID pThread) ->
    Status (delivered done) = CORDBG_S_FUNC_EVAL_ABORTED ->
    let tid := snd (GetID pThread) in
    let e := snd (CreateEval pThread) in
    let translated (arrived : list Callback) :=
      if existsb (notifies tid) arrived && abort_succeeds e
      then CORDBG_E_CANT_CALL_ON_THIS_THREAD
      else if existsb is_cancel arrived && abort_succeeds e
           then COR_E_OPERATIONCANCELED else COR_E_TIMEOUT in
    let flags (arrived : list Callback) (w' : World) :=
      m_evalCanceled w' = existsb is_cancel arrived && abort_succeeds e /\
      m_evalCrossThreadDependency w'
      = existsb (notifies tid) arrived && abort_succeeds e /\
      m_evalResult w' = None in
    (primary_window env
     = cbs ++ cb_NotifyEvalComplete (Some thread) done :: rest ->
     exists w',
       WaitEvalResult pThread ppEvalResult (returns_status cb) env w
       = (Returns
            match ppEvalResult with
            | None => (S_OK, None)
            | Some _ => (translated cbs, Some (iCorEval (delivered done)))
            end, w') /\
       flags cbs w') /\
    (forallb (foreign tid) (primary_window env) = true ->
     grace_window env
     = cbs ++ cb_NotifyEvalComplete (Some thread) done :: rest ->
     exists w',
       WaitEvalResult pThread ppEvalResult (returns_status cb) env w
       = (Returns
            match ppEvalResult with
            | None => (COR_E_TIMEOUT, None)
            | Some _ => (translated (primary_window env ++ cbs),
                         Some (iCorEval (delivered done)))
            end, w') /\
       flags (primary_window env ++ cbs) w').
Proof.
  intros pThread pp cb env w proc cbs thread done rest
    Hi H1 H2 H3 HE HC HS HK Hf Ht Hst tid e translated flags.
  split.
  - intros Hwin.
    destruct (WaitEvalResult_completed_flags pThread pp cb env w proc cbs
                thread done rest Hi H1 H2 H3 HE HC HS HK Hwin Hf Ht)
      as (w2 & E & N & T & C & D).
    destruct (cleanup_facts proc tid w2) as (A1 & _ & A3 & A4).
    exists (cleanup proc tid w2). unfold flags. rewrite A1, A3, A4.
    split; [|auto]. rewrite E. f_equal. f_equal.
    unfold fetched. rewrite Hst, ABORTED_succeeded.
    unfold final_status, translated. rewrite D, C, T. fold tid e.
    destruct pp as [h|]; cbn [fst snd].
    + now rewrite Z.eqb_refl.
    + now rewrite Z.eqb_sym, ABORTED_not_S_OK.
  - intros Hp Hwin.
    destruct (WaitEvalResult_completed_late_flags pThread pp cb env w proc
                cbs thread done rest Hi H1 H2 H3 HE HC HS HK Hp Hwin Hf Ht)
      as (w2 & E & N & T & C & D).
    destruct (cleanup_facts proc tid w2) as (A1 & _ & A3 & A4).
    exists (cleanup proc tid w2). unfold flags. rewrite A1, A3, A4.
    split; [|auto]. rewrite E. f_equal. f_equal.
    unfold fetched. rewrite Hst, ABORTED_succeeded.
    unfold final_status, translated. rewrite D, C, T. fold tid e.
    destruct pp as [h|]; cbn [fst snd].
    + now rewrite Z.eqb_refl.
    + rewrite Z.eqb_sym, ABORTED_not_S_OK.
      now rewrite (succeeded_not_UNEXPECTED S_OK eq_refl).
Qed.

(** *** CancelEvalRunning *)


(** *** A setup callback that is left by an exception *)

(** [RunEval] is left right after the request was stored.  A
    [std::future_error] is caught by [WaitResult]: [WaitEvalResult] returns
    [E_FAIL] after its last two steps.  Any other exception leaves
    [WaitEvalResult] as well, in the world the callback was called in. *)
Lemma WaitEvalResult_setup_exception pThread ppEvalResult cbSetupEval env w
    iCorProcess :
  m_evalResult w = None ->
  FAILED (fst (GetProcess pThread)) = false ->
  snd (GetProcess pThread) = Some iCorProcess ->
  FAILED (fst (GetID pThread)) = false ->
  FAILED (EnumerateThreads iCorProcess) = false ->
  FAILED (fst (CreateEval pThread)) = false ->
  let ws := at_setup_callback iCorProcess pThread w in
  match cbSetupEval (snd (CreateEval pThread)) with
  | Returns _ => True
  | Throws _ =>
      WaitEvalResult pThread ppEvalResult cbSetupEval env w
      = (Returns (E_FAIL, ppEvalResult),
         cleanup iCorProcess (snd (GetID pThread)) ws)
  | Raises =>
      WaitEvalResult pThread ppEvalResult cbSetupEval env w = (Raises, ws)
  | Terminates =>
      WaitEvalResult pThread ppEvalResult cbSetupEval env w = (Terminates, ws)
  end.
Proof.
  intros Hi H1 H2 H3 HE HC ws.
  destruct (cbSetupEval (snd (CreateEval pThread))) as [st|x| |] eqn:Hcb;
    [exact I| | |];
    rewrite (WaitEvalResult_unfold _ _ _ _ _ _ H1 H2 H3 HE);
    rewrite (WaitResult_head _ _ _ _ _ _ _ HE); cbv zeta; rewrite HC;
    unfold try_catch; unfold bind at 1;
    (rewrite RunEval_idle_any
       by (cbn [m_evalResult record SetDebugState_all set_threads];
           rewrite at_WaitResult_slot; exact Hi));
    cbv zeta; rewrite Hcb; try reflexivity.
  unfold ret. cbn [fst snd]. rewrite E_FAIL_status.
  cbn [evalTimeOut record set_evalResult set_shared SetDebugState_all
       set_threads].
  rewrite (proj1 (proj2 (at_WaitResult_facts iCorProcess w))). reflexivity.
Qed.

(** What the world the setup callback is called in looks like. *)
Lemma at_setup_callback_facts iCorProcess pThread w :
  let ws := at_setup_callback iCorProcess pThread w in
  let tid := snd (GetID pThread) in
  m_evalResult ws
  = Some {| threadId := tid; pEval := snd (CreateEval pThread);
            promiseValue := length (shared w) |} /\
  shared ws = shared w ++ [NotReady] /\
  threads ws = map (SetDebugState_one tid THREAD_SUSPEND) (threads w) /\
  customNotification ws
  = customNotification
      (snd (SetEnableCustomNotification iCorProcess true w)) /\
  evalTimeOut ws = false.
Proof.
  destruct (at_WaitResult_facts iCorProcess w) as (_ & T & _ & _ & S & H & _).
  unfold at_setup_callback, armed_request.
  cbn [m_evalResult shared evalTimeOut threads customNotification record
       set_evalResult set_shared SetDebugState_all set_threads].
  rewrite S, H, T. repeat split; auto.
  unfold at_WaitResult.
  cbn [customNotification set_evalCrossThreadDependency set_evalCanceled].
  rewrite !SetEnableCustomNotification_switch. reflexivity.
Qed.

(** X12.  One promise for one evaluation.  A [WaitEvalResult] call entered
    with the slot empty, once it has the process and the thread id and the
    thread enumeration succeeds.  Given a setup callback that returns a
    status, it returns and: when [CreateEval] failed it created no promise
    (the shared states are as at entry); otherwise it created exactly one,
    and that promise is resolved at return, fulfilled or broken, never left
    pending, whatever callbacks arrived in the three windows and whichever
    of the returning paths was taken; no shared state that existed at entry
    is changed.  Given a setup callback that throws a [std::future_error],
    it returns [E_FAIL] with the one promise it created still pending, in
    the slot. *)
Theorem WaitEvalResult_one_promise :
  forall pThread ppEvalResult env w iCorProcess,
    m_evalResult w = None ->
    FAILED (fst (GetProcess pThread)) = false ->
    snd (GetProcess pThread) = Some iCorProcess ->
    FAILED (fst (GetID pThread)) = false ->
    FAILED (EnumerateThreads iCorProcess) = false ->
    (forall cb, exists r w',
       WaitEvalResult pThread ppEvalResult (returns_status cb) env w
       = (Returns r, w') /\
       (FAILED (fst (CreateEval pThread)) = true -> shared w' = shared w) /\
       (FAILED (fst (CreateEval pThread)) = false ->
        exists s, shared w' = shared w ++ [s] /\ s <> NotReady)) /\
    (FAILED (fst (CreateEval pThread)) = false ->
     forall cbSetupEval x,
       cbSetupEval (snd (CreateEval pThread)) = Throws x ->
       exists w',
         WaitEvalResult pThread ppEvalResult cbSetupEval env w
         = (Returns (E_FAIL, ppEvalResult), w') /\
         shared w' = shared w ++ [NotReady] /\
         m_evalResult w' <> None).
Proof.
  intros pThread pp env w proc Hi H1 H2 H3 HE. split.
  - intros cb.
    exact (WaitEvalResult_one_promise_resolved pThread pp cb env w proc
             Hi H1 H2 H3 HE).
  - intros HC cb x Hcb.
    pose proof (WaitEvalResult_setup_exception pThread pp cb env w proc
                  Hi H1 H2 H3 HE HC) as X.
    cbv zeta in X. rewrite Hcb in X. rewrite X. eexists.
    split; [reflexivity|].
    destruct (cleanup_facts proc (snd (GetID pThread))
                (at_setup_callback proc pThread w)) as (A & B & _).
    destruct (at_setup_callback_facts proc pThread w) as (C & D & _).
    rewrite A, B, C, D. split; [reflexivity|discriminate].
Qed.

(** *** The last two steps of WaitEvalResult *)


(** *** Arming over an armed slot *)



(** *** The ChangeThreadsState lambda *)

(** X6.  The [ChangeThreadsState] lambda does not look at the status of
    [EnumerateThreads].  When the enumeration fails it makes no call and
    the process ends, the null enumerator being followed; [WaitEvalResult],
    whose first use of it is the suspension, then ends after it asked for
    the notification and reset the flags, before [CreateEval], whatever the
    setup callback and the callbacks.  When the enumeration succeeds it
    returns, whatever the threads answer: it asks [SetDebugState(state)] of
    the threads enumerated, in their order, exactly of those whose id can be
    read and is not the evaluating thread's, and it leaves the slot, the
    promises, the flags, [evalTimeOut] and the notification switch as they
    are. *)
Theorem ChangeThreadsState_enumeration :
  forall iCorProcess tid state w,
    (FAILED (EnumerateThreads iCorProcess) = true ->
     ChangeThreadsState iCorProcess tid state w = (Terminates, w) /\
     forall pThread ppEvalResult cbSetupEval env,
       FAILED (fst (GetProcess pThread)) = false ->
       snd (GetProcess pThread) = Some iCorProcess ->
       FAILED (fst (GetID pThread)) = false ->
       WaitEvalResult pThread ppEvalResult cbSetupEval env w
       = (Terminates, at_WaitResult iCorProcess w) /\
       calls (at_WaitResult iCorProcess w)
       = calls w ++ notification_calls iCorProcess true) /\
    (FAILED (EnumerateThreads iCorProcess) = false ->
     exists w',
       ChangeThreadsState iCorProcess tid state w = (Returns tt, w') /\
       calls w'
       = calls w ++ flat_map (SetDebugState_call tid state) (threads w) /\
       (forall i s,
          In (call_SetDebugState i s)
            (flat_map (SetDebugState_call tid state) (threads w)) <->
          s = state /\ i <> tid /\
          exists t st, In (t, st) (threads w) /\
                       FAILED (fst (GetID t)) = false /\ snd (GetID t) = i) /\
       m_evalResult w' = m_evalResult w /\ shared w' = shared w /\
       m_evalCanceled w' = m_evalCanceled w /\
       m_evalCrossThreadDependency w' = m_evalCrossThreadDependency w /\
       evalTimeOut w' = evalTimeOut w /\
       customNotification w' = customNotification w).
Proof.
  intros proc tid state w. split; intros HE.
  - split; [now apply ChangeThreadsState_null_enumerator|].
    intros pThread pp cb env H1 H2 H3. split.
    + now apply WaitEvalResult_null_enumerator.
    + apply at_WaitResult_facts.
  - rewrite ChangeThreadsState_enumerated by exact HE.
    eexists. split; [reflexivity|]. split; [reflexivity|].
    split; [|repeat split].
    intros i s. rewrite in_flat_map. split.
    + intros ([t st] & Hin & Hc). unfold SetDebugState_call in Hc.
      cbn [fst] in Hc. rewrite SUCCEEDED_not_FAILED in Hc.
      destruct (FAILED (fst (GetID t))) eqn:Hid; [destruct Hc|].
      destruct (tid =? snd (GetID t)) eqn:Ht; [destruct Hc|].
      cbn in Hc. destruct Hc as [Hc|[]]. inversion Hc; subst i s.
      apply Z.eqb_neq in Ht. split; [reflexivity|]. split; [congruence|].
      exists t, st. auto.
    + intros (-> & Hne & t & st & Hin & Hid & <-).
      exists (t, st). split; [exact Hin|]. unfold SetDebugState_call.
      cbn [fst]. rewrite SUCCEEDED_not_FAILED, Hid.
      assert (Ht : (tid =? snd (GetID t)) = false)
        by (apply Z.eqb_neq; congruence).
      rewrite Ht. cbn. auto.
Qed.

End Properties.

(** * The statements on sample inputs *)

(** C1 at a sample input: the completion for thread 7 delivers status [S_OK]
    and value handle 42; both reach the caller. *)
Lemma WaitEvalResult_delivers_outcome_witness :
  exists w',
    @WaitEvalResult release_build (sample_thread 7 0) (Some None)
      (returns_status (fun _ => 0)) (env_completed 0) idle_world
    = (Returns (0, Some (Some 42%nat)), w') /\
    m_evalResult w' = None.
Proof.
  destruct (@WaitEvalResult_delivers_outcome release_build
              (sample_thread 7 0) (Some None) (fun _ => 0) (env_completed 0)
              idle_world sample_process [] (sample_thread 7 0)
              (Some (sample_eval 0 0 0)) []
              eq_refl eq_refl eq_refl eq_refl eq_refl eq_refl eq_refl
              eq_refl eq_refl eq_refl eq_refl)
    as (status & out & w' & E & N & _ & _ & _ & H).
  destruct (H eq_refl ltac:(discriminate)) as (Hout & Hst & _).
  exists w'. split; [|exact N].
  rewrite E, Hout, (Hst ltac:(discriminate)). reflexivity.
Defined.

(** C1 as stated fails: with no output slot, an outcome with status
    [CORDBG_S_FUNC_EVAL_HAS_NO_RESULT] is answered by [S_OK]; and with an
    output slot, an outcome with the aborted status is answered by
    [COR_E_TIMEOUT] (no flag set), not by the status of the outcome. *)
Lemma WaitEvalResult_returns_other_status :
  fst (@WaitEvalResult release_build (sample_thread 7 0) None
         (returns_status (fun _ => 0))
         (env_completed CORDBG_S_FUNC_EVAL_HAS_NO_RESULT) idle_world)
  = Returns (S_OK, None) /\
  Status (@delivered release_build
            (Some (sample_eval CORDBG_S_FUNC_EVAL_HAS_NO_RESULT 0 0)))
  = 0x00131316 /\
  fst (@WaitEvalResult release_build (sample_thread 7 0) (Some None)
         (returns_status (fun _ => 0)) (env_completed ABORTED) idle_world)
  = Returns (@COR_E_TIMEOUT release_build, Some (Some 42%nat)) /\
  Status (@delivered release_build (Some (sample_eval ABORTED 0 0)))
  = 0x00131319 /\
  @COR_E_TIMEOUT release_build = -2146233083.
Proof. vm_compute. repeat split. Qed.

(** C2 at a sample input: nothing arrives in either wait; the status is
    [E_UNEXPECTED] and the slot is empty. *)
Lemma WaitEvalResult_primary_timeout_witness :
  exists w',
    @WaitEvalResult release_build (sample_thread 7 0) (Some None)
      (returns_status (fun _ => 0)) env_silent idle_world
    = (Returns (@E_UNEXPECTED release_build, Some None), w') /\
    m_evalResult w' = None.
Proof.
  destruct (@WaitEvalResult_primary_timeout release_build
              (sample_thread 7 0) (Some None) (fun _ => 0) env_silent
              idle_world sample_process
              eq_refl eq_refl eq_refl eq_refl eq_refl eq_refl eq_refl eq_refl
              eq_refl)
    as (status & out & w' & E & _ & _ & N & _ & H & _).
  destruct (H eq_refl) as (Hst & Hout).
  exists w'. split; [|exact N]. rewrite E, Hst, Hout. reflexivity.
Defined.

(** C2 as stated fails: the primary wait times out, the completion is
    observed in the second wait, and the status is
    [COR_E_OPERATIONCANCELED], not [COR_E_TIMEOUT]: the user had canceled,
    and the outcome, fetched into the output slot, has the aborted status. *)
Lemma WaitEvalResult_grace_completion_reports_canceled :
  fst (@WaitEvalResult release_build (sample_thread 7 0) (Some None)
         (returns_status (fun _ => 0)) env_canceled_late idle_world)
  = Returns (@COR_E_OPERATIONCANCELED release_build, Some (Some 42%nat)) /\
  evalTimeOut (snd (@WaitEvalResult release_build (sample_thread 7 0)
                      (Some None) (returns_status (fun _ => 0))
                      env_canceled_late idle_world))
  = true /\
  (@COR_E_OPERATIONCANCELED release_build =? @COR_E_TIMEOUT release_build)
  = false.
Proof. vm_compute. repeat split. Qed.

(** C3 at a sample input: the lambda returns the aborted status with the
    canceled flag set and no cross-thread dependency. *)
Lemma WaitEvalResult_status_translation_witness :
  exists w',
    @WaitEvalResult release_build (sample_thread 7 0) (Some None)
      (returns_status (fun _ => 0)) env_canceled idle_world
    = (Returns (@COR_E_OPERATIONCANCELED release_build, Some (Some 42%nat)),
       w').
Proof.
  destruct (@WaitEvalResult_status_translation release_build
              (sample_thread 7 0) (Some None) (returns_status (fun _ => 0))
              env_canceled idle_world sample_process ABORTED
              (Some (Some 42%nat))
              (snd (@WaitResult release_build sample_process
                      (sample_thread 7 0) 7 (Some None)
                      (returns_status (fun _ => 0))
                      env_canceled (at_WaitResult sample_process idle_world)))
              eq_refl eq_refl eq_refl ltac:(vm_compute; reflexivity))
    as (status & w' & E & HA & _).
  destruct (HA eq_refl) as (_ & Hc & _).
  exists w'.
  rewrite E, (Hc ltac:(vm_compute; reflexivity) ltac:(vm_compute; reflexivity)).
  reflexivity.
Defined.





(** C6 at a sample input: the completion for thread 7 fulfils the promise of
    the request armed for thread 7. *)
Lemma NotifyEvalComplete_dispatch_witness :
  exists w',
    @NotifyEvalComplete release_build (Some (sample_thread 7 0))
      (Some (sample_eval 0 0 0)) (armed_world 0 0) = (Returns tt, w') /\
    m_evalResult w' = None /\
    nth_error (shared w') 0
    = Some (HasValue {| iCorEval := Some 42%nat; Status := 0 |}).
Proof.
  exact (proj1 (proj2 (proj2 (@NotifyEvalComplete_dispatch release_build)))
           (sample_thread 7 0) (Some (sample_eval 0 0 0)) (armed_world 0 0)
           (sample_request 0 0) eq_refl eq_refl eq_refl).
Defined.

(** C7 at a sample input: the setup callback fails with [E_FAIL]. *)
Lemma WaitEvalResult_setup_callback_witness :
  exists l,
    calls (snd (@WaitEvalResult release_build (sample_thread 7 0) (Some None)
                  (returns_status (fun _ => @E_FAIL release_build))
                  env_silent idle_world))
    = calls idle_world ++ l /\
    count_setup l = 1%nat /\ forallb not_Continue l = true /\
    fst (@WaitEvalResult release_build (sample_thread 7 0) (Some None)
           (returns_status (fun _ => @E_FAIL release_build))
           env_silent idle_world)
    = Returns (@E_FAIL release_build, Some None) /\
    IsEvalRunning
      (snd (@WaitEvalResult release_build (sample_thread 7 0) (Some None)
              (returns_status (fun _ => @E_FAIL release_build))
              env_silent idle_world))
    = false.
Proof.
  destruct (@WaitEvalResult_setup_callback release_build (sample_thread 7 0)
              (Some None) (fun _ => @E_FAIL release_build) env_silent
              idle_world eq_refl)
    as (l & C & _ & _ & H).
  destruct (H ltac:(intros p Hp; inversion Hp; reflexivity))
    as (r & E & Hex).
  destruct (Hex sample_process eq_refl eq_refl eq_refl eq_refl)
    as (l1 & l2 & -> & S1 & K1 & S2 & HF & _).
  destruct (HF eq_refl) as (-> & R & K2).
  eexists. split; [exact C|]. split; [|split; [|split; [exact E|exact R]]].
  - rewrite !count_setup_app, (count_setup_none _ S1), (count_setup_none _ S2).
    reflexivity.
  - rewrite !forallb_app, K1, K2. reflexivity.
Defined.

(** C7 as stated fails: when [CreateEval] fails, [WaitEvalResult] returns
    its status and the setup callback has not been called at all. *)
Lemma WaitEvalResult_without_setup_call :
  fst (@WaitEvalResult release_build
         (sample_thread 7 (@E_FAIL release_build)) (Some None)
         (returns_status (fun _ => 0)) env_silent idle_world)
  = Returns (@E_FAIL release_build, Some None) /\
  calls (snd (@WaitEvalResult release_build
                (sample_thread 7 (@E_FAIL release_build)) (Some None)
                (returns_status (fun _ => 0)) env_silent idle_world))
  = [call_SetEnableCustomNotification true;
     call_SetDebugState 9 THREAD_SUSPEND; call_CreateEval;
     call_SetEnableCustomNotification false;
     call_SetDebugState 9 THREAD_RUN] /\
  count_setup
    (calls (snd (@WaitEvalResult release_build
                   (sample_thread 7 (@E_FAIL release_build)) (Some None)
                   (returns_status (fun _ => 0)) env_silent idle_world)))
  = 0%nat.
Proof. vm_compute. repeat split. Qed.




(** C10 at a sample input: a completion for thread 7 with a null evaluation
    handle delivers the initial status and no value. *)
Lemma NotifyEvalComplete_null_eval_is_completion_witness :
  exists w',
    @NotifyEvalComplete release_build (Some (sample_thread 7 0)) None
      (armed_world 0 0) = (Returns tt, w') /\
    m_evalResult w' = None /\
    nth_error (shared w') 0
    = Some (HasValue {| iCorEval := None;
                        Status := @evalResultData_Status_init release_build |})
    /\ calls w' = calls (armed_world 0 0).
Proof.
  exact (proj1 (@NotifyEvalComplete_null_eval_is_completion release_build
                  (sample_thread 7 0) (armed_world 0 0) (sample_request 0 0)
                  eq_refl eq_refl eq_refl)).
Defined.

(** X1 at a sample input: false after the fatal path. *)
Lemma IsEvalRunning_while_armed_witness :
  IsEvalRunning
    (snd (@WaitEvalResult release_build (sample_thread 7 0) (Some None)
            (returns_status (fun _ => 0)) env_silent idle_world))
  = false.
Proof.
  exact (proj2 (proj2 (@IsEvalRunning_while_armed release_build))
           (sample_thread 7 0) (Some None) (fun _ => 0) env_silent idle_world
           eq_refl).
Defined.

(** X2 at a sample input: the user cancels and the notification of the
    evaluating thread arrives before the aborted evaluation completes; the
    cross-thread dependency is what is reported. *)
Lemma WaitEvalResult_user_cancel_witness :
  exists w',
    @WaitEvalResult release_build (sample_thread 7 0) (Some None)
      (returns_status (fun _ => 0)) env_canceled_and_notified idle_world
    = (Returns (@CORDBG_E_CANT_CALL_ON_THIS_THREAD release_build,
                Some (Some 42%nat)), w') /\
    m_evalCanceled w' = true /\
    m_evalCrossThreadDependency w' = true /\
    m_evalResult w' = None.
Proof.
  exact (proj1 (@WaitEvalResult_user_cancel release_build (sample_thread 7 0)
                  (Some None) (fun _ => 0) env_canceled_and_notified
                  idle_world sample_process
                  [cb_CancelEvalRunning;
                   cb_CustomNotification (sample_thread 7 0)]
                  (sample_thread 7 0) (Some (sample_eval ABORTED 0 0)) []
                  eq_refl eq_refl eq_refl eq_refl eq_refl eq_refl eq_refl
                  eq_refl eq_refl eq_refl eq_refl)
           eq_refl).
Defined.

(** X3 at a sample input: a cancellation stays set through the completion
    and the reset. *)
Lemma callbacks_never_witness :
  m_evalCanceled
    (snd (@run_callbacks release_build
            [completion 0; cb_NotifyEvalComplete None None]
            (CancelEvalRunning (armed_world 0 0))))
  = true.
Proof.
  exact (proj1 (proj2 (@callbacks_never release_build
                         [completion 0; cb_NotifyEvalComplete None None]
                         (CancelEvalRunning (armed_world 0 0))))
           eq_refl).
Defined.

(** X4 at a sample input. *)
Lemma callbacks_on_idle_witness :
  @run_callbacks release_build
    [cb_CancelEvalRunning; completion 0; cb_NotifyEvalComplete None None;
     cb_CustomNotification (sample_thread 7 0)] idle_world
  = (Returns tt, record [call_GetResult 1] idle_world).
Proof.
  exact (@callbacks_on_idle release_build
           [cb_CancelEvalRunning; completion 0; cb_NotifyEvalComplete None None;
            cb_CustomNotification (sample_thread 7 0)] idle_world eq_refl).
Defined.

(** X5 at a sample input: flags left set do not change the call. *)
Lemma WaitEvalResult_ignores_flags_at_entry_witness :
  @WaitEvalResult release_build (sample_thread 7 0) (Some None)
    (returns_status (fun _ => 0)) (env_completed ABORTED)
    (with_flags true true true idle_world)
  = @WaitEvalResult release_build (sample_thread 7 0) (Some None)
      (returns_status (fun _ => 0)) (env_completed ABORTED) idle_world.
Proof.
  exact (proj2 (@WaitEvalResult_ignores_flags_at_entry release_build
                  (sample_thread 7 0) (Some None)
                  (returns_status (fun _ => 0))
                  (env_completed ABORTED) idle_world true true true)
           sample_process eq_refl eq_refl eq_refl).
Defined.

(** X6 at a sample input: the enumeration fails, and the call ends before
    the setup callback could throw. *)
Lemma ChangeThreadsState_enumeration_witness :
  @WaitEvalResult release_build (sample_thread_in sample_process_gone 7) None
    setup_raises env_silent idle_world
  = (Terminates, at_WaitResult sample_process_gone idle_world).
Proof.
  exact (proj1 (proj2 (proj1 (@ChangeThreadsState_enumeration release_build
                                sample_process_gone 7 THREAD_SUSPEND
                                idle_world) eq_refl)
                  (sample_thread_in sample_process_gone 7) None setup_raises
                  env_silent eq_refl eq_refl eq_refl)).
Defined.

(** X7 at a sample input: the engine rejects the disable request, the
    notification stays on. *)
Lemma WaitEvalResult_notification_switch_witness :
  customNotification
    (snd (@WaitEvalResult release_build
            (sample_thread_in sample_process_sticky 7) None
            (returns_status (fun _ => 0)) (env_completed 0) idle_world))
  = true.
Proof.
  exact (@WaitEvalResult_notification_switch release_build
           (sample_thread_in sample_process_sticky 7) None
           (returns_status (fun _ => 0))
           (env_completed 0) idle_world sample_process_sticky
           (S_OK, None)
           (snd (@WaitEvalResult release_build
                   (sample_thread_in sample_process_sticky 7) None
                   (returns_status (fun _ => 0)) (env_completed 0)
                   idle_world))
           eq_refl eq_refl eq_refl
           ltac:(vm_compute; reflexivity)).
Defined.


(** X9 at a sample input: [Continue] fails. *)
Lemma WaitEvalResult_fails_before_waiting_witness :
  exists w',
    @WaitEvalResult release_build
      (sample_thread_in (sample_process_stuck (-5)) 7) None
      (returns_status (fun _ => 0)) env_silent idle_world
    = (Returns (-5, None), w') /\
    shared w' = [BrokenPromise] /\ m_evalResult w' = None.
Proof.
  destruct (proj2 (proj2 (proj2
              (proj2 (proj2 (@WaitEvalResult_fails_before_waiting release_build
                               (sample_thread_in (sample_process_stuck (-5)) 7)
                               None (fun _ => 0) env_silent idle_world))
                 (sample_process_stuck (-5)) eq_refl eq_refl)))
              eq_refl eq_refl eq_refl eq_refl eq_refl eq_refl)
    as (w' & E & _ & S & N).
  exists w'. split; [exact E|]. split; [exact S|exact N].
Defined.

(** X10 at a sample input. *)
Lemma FindEvalForThread_after_RunEval_witness :
  FindEvalForThread (sample_thread 7 0)
    (snd (@RunEval release_build sample_process (sample_thread 7 0)
            (sample_eval 0 0 0) (returns_status (fun _ => 0)) idle_world))
  = Some (sample_eval 0 0 0).
Proof.
  exact (proj1 (proj2 (proj2 (@FindEvalForThread_after_RunEval release_build
                                sample_process (sample_thread 7 0)
                                (sample_eval 0 0 0) (fun _ => 0) idle_world
                                (sample_thread 7 0) eq_refl))
                  eq_refl eq_refl)).
Defined.

(** X11 at a sample input: class 3 is released, class 5 stored. *)
Lemma SetupCrossThreadDependencyNotificationClass_lookup_witness :
  SetupCrossThreadDependencyNotificationClass 0 sample_module (Some 3%nat)
  = (0, Some 5%nat, [3%nat]).
Proof.
  exact (proj1 (proj2 (SetupCrossThreadDependencyNotificationClass_lookup 0
                         sample_module (Some 3%nat)))
           eq_refl).
Defined.

(** X12 at a sample input: the fatal path leaves no pending promise. *)
Lemma WaitEvalResult_one_promise_witness :
  exists r w',
    @WaitEvalResult release_build (sample_thread 7 0) (Some None)
      (returns_status (fun _ => 0)) env_silent idle_world
    = (Returns r, w') /\
    exists s, shared w' = [s] /\ s <> NotReady.
Proof.
  destruct (proj1 (@WaitEvalResult_one_promise release_build
                     (sample_thread 7 0) (Some None) env_silent idle_world
                     sample_process eq_refl eq_refl eq_refl eq_refl eq_refl)
              (fun _ => 0))
    as (r & w' & E & _ & H).
  exists r, w'. split; [exact E|exact (H eq_refl)].
Defined.


(** X14 at a sample input: the outcome is there in the first wait, and the
    second wait is made all the same. *)
Lemma WaitEvalResult_waits_witness :
  exists r w' l,
    @WaitEvalResult release_build (sample_thread 7 0) (Some None)
      (returns_status (fun _ => 0)) (env_completed 0) idle_world
    = (Returns r, w') /\
    calls w' = calls idle_world ++ l /\ waits l = [5000; 5000].
Proof.
  exact (@WaitEvalResult_waits release_build (sample_thread 7 0) (Some None)
           (fun _ => 0) (env_completed 0) idle_world sample_process
           eq_refl eq_refl eq_refl eq_refl eq_refl).
Defined.
